(** * mayaserver: provisioning transformation engine

    A shallow embedding of the jiva volume provisioner
    ([lib/volume/jiva/util.go]) and of the Nomad orchestrator helpers
    ([lib/orchprovider/nomad/helper_funcs.go], [util.go]), together with the
    properties of the resolution, allocation, topology-building and status
    code that the specification states.

    Go values are modelled as follows: [string] is [string]; [int] is [Z]
    (64 bit, the range is checked where the runtime checks it);
    [map[string]string] is [gmap string string], a nil map being [None] of
    an [option]; a pointer field is an [option]; a function returning
    [(T, error)] returns a [result T], which also records a run-time panic. *)

From Stdlib Require Import ZArith Lia Ascii String.
From stdpp Require Import gmap strings list fin_maps pretty.

(** ** The Go runtime and the standard-library functions the code calls *)
Module Go.

Inductive error : Type :=
| Errorf (msg : string)                 (* fmt.Errorf with the rendered text *)
| ErrSyntax (input : string)            (* strconv: invalid syntax *)
| ErrRange (input : string)             (* strconv: value out of range *)
| InvalidCIDR (cidr : string)           (* nethelper: unparsable CIDR *)
| AddressPoolExhausted (cidr : string) (count : Z)
| Wrapped (msg : string) (cause : error). (* fmt.Errorf quoting another error *)

Inductive panic : Type :=
| NilDereference
| NilMapAssignment
| IndexOutOfRange.

Inductive result (A : Type) : Type :=
| Ok (a : A)
| Err (e : error)
| Panic (p : panic).
Arguments Ok {A} a.
Arguments Err {A} e.
Arguments Panic {A} p.

Definition is_ok {A} (r : result A) : bool :=
  match r with Ok _ => true | _ => false end.

(** [m[k]] on a Go map: the zero value when the key is absent. *)
Definition get (m : gmap string string) (k : string) : string :=
  default EmptyString (m !! k).

Definition min_int : Z := - 2 ^ 63.
Definition max_int : Z := 2 ^ 63 - 1.

(** strconv.Itoa *)
Definition Itoa (i : Z) : string := pretty i.

Definition digit_val (c : ascii) : option Z :=
  let n := Z.of_N (N_of_ascii c) in
  if decide (48 ≤ n ≤ 57)%Z then Some (n - 48)%Z else None.

Fixpoint parse_digits (acc : Z) (s : string) : option Z :=
  match s with
  | EmptyString => Some acc
  | String c s' =>
      match digit_val c with
      | Some d => parse_digits (10 * acc + d)%Z s'
      | None => None
      end
  end.

(** strconv.Atoi: an optional sign, then one or more decimal digits, the
    value within the range of [int]. *)
Definition Atoi (s : string) : result Z :=
  let '(neg, body) :=
    match s with
    | String "-" s' => (true, s')
    | String "+" s' => (false, s')
    | _ => (false, s)
    end in
  match body with
  | EmptyString => Err (ErrSyntax s)
  | _ =>
      match parse_digits 0 body with
      | None => Err (ErrSyntax s)
      | Some n =>
          let v := if neg : bool then (- n)%Z else n in
          if decide (min_int ≤ v ≤ max_int)%Z then Ok v else Err (ErrRange s)
      end
  end.

(** strings.Split(s, sep) for a separator of one byte. The result is never
    empty: splitting the empty string gives one empty field. *)
Fixpoint Split (s : string) (sep : ascii) : list string :=
  match s with
  | EmptyString => [EmptyString]
  | String c s' =>
      if decide (c = sep) then EmptyString :: Split s' sep
      else match Split s' sep with
           | [] => [String c EmptyString]
           | w :: ws => String c w :: ws
           end
  end.

(** strings.TrimSuffix *)
Fixpoint TrimSuffix (s suffix : string) : string :=
  if decide (s = suffix) then EmptyString
  else match s with
       | EmptyString => EmptyString
       | String c s' => String c (TrimSuffix s' suffix)
       end.

(** strings.Join, used to state what the concatenation loops compute. *)
Fixpoint Join (l : list string) (sep : string) : string :=
  match l with
  | [] => EmptyString
  | [x] => x
  | x :: l' => x +:+ sep +:+ Join l' sep
  end.

(** Every byte of a string passes a test. *)
Fixpoint allBytes (P : ascii → bool) (s : string) : bool :=
  match s with
  | EmptyString => true
  | String c s' => P c && allBytes P s'
  end.

Definition isDigit (c : ascii) : bool :=
  match digit_val c with Some _ => true | None => false end.

(** A byte does not occur in a string. *)
Definition lacks (sep : ascii) (s : string) : Prop :=
  allBytes (λ c, bool_decide (c ≠ sep)) s = true.

End Go.
Export Go.

(** ** lib/api/v1: the API types and the label constants *)
Module v1.

(** The label constants of [lib/api/v1], [lib/api/v1/jiva] and
    [lib/api/v1/nomad] are declared outside the files under study; the
    development is parametric in their values. *)
Class LabelTable : Type := {
  (* v1 *)
  RegionLbl : string;
  DatacenterLbl : string;
  OrchRegionLbl : string;
  OrchDCLbl : string;
  CNTypeLbl : string;
  CNNetworkCIDRAddrLbl : string;
  CNSubnetLbl : string;
  CNInterfaceLbl : string;
  CSReplicaCountLbl : string;
  PVPControllerImageLbl : string;
  PVPControllerIPsLbl : string;
  PVPReplicaIPsLbl : string;
  PVPReplicaCountLbl : string;
  PVPPersistenceLocationLbl : string;
  PVPStorageSizeLbl : string;
  JivaISCSIPortDef : string;
  JivaIqnFormatPrefix : string;
  (* v1jiva *)
  JivaFrontEndImageLbl : string;
  JivaFrontEndIPLbl : string;
  JivaBackEndAllIPsLbl : string;
  JivaBackEndIPPrefixLbl : string;
  JivaFrontEndVolSizeLbl : string;
  JivaBackEndVolSizeLbl : string;
  JivaTargetPortalLbl : string;
  JivaIqnLbl : string;
  (* v1nomad *)
  DefaultNomadCNType : string;
  DefaultNomadCNNetworkCIDR : string;
  DefaultNomadCNInterface : string;
  DefaultNomadCSPersistenceLocation : string;
  DefaultNomadCSReplicaCount : string;
}.

(** [resource.Quantity] is kept as the integer it denotes; [Sign] is the
    sign of that integer and the zero value is [0]. *)
Definition Quantity : Type := Z.
Definition Sign (q : Quantity) : Z := Z.sgn q.

Record PersistentVolumeClaim : Type := {
  pvc_Name : string;
  pvc_Labels : option (gmap string string);
  pvc_Requests : option (gmap string Quantity);   (* Spec.Resources.Requests *)
}.

Record PersistentVolumeStatus : Type := {
  Message : string;
  Reason : string;
}.

Record PersistentVolume : Type := {
  pv_Name : string;
  pv_Annotations : option (gmap string string);
  pv_Status : PersistentVolumeStatus;
}.

Definition set_Labels (pvc : PersistentVolumeClaim) (l : gmap string string)
  : PersistentVolumeClaim :=
  {| pvc_Name := pvc_Name pvc; pvc_Labels := Some l; pvc_Requests := pvc_Requests pvc |}.

Definition set_Requests (pvc : PersistentVolumeClaim) (r : gmap string Quantity)
  : PersistentVolumeClaim :=
  {| pvc_Name := pvc_Name pvc; pvc_Labels := pvc_Labels pvc; pvc_Requests := Some r |}.

(** [pvc.Labels[k]]: reading a nil map gives the zero value. *)
Definition label (pvc : PersistentVolumeClaim) (k : string) : string :=
  match pvc_Labels pvc with
  | Some m => get m k
  | None => EmptyString
  end.

End v1.
Export v1.

(** ** github.com/hashicorp/nomad/api: the job types the builder fills in *)
Module api.

Definition JobTypeService : string := "service".
(** structs.JobStatusRunning *)
Definition JobStatusRunning : string := "running".

Record Constraint : Type := {
  LTarget : string;
  RTarget : string;
  Operand : string;
}.

Definition NewConstraint (left operand right : string) : Constraint :=
  {| LTarget := left; RTarget := right; Operand := operand |}.

Record RestartPolicy : Type := {
  Attempts : option Z;
  Interval : option Z;      (* time.Duration, in nanoseconds *)
  Delay : option Z;
  Mode : option string;
}.

Record NetworkResource : Type := { MBits : option Z }.

Record Resources : Type := {
  CPU : option Z;
  MemoryMB : option Z;
  Networks : list NetworkResource;
}.

Record TaskArtifact : Type := {
  GetterSource : option string;
  RelativeDest : option string;
}.

Record LogConfig : Type := {
  MaxFiles : option Z;
  MaxFileSizeMB : option Z;
}.

Record Task : Type := {
  task_Name : string;
  Driver : string;
  task_Resources : option Resources;
  Env : gmap string string;
  Artifacts : list TaskArtifact;
  Config : gmap string string;
  task_LogConfig : option LogConfig;
}.

Record TaskGroup : Type := {
  tg_Name : option string;
  Count : option Z;
  tg_Constraints : list Constraint;
  tg_RestartPolicy : option RestartPolicy;
  Tasks : list Task;
}.

Record Job : Type := {
  Region : option string;
  job_Name : option string;
  ID : option string;
  Datacenters : list string;
  Type_ : option string;
  Priority : option Z;
  job_Constraints : list Constraint;
  Meta : option (gmap string string);
  TaskGroups : list TaskGroup;
  Status : option string;
  StatusDescription : option string;
}.

Record Evaluation : Type := {
  eval_Priority : Z;
  eval_Type : string;
  TriggeredBy : string;
  JobID : string;
  eval_Status : string;
  eval_StatusDescription : string;
  BlockedEval : string;
}.

Definition Second : Z := 1000000000.
Definition Minute : Z := 60 * Second.

End api.
Export api.

(** ** lib/orchprovider/nomad/helper_funcs.go *)
Module nomad.
Section helper_funcs.
Context `{K : LabelTable}.

(** Get the job name from a persistent volume claim *)
Definition PvcToJobName (pvc : option PersistentVolumeClaim) : result string :=
  match pvc with
  | None => Err (Errorf "Nil persistent volume claim provided")
  | Some pvc =>
      if decide (pvc_Name pvc = EmptyString) then Err (Errorf "Missing VSM name in pvc")
      else Ok (pvc_Name pvc)
  end.

(** The body of the counting loop of [setBEIPs]: [n] iterations are left,
    [i] is the loop variable. *)
Fixpoint setBEIPs_loop (n : nat) (i : Z) (jivaBeIPArr : list string)
    (beEnv jobMeta : gmap string string)
  : result (gmap string string * gmap string string) :=
  match n with
  | O => Ok (beEnv, jobMeta)
  | S n' =>
      match jivaBeIPArr !! Z.to_nat i with
      | None => Panic IndexOutOfRange
      | Some v =>
          let k := JivaBackEndIPPrefixLbl +:+ Itoa i in
          setBEIPs_loop n' (i + 1)%Z jivaBeIPArr (<[k := v]> beEnv) (<[k := v]> jobMeta)
      end
  end.

(** setBEIPs sets jiva backend environment with all backend IP addresses.
    The two maps are updated in place by the source; here the updated maps
    are returned. *)
Definition setBEIPs (beEnv jobMeta : gmap string string)
    (jivaBeIPArr : list string) (iJivaBECount : Z)
  : result (gmap string string * gmap string string) :=
  if decide (iJivaBECount = 0)%Z then
    Err (Errorf "Invalid replica count '0'")
  else if decide (Z.of_nat (length jivaBeIPArr) ≠ iJivaBECount) then
    Err (Errorf ("Replica IP count '" +:+ Itoa (Z.of_nat (length jivaBeIPArr))
                 +:+ "' does not match replica count '" +:+ Itoa iJivaBECount +:+ "'"))
  else
    let jobMeta := <[PVPReplicaCountLbl := Itoa iJivaBECount]> jobMeta in
    setBEIPs_loop (Z.to_nat iJivaBECount) 0 jivaBeIPArr beEnv jobMeta.

Definition restartPolicy : RestartPolicy :=
  {| Attempts := Some 3%Z;
     Interval := Some (5 * Minute)%Z;
     Delay := Some (25 * Second)%Z;
     Mode := Some "delay" |}.

Definition taskResources : Resources :=
  {| CPU := Some 50%Z;
     MemoryMB := Some 50%Z;
     Networks := [ {| MBits := Some 50%Z |} ] |}.

Definition taskLogConfig : LogConfig :=
  {| MaxFiles := Some 3%Z; MaxFileSizeMB := Some 1%Z |}.

(** Transform a PersistentVolumeClaim type to Nomad job type *)
Definition PvcToJob (pvc : option PersistentVolumeClaim) : result Job :=
  match pvc with
  | None => Err (Errorf "Nil persistent volume claim provided")
  | Some pvc =>
  if decide (pvc_Name pvc = EmptyString) then Err (Errorf "Missing VSM name in pvc") else
  match pvc_Labels pvc with
  | None => Err (Errorf "Missing labels in pvc")
  | Some labels =>
  if decide (get labels OrchRegionLbl = EmptyString) then
    Err (Errorf "Missing region in pvc") else
  if decide (get labels OrchDCLbl = EmptyString) then
    Err (Errorf "Missing datacenter in pvc") else
  if decide (get labels PVPControllerImageLbl = EmptyString) then
    Err (Errorf "Missing controller image in pvc") else
  if decide (get labels PVPControllerIPsLbl = EmptyString) then
    Err (Errorf "Missing controller IP(s) in pvc") else
  if decide (get labels PVPReplicaIPsLbl = EmptyString) then
    Err (Errorf "Missing replica IPs in pvc") else
  if decide (get labels CNTypeLbl = EmptyString) then
    Err (Errorf "Missing CN type in pvc") else
  if decide (get labels CNSubnetLbl = EmptyString) then
    Err (Errorf "Missing CN subnet in pvc") else
  if decide (get labels CNInterfaceLbl = EmptyString) then
    Err (Errorf "Missing CN interface in pvc") else
  if decide (get labels PVPPersistenceLocationLbl = EmptyString) then
    Err (Errorf "Missing persistent location in pvc") else
  if decide (get labels PVPStorageSizeLbl = EmptyString) then
    Err (Errorf "Missing storage size in pvc") else
  let jivaFEVolSize := get labels PVPStorageSizeLbl in
  let jivaBEVolSize := get labels PVPStorageSizeLbl in
  let jobName := Some (pvc_Name pvc) in
  let region := Some (get labels OrchRegionLbl) in
  let dc := get labels OrchDCLbl in
  let jivaGroupName := "jiva-pod" in
  let jivaVolName := pvc_Name pvc in
  let feTaskGroup := "fe" +:+ "-" +:+ jivaGroupName in
  let beTaskGroup := "be" +:+ "-" +:+ jivaGroupName in
  let feTaskName := "fe" in
  let beTaskName := "be" in
  let jivaFeVersion := get labels PVPControllerImageLbl in
  let jivaNetworkType := get labels CNTypeLbl in
  let jivaFeIP := get labels PVPControllerIPsLbl in
  let jivaBEPersistentStor := get labels PVPPersistenceLocationLbl in
  let jivaBECount := get labels PVPReplicaCountLbl in
  match Atoi jivaBECount with
  | Err e => Err e
  | Panic p => Panic p
  | Ok iJivaBECount =>
  let jivaBeIPs := get labels PVPReplicaIPsLbl in
  let jivaBeIPArr := Split jivaBeIPs "," in
  let jivaFeSubnet := get labels CNSubnetLbl in
  let jivaFeInterface := get labels CNInterfaceLbl in
  let jobMeta : gmap string string :=
    <[JivaIqnLbl := JivaIqnFormatPrefix +:+ ":" +:+ jivaVolName]>
    (<[JivaTargetPortalLbl := jivaFeIP +:+ ":" +:+ JivaISCSIPortDef]>
    (<[JivaFrontEndIPLbl := jivaFeIP]>
    (<[JivaBackEndVolSizeLbl := jivaBEVolSize]> ∅))) in
  let feEnv : gmap string string :=
    <["JIVA_CTL_IFACE" := jivaFeInterface]>
    (<["JIVA_CTL_SUBNET" := jivaFeSubnet]>
    (<["JIVA_CTL_IP" := jivaFeIP]>
    (<["JIVA_CTL_VOLSIZE" := jivaFEVolSize]>
    (<["JIVA_CTL_VOLNAME" := jivaVolName]>
    (<["JIVA_CTL_VERSION" := jivaFeVersion]>
    (<["JIVA_CTL_NAME" := pvc_Name pvc +:+ "-" +:+ feTaskName +:+ "${NOMAD_ALLOC_INDEX}"]>
      ∅)))))) in
  let beEnv : gmap string string :=
    <["JIVA_REP_SUBNET" := jivaFeSubnet]>
    (<["JIVA_REP_IFACE" := jivaFeInterface]>
    (<["JIVA_REP_NETWORK" := jivaNetworkType]>
    (<["JIVA_REP_VERSION" := jivaFeVersion]>
    (<["JIVA_REP_VOLSTORE" :=
         jivaBEPersistentStor +:+ pvc_Name pvc +:+ "/" +:+ beTaskName +:+ "${NOMAD_ALLOC_INDEX}"]>
    (<["JIVA_REP_VOLSIZE" := jivaBEVolSize]>
    (<["JIVA_REP_VOLNAME" := jivaVolName]>
    (<["JIVA_CTL_IP" := jivaFeIP]>
    (<["JIVA_REP_NAME" := pvc_Name pvc +:+ "-" +:+ beTaskName +:+ "${NOMAD_ALLOC_INDEX}"]>
    (<["NOMAD_ALLOC_INDEX" := "${NOMAD_ALLOC_INDEX}"]> ∅))))))))) in
  match setBEIPs beEnv jobMeta jivaBeIPArr iJivaBECount with
  | Err e => Err e
  | Panic p => Panic p
  | Ok (beEnv, jobMeta) =>
  Ok {|
    Region := region;
    job_Name := jobName;
    ID := jobName;
    Datacenters := [dc];
    Type_ := Some JobTypeService;
    Priority := Some 50%Z;
    job_Constraints := [ NewConstraint "${attr.kernel.name}" "=" "linux" ];
    Meta := Some jobMeta;
    TaskGroups := [
      (* jiva frontend *)
      {| tg_Name := Some feTaskGroup;
         Count := Some 1%Z;
         tg_Constraints := [];
         tg_RestartPolicy := Some restartPolicy;
         Tasks := [
           {| task_Name := feTaskName;
              Driver := "raw_exec";
              task_Resources := Some taskResources;
              Env := feEnv;
              Artifacts := [
                {| GetterSource := Some "https://raw.githubusercontent.com/openebs/jiva/master/scripts/launch-jiva-ctl-with-ip";
                   RelativeDest := Some "local/" |} ];
              Config := {[ "command" := "launch-jiva-ctl-with-ip" ]};
              task_LogConfig := Some taskLogConfig |} ] |};
      (* jiva replica group *)
      {| tg_Name := Some beTaskGroup;
         Count := Some iJivaBECount;
         tg_Constraints := [ NewConstraint EmptyString "distinct_hosts" "true" ];
         tg_RestartPolicy := Some restartPolicy;
         Tasks := [
           {| task_Name := beTaskName;
              Driver := "raw_exec";
              task_Resources := Some taskResources;
              Env := beEnv;
              Artifacts := [
                {| GetterSource := Some "https://raw.githubusercontent.com/openebs/jiva/master/scripts/launch-jiva-rep-with-ip";
                   RelativeDest := Some "local/" |} ];
              Config := {[ "command" := "launch-jiva-rep-with-ip" ]};
              task_LogConfig := Some taskLogConfig |} ] |} ];
    Status := None;
    StatusDescription := None;
  |}
  end end end end.

(** Transform the evaluation of a job to a PersistentVolume *)
Definition JobEvalToPv (jobName : string) (eval : option Evaluation)
  : result PersistentVolume :=
  match eval with
  | None => Err (Errorf "Nil job evaluation provided")
  | Some eval =>
      let evalProps : gmap string string :=
        <["evalblockedeval" := BlockedEval eval]>
        (<["evalstatusdesc" := eval_StatusDescription eval]>
        (<["evalstatus" := eval_Status eval]>
        (<["evaljob" := JobID eval]>
        (<["evaltrigger" := TriggeredBy eval]>
        (<["evaltype" := eval_Type eval]>
        (<["evalpriority" := Itoa (eval_Priority eval)]> ∅)))))) in
      Ok {| pv_Name := jobName;
            pv_Annotations := Some evalProps;
            pv_Status := {| Message := eval_StatusDescription eval;
                            Reason := eval_Status eval |} |}
  end.

(** Transform a PersistentVolume type to Nomad Job type *)
Definition PvToJob (pv : option PersistentVolume) : result Job :=
  match pv with
  | None => Err (Errorf "Nil persistent volume provided")
  | Some pv =>
      Ok {| Region := None;
            job_Name := Some (pv_Name pv);
            ID := Some (pv_Name pv);
            Datacenters := [];
            Type_ := None;
            Priority := None;
            job_Constraints := [];
            Meta := None;
            TaskGroups := [];
            Status := None;
            StatusDescription := None |}
  end.

(** [*p] on a pointer field: a nil pointer panics. *)
Definition deref {A} (p : option A) : result A :=
  match p with
  | Some a => Ok a
  | None => Panic NilDereference
  end.

(** Transform a Nomad Job to a PersistentVolume *)
Definition JobToPv (job : option Job) : result PersistentVolume :=
  match job with
  | None => Err (Errorf "Nil job provided")
  | Some job =>
      match deref (job_Name job) with
      | Err e => Err e | Panic p => Panic p
      | Ok name =>
      match deref (StatusDescription job) with
      | Err e => Err e | Panic p => Panic p
      | Ok message =>
      match deref (Status job) with
      | Err e => Err e | Panic p => Panic p
      | Ok reason =>
          let pvs := {| Message := message; Reason := reason |} in
          let annotations :=
            if decide (reason = JobStatusRunning) then Meta job else None in
          Ok {| pv_Name := name; pv_Annotations := annotations; pv_Status := pvs |}
      end end end
  end.

End helper_funcs.
End nomad.

(** ** lib/nethelper: the CIDR utility *)
Module nethelper.

(** An IPv4 address is the integer [0 ≤ a < 2^32] it denotes. *)
Definition parseOctet (s : string) : option Z :=
  match s with
  | EmptyString => None
  | _ =>
      match parse_digits 0 s with
      | Some n => if decide (n ≤ 255)%Z then Some n else None
      | None => None
      end
  end.

Definition parseIP (s : string) : option Z :=
  match Split s "." with
  | [a; b; c; d] =>
      match parseOctet a, parseOctet b, parseOctet c, parseOctet d with
      | Some a, Some b, Some c, Some d => Some (((a * 256 + b) * 256 + c) * 256 + d)%Z
      | _, _, _, _ => None
      end
  | _ => None
  end.

Definition formatIP (a : Z) : string :=
  Itoa (a / 2 ^ 24) +:+ "." +:+ Itoa (a / 2 ^ 16 mod 256) +:+ "."
    +:+ Itoa (a / 2 ^ 8 mod 256) +:+ "." +:+ Itoa (a mod 256).

Definition parsePrefixLen (s : string) : option Z :=
  match s with
  | EmptyString => None
  | _ =>
      match parse_digits 0 s with
      | Some n => if decide (n ≤ 32)%Z then Some n else None
      | None => None
      end
  end.

(** [a.b.c.d/p] as the pair of the address and the prefix length. *)
Definition parseCIDR (s : string) : option (Z * Z) :=
  match Split s "/" with
  | [ip; len] =>
      match parseIP ip, parsePrefixLen len with
      | Some a, Some p => Some (a, p)
      | _, _ => None
      end
  | _ => None
  end.

Definition hostBits (p : Z) : Z := 2 ^ (32 - p).
Definition networkOf (a p : Z) : Z := (a - a mod hostBits p)%Z.
Definition broadcastOf (a p : Z) : Z := (networkOf a p + hostBits p - 1)%Z.

(** The number of usable host addresses: the network and the broadcast
    address are left out. *)
Definition usableCount (p : Z) : Z := Z.max 0 (hostBits p - 2).

(** Modelled from the spec: [nethelper.CIDRSubnet] is not among the files
    under study. The subnet of a network CIDR is derived deterministically
    as the first subnet of its prefix length contained in the network, that
    is the network address with the same prefix length; an unparsable CIDR
    fails with [InvalidCIDR]. *)
Definition CIDRSubnet (cidr : string) : result string :=
  match parseCIDR cidr with
  | None => Err (InvalidCIDR cidr)
  | Some (a, p) => Ok (formatIP (networkOf a p) +:+ "/" +:+ Itoa p)
  end.

(** Modelled from the spec: [nethelper.GetAvailableIPs] is not among the
    files under study. Addresses are drawn in ascending order from the
    usable host range of the subnet, network and broadcast address
    excluded; fewer usable addresses than asked for fails with
    [AddressPoolExhausted], an unparsable CIDR with [InvalidCIDR]. *)
Definition GetAvailableIPs (cidr : string) (count : Z) : result (list string) :=
  match parseCIDR cidr with
  | None => Err (InvalidCIDR cidr)
  | Some (a, p) =>
      if decide (usableCount p < count)%Z then Err (AddressPoolExhausted cidr count)
      else Ok (formatIP <$> seqZ (networkOf a p + 1) count)
  end.

(** An address lies within a subnet given in CIDR notation. *)
Definition inSubnet (addr subnet : string) : bool :=
  match parseIP addr, parseCIDR subnet with
  | Some a, Some (n, p) => bool_decide (networkOf n p ≤ a ≤ broadcastOf n p)%Z
  | _, _ => false
  end.

(** An address is a usable host address of a subnet. *)
Definition usableIn (addr subnet : string) : bool :=
  match parseIP addr, parseCIDR subnet with
  | Some a, Some (n, p) => bool_decide (networkOf n p < a < broadcastOf n p)%Z
  | _, _ => false
  end.

End nethelper.

(** ** lib/volume/jiva/util.go *)
Module jiva.
Import nethelper.

(** *** The collaborators reached through the plugin aspect

    The orchestrator interfaces are declared in [lib/orchprovider] and
    [lib/volume]; only the methods that [util.go] calls are kept. A
    builder method returning [(iface, bool)] is an [option]. *)
Record StoragePlacements : Type := {
  StoragePropsReq : string → result (gmap string string);
  StoragePlacementReq : PersistentVolumeClaim → result PersistentVolume;
}.

Record NetworkPlacements : Type := {
  NetworkPropsReq : string → result (gmap string string);
}.

Record OrchestratorInterface : Type := {
  orch_Name : string;
  orch_Region : string;
  orch_NetworkPlacements : option NetworkPlacements;
  orch_StoragePlacements : option StoragePlacements;
}.

Record VolumePluginAspect : Type := {
  GetOrchProvider : result (option OrchestratorInterface);
  DefaultDatacenter : result string;
}.

Record jivaUtil : Type := {
  aspect : option VolumePluginAspect;
}.

(** *** Functions that update the claim in place

    A function taking [pvc *v1.PersistentVolumeClaim] and returning
    [(T, error)] is a state transformer over the claim: the claim keeps
    the updates made before an error is returned. *)
Definition M (A : Type) : Type :=
  PersistentVolumeClaim → result A * PersistentVolumeClaim.

Definition ret {A} (a : A) : M A := λ pvc, (Ok a, pvc).

Definition bind {A B} (m : M A) (f : A → M B) : M B :=
  λ pvc,
    match m pvc with
    | (Ok a, pvc') => f a pvc'
    | (Err e, pvc') => (Err e, pvc')
    | (Panic p, pvc') => (Panic p, pvc')
    end.

Definition lift {A} (r : result A) : M A := λ pvc, (r, pvc).
Definition fail {A} (msg : string) : M A := lift (Err (Errorf msg)).
Definition crash {A} (p : panic) : M A := lift (Panic p).

Notation "x <~ m ;; k" := (bind m (λ x, k))
  (at level 62, m at next level, right associativity).
Notation "m ;;; k" := (bind m (λ _, k))
  (at level 62, right associativity).

(** [pvc.Labels[k]] *)
Definition getLabel (k : string) : M string := λ pvc, (Ok (label pvc k), pvc).

(** [pvc.Labels[k] = v]: assignment to an entry of a nil map panics. *)
Definition setLabel (k v : string) : M unit :=
  λ pvc,
    match pvc_Labels pvc with
    | Some m => (Ok tt, set_Labels pvc (<[k := v]> m))
    | None => (Panic NilMapAssignment, pvc)
    end.

Definition labelsAreNil : M bool :=
  λ pvc, (Ok (bool_decide (pvc_Labels pvc = None)), pvc).

(** [pvc.Spec.Resources.Requests[k]]: the zero quantity when absent. *)
Definition getRequest (k : string) : M Quantity :=
  λ pvc,
    (Ok (match pvc_Requests pvc with
         | Some r => default 0%Z (r !! k)
         | None => 0%Z
         end), pvc).

Definition setRequest (k : string) (q : Quantity) : M unit :=
  λ pvc,
    match pvc_Requests pvc with
    | Some r => (Ok tt, set_Requests pvc (<[k := q]> r))
    | None => (Panic NilMapAssignment, pvc)
    end.

Section util.
Context `{K : LabelTable}.

(** NetworkProps tries to fetch networking details from its orchestrator *)
Definition NetworkProps (j : jivaUtil) (dc : string) : result (gmap string string) :=
  match aspect j with
  | None => Panic NilDereference
  | Some a =>
      match GetOrchProvider a with
      | Err e => Err e
      | Panic p => Panic p
      | Ok None => Panic NilDereference
      | Ok (Some orchestrator) =>
          match orch_NetworkPlacements orchestrator with
          | None =>
              Err (Errorf ("Network operations not supported by orchestrator '"
                           +:+ orch_Name orchestrator +:+ "'"))
          | Some networkOrchestrator => NetworkPropsReq networkOrchestrator dc
          end
      end
  end.

(** StorageProps tries to fetch persistent storage details from its
    orchestrator *)
Definition StorageProps (j : jivaUtil) (dc : string) : result (gmap string string) :=
  match aspect j with
  | None => Panic NilDereference
  | Some a =>
      match GetOrchProvider a with
      | Err e => Err e
      | Panic p => Panic p
      | Ok None => Panic NilDereference
      | Ok (Some orchestrator) =>
          match orch_StoragePlacements orchestrator with
          | None =>
              Err (Errorf ("Storage operations not supported by orchestrator '"
                           +:+ orch_Name orchestrator +:+ "'"))
          | Some storageOrchestrator => StoragePropsReq storageOrchestrator dc
          end
      end
  end.

(** initLabels initializes the Labels of a claim if not done so already. *)
Definition initLabels : M unit :=
  λ pvc,
    match pvc_Labels pvc with
    | Some _ => (Ok tt, pvc)
    | None => (Ok tt, set_Labels pvc ∅)
    end.

(** verifySpecs: the address of a struct field is never nil, so only the
    test of the Requests map can fail. *)
Definition verifySpecs : M unit :=
  λ pvc,
    match pvc_Requests pvc with
    | None => (Err (Errorf "Storage specs missing in pvc"), pvc)
    | Some _ => (Ok tt, pvc)
    end.

(** setJivaLblProps sets jiva specific properties with defaults if not
    done so already. *)
Definition setJivaLblProps : M unit :=
  isNil <~ labelsAreNil ;;
  if isNil : bool then fail "Labels missing in pvc" else
  image <~ getLabel JivaFrontEndImageLbl ;;
  if decide (image = EmptyString) then
    setLabel JivaFrontEndImageLbl "openebs/jiva:latest"
  else ret tt.

(** getStorageSize gets the size of the storage if it was specified in the
    claim; the pointer to the local copy is never nil. *)
Definition getStorageSize : M Quantity :=
  size <~ getRequest "storage" ;;
  if decide (Sign size ≤ 0)%Z then fail "Invalid storage size in pvc"
  else ret size.

(** setJivaSpecProps sets the front end and back end volume sizes with
    the storage size if not done so already. *)
Definition setJivaSpecProps : M unit :=
  feQuantity <~ getRequest JivaFrontEndVolSizeLbl ;;
  (if decide (Sign feQuantity ≤ 0)%Z then
     size <~ getStorageSize ;;
     setRequest JivaFrontEndVolSizeLbl size
   else ret tt) ;;;
  beQuantity <~ getRequest JivaBackEndVolSizeLbl ;;
  (if decide (Sign beQuantity ≤ 0)%Z then
     size <~ getStorageSize ;;
     setRequest JivaBackEndVolSizeLbl size
   else ret tt).

(** setRegion sets the region property of a claim if not done so already. *)
Definition setRegion (j : jivaUtil) : M unit :=
  isNil <~ labelsAreNil ;;
  if isNil : bool then fail "Persistent volume claim's labels not initialized" else
  current <~ getLabel RegionLbl ;;
  if decide (current ≠ EmptyString) then ret tt else
  match aspect j with
  | None => fail "Aspect missing while setting pvc region"
  | Some a =>
      o <~ lift (GetOrchProvider a) ;;
      match o with
      | None => fail "Orchestrator missing while setting pvc region"
      | Some o =>
          let region := orch_Region o in
          if decide (region = EmptyString) then fail "Region could not be determined"
          else setLabel RegionLbl region
      end
  end.

(** setDC sets the datacenter property of a claim if not done so already. *)
Definition setDC (j : jivaUtil) : M string :=
  isNil <~ labelsAreNil ;;
  if isNil : bool then fail "Persistent volume claim's labels not initialized" else
  current <~ getLabel DatacenterLbl ;;
  if decide (current ≠ EmptyString) then ret current else
  match aspect j with
  | None => crash NilDereference
  | Some a =>
      dc <~ lift (DefaultDatacenter a) ;;
      if decide (dc = EmptyString) then fail "Datacenter could not be determined"
      else setLabel DatacenterLbl dc ;;; ret dc
  end.

(** The loop [for k := range props] of [setCS] and [setCN]: a key of the
    orchestrator's defaults is copied when the claim has no value for it. *)
Definition fillLabels (props labels : gmap string string) : gmap string string :=
  map_fold (λ k v acc, if decide (get acc k = EmptyString) then <[k := v]> acc else acc)
           labels props.

Definition fillDefaults (props : gmap string string) : M unit :=
  λ pvc,
    match pvc_Labels pvc with
    | Some m => (Ok tt, set_Labels pvc (fillLabels props m))
    | None => if decide (props = ∅) then (Ok tt, pvc) else (Panic NilMapAssignment, pvc)
    end.

(** setCS sets the container storage properties in a claim if not done so
    already. *)
Definition setCS (j : jivaUtil) (dc : string) : M unit :=
  isNil <~ labelsAreNil ;;
  if isNil : bool then fail "Persistent volume claim's labels not initialized" else
  if decide (dc = EmptyString) then fail "Datacenter not provided" else
  cs <~ lift (StorageProps j dc) ;;
  fillDefaults cs.

(** getBackendCount fetches the backend count i.e. no of replicas *)
Definition getBackendCount : M Z :=
  beCount <~ getLabel CSReplicaCountLbl ;;
  lift (Atoi beCount).

(** setBackendIPsAsString sets the backend ips label with a comma
    separated list of IP addresses. *)
Definition setBackendIPsAsString (ips : list string) : M unit :=
  let strBEIPs := fold_left (λ acc ip, acc +:+ ip +:+ ",") ips EmptyString in
  setLabel JivaBackEndAllIPsLbl (TrimSuffix strBEIPs ",").

(** setBackendIPs sets the backend IPs when provided with a particular
    network range and claim. *)
Definition setBackendIPs (networkCIDR : string) : M unit :=
  iBECount <~ getBackendCount ;;
  ips <~ lift (GetAvailableIPs networkCIDR iBECount) ;;
  setBackendIPsAsString ips.

(** setCN sets the container networking properties in a claim if not done
    so already. *)
Definition setCN (j : jivaUtil) (dc : string) : M unit :=
  isNil <~ labelsAreNil ;;
  if isNil : bool then fail "Persistent volume claim's labels not initialized" else
  if decide (dc = EmptyString) then fail "Datacenter not provided" else
  cn <~ lift (NetworkProps j dc) ;;
  fillDefaults cn ;;;
  networkCIDR <~ getLabel CNNetworkCIDRAddrLbl ;;
  if decide (networkCIDR = EmptyString) then fail "Network CIDR could not be determined" else
  subnet <~ lift (CIDRSubnet networkCIDR) ;;
  setLabel CNSubnetLbl subnet ;;;
  feIP <~ getLabel JivaFrontEndIPLbl ;;
  beIPs <~ getLabel JivaBackEndAllIPsLbl ;;
  if decide (feIP = EmptyString ∧ beIPs = EmptyString) then
    (* Set the frontend IP and the backend IPs *)
    iBECount <~ getBackendCount ;;
    ips <~ lift (GetAvailableIPs networkCIDR (1 + iBECount)) ;;
    match ips with
    | [] => crash IndexOutOfRange
    | ip0 :: rest =>
        setLabel JivaFrontEndIPLbl ip0 ;;;
        setBackendIPsAsString rest
    end
  else if decide (feIP = EmptyString) then
    (* Set the frontend IP only *)
    ips <~ lift (GetAvailableIPs networkCIDR 1) ;;
    match ips with
    | [] => crash IndexOutOfRange
    | ip0 :: _ => setLabel JivaFrontEndIPLbl ip0
    end
  else if decide (beIPs = EmptyString) then
    (* Set the backend IPs only *)
    setBackendIPs networkCIDR
  else ret tt.

(** The resolution and allocation steps of [ProvisionStorage], in the
    order in which it runs them. *)
Definition resolveAndAllocate (j : jivaUtil) : M unit :=
  initLabels ;;;
  verifySpecs ;;;
  setJivaLblProps ;;;
  setJivaSpecProps ;;;
  setRegion j ;;;
  dc <~ setDC j ;;
  setCS j dc ;;;
  setCN j dc.

(** Provision tries to creates a jiva volume via an orchestrator *)
Definition ProvisionStorage (j : jivaUtil) : M PersistentVolume :=
  match aspect j with
  | None => crash NilDereference
  | Some a =>
      orchestrator <~ lift (GetOrchProvider a) ;;
      match orchestrator with
      | None => crash NilDereference
      | Some orchestrator =>
          match orch_StoragePlacements orchestrator with
          | None =>
              fail ("Storage operations not supported by orchestrator '"
                    +:+ orch_Name orchestrator +:+ "'")
          | Some storageOrchestrator =>
              resolveAndAllocate j ;;;
              (λ pvc, (StoragePlacementReq storageOrchestrator pvc, pvc))
          end
      end
  end.

(** newJivaUtil provides a orchestrator based infrastructure that supports
    jiva operations *)
Definition newJivaUtil (aspect : option VolumePluginAspect) : result jivaUtil :=
  match aspect with
  | None => Err (Errorf "Nil volume plugin aspect was provided")
  | Some a => Ok {| jiva.aspect := Some a |}
  end.

(** newJivaProUtil provides a new instance that can execute the
    provisioner's low level tasks; its aspect is left unset. *)
Definition newJivaProUtil : result jivaUtil := Ok {| jiva.aspect := None |}.

End util.
End jiva.

(** ** lib/orchprovider/nomad/util.go: the datacenter configuration *)
Module nomad_util.

Record DatacenterConf : Type := {
  Address : string;
  CNType : string;
  CNNetworkCIDR : string;
  CNInterface : string;
  CSPersistenceLocation : string;
  CSReplicaCount : string;
}.

(** [Datacenter map[string]*struct]: an absent key and a nil entry read
    alike, so only the present entries are kept. *)
Record NomadConfig : Type := {
  Datacenter : option (gmap string DatacenterConf);
}.

Record nomadUtil : Type := {
  nomadConf : option NomadConfig;
}.

Section util.
Context `{K : LabelTable}.

(** [m.nomadConf.Datacenter[dcName]] *)
Definition dcEntry (m : nomadUtil) (dcName : string) : result (option DatacenterConf) :=
  match nomadConf m with
  | None => Panic NilDereference
  | Some conf =>
      match Datacenter conf with
      | None => Ok None
      | Some dcs => Ok (dcs !! dcName)
      end
  end.

Definition validateConf (m : nomadUtil) (dcName : string) : result unit :=
  if decide (dcName = EmptyString) then Err (Errorf "DC name is empty") else
  match nomadConf m with
  | None => Err (Errorf "Nil nomad config provided")
  | Some conf =>
      match Datacenter conf with
      | None => Err (Errorf "DC not available in nomad config")
      | Some dcs =>
          match dcs !! dcName with
          | None => Err (Errorf ("No details available for dc '" +:+ dcName +:+ "'"))
          | Some _ => Ok tt
          end
      end
  end.

(** The shape shared by the getters: the default when the entry is there
    and the field is empty, the field otherwise (a nil entry panics). *)
Definition getOrDefault (m : nomadUtil) (dcName : string)
    (field : DatacenterConf → string) (dflt : string) : result string :=
  match dcEntry m dcName with
  | Err e => Err e
  | Panic p => Panic p
  | Ok (Some d) => if decide (field d = EmptyString) then Ok dflt else Ok (field d)
  | Ok None => Panic NilDereference
  end.

Definition getCNType (m : nomadUtil) (dcName : string) : result string :=
  getOrDefault m dcName CNType DefaultNomadCNType.

Definition getCNNetworkCIDR (m : nomadUtil) (dcName : string) : result string :=
  getOrDefault m dcName CNNetworkCIDR DefaultNomadCNNetworkCIDR.

Definition getCNInterface (m : nomadUtil) (dcName : string) : result string :=
  getOrDefault m dcName CNInterface DefaultNomadCNInterface.

Definition getCSPersistenceLocation (m : nomadUtil) (dcName : string) : result string :=
  getOrDefault m dcName CSPersistenceLocation DefaultNomadCSPersistenceLocation.

(** getCSReplicaCount returns the default no. of replicas as registered
    in the conf file *)
Definition getCSReplicaCount (m : nomadUtil) (dcName : string) : result string :=
  match dcEntry m dcName with
  | Err e => Err e
  | Panic p => Panic p
  | Ok None => Panic NilDereference
  | Ok (Some d) =>
      if decide (CSReplicaCount d = EmptyString) then Ok DefaultNomadCSReplicaCount else
      match Atoi (CSReplicaCount d) with
      | Panic p => Panic p
      | Err e =>
          Err (Wrapped ("Invalid replica count '" +:+ CSReplicaCount d +:+ "' provided.") e)
      | Ok repCount =>
          if decide (repCount = 0)%Z then Err (Errorf "Replica count can not be '0'")
          else Ok (CSReplicaCount d)
      end
  end.

(** CN provides the container networking data in key-value pairs. *)
Definition CN (m : nomadUtil) (dcName : string) : result (gmap string string) :=
  match validateConf m dcName with
  | Err e => Err e
  | Panic p => Panic p
  | Ok _ =>
      match getCNType m dcName, getCNNetworkCIDR m dcName, getCNInterface m dcName with
      | Ok ty, Ok cidr, Ok iface =>
          Ok (<[CNInterfaceLbl := iface]>
              (<[CNNetworkCIDRAddrLbl := cidr]>
              (<[CNTypeLbl := ty]> ∅)))
      | Err e, _, _ | Ok _, Err e, _ | Ok _, Ok _, Err e => Err e
      | Panic p, _, _ | Ok _, Panic p, _ | Ok _, Ok _, Panic p => Panic p
      end
  end.

(** CS provides the container storage options in key-value pairs. *)
Definition CS (m : nomadUtil) (dcName : string) : result (gmap string string) :=
  match validateConf m dcName with
  | Err e => Err e
  | Panic p => Panic p
  | Ok _ =>
      match getCSPersistenceLocation m dcName with
      | Err e => Err e
      | Panic p => Panic p
      | Ok persistLoc =>
          match getCSReplicaCount m dcName with
          | Err e => Err e
          | Panic p => Panic p
          | Ok repCount =>
              Ok (<[PVPReplicaCountLbl := repCount]>
                  (<[PVPPersistenceLocationLbl := persistLoc]> ∅))
          end
      end
  end.

End util.

(** *** The coordinates of the Nomad client: [Http]

    [api.Config] and [api.TLSConfig] belong to Nomad's api package; the
    fields that [Http] assigns are kept. *)
Record TLSConfig : Type := {
  CACert : string;
  CAPath : string;
  ClientCert : string;
  ClientKey : string;
  Insecure : bool;
}.

Record Config : Type := {
  cfg_Address : string;
  cfg_Region : string;
  cfg_TLSConfig : option TLSConfig;
}.

Definition set_Address (c : Config) (address : string) : Config :=
  {| cfg_Address := address; cfg_Region := cfg_Region c; cfg_TLSConfig := cfg_TLSConfig c |}.

Definition set_Region (c : Config) (region : string) : Config :=
  {| cfg_Address := cfg_Address c; cfg_Region := region; cfg_TLSConfig := cfg_TLSConfig c |}.

Definition set_TLSConfig (c : Config) (t : TLSConfig) : Config :=
  {| cfg_Address := cfg_Address c; cfg_Region := cfg_Region c; cfg_TLSConfig := Some t |}.

(** Names of environment variables used to supply the coordinates of a
    Nomad deployment *)
Definition EnvNomadAddress : string := "NOMAD_ADDR".
Definition EnvNomadRegion : string := "NOMAD_REGION".

(** The fields that the struct [nomadUtil] has next to [nomadConf]; of the
    functions of the file only [Http] reads them. *)
Record clientFields : Type := {
  region : string;
  datacenter : string;
  caCert : string;
  caPath : string;
  clientCert : string;
  clientKey : string;
  insecure : bool;
}.

(** newNomadUtil provides a new instance of nomadUtil: the configuration
    is set, every other field has its zero value. *)
Definition newNomadUtil (nConfig : option NomadConfig) : result (nomadUtil * clientFields) :=
  Ok ({| nomadConf := nConfig |},
      {| region := EmptyString; datacenter := EmptyString;
         caCert := EmptyString; caPath := EmptyString;
         clientCert := EmptyString; clientKey := EmptyString;
         insecure := false |}).

(** The configuration that [Http] builds and hands to [api.NewClient].
    [DefaultConfig] is the value of [api.DefaultConfig()], [env] the
    process environment ([os.LookupEnv] and [os.Getenv] give the empty
    string for an unset variable). The address logged on the way is read
    through the entry of the datacenter dc1 whether or not the log line is
    printed. *)
Definition clientConfig (DefaultConfig : Config) (env : gmap string string)
    (m : nomadUtil) (f : clientFields) : result Config :=
  let apiCConf := DefaultConfig in
  let val := get env EnvNomadAddress in
  let apiCConf := if decide (val ≠ EmptyString) then set_Address apiCConf val else apiCConf in
  let overridden :=
    match nomadConf m with
    | None => Ok apiCConf
    | Some conf =>
        match Datacenter conf with
        | None => Ok apiCConf
        | Some dcs =>
            match dcs !! "dc1" with
            | None => Panic NilDereference
            | Some d => Ok (set_Address apiCConf (Address d))
            end
        end
    end in
  match overridden with
  | Err e => Err e
  | Panic p => Panic p
  | Ok apiCConf =>
      if decide (cfg_Address apiCConf = EmptyString) then
        Err (Errorf "Nomad address is not set")
      else
        let v := get env EnvNomadRegion in
        let apiCConf := if decide (v ≠ EmptyString) then set_Region apiCConf v else apiCConf in
        let apiCConf :=
          if decide (region f ≠ EmptyString) then set_Region apiCConf (region f)
          else apiCConf in
        let apiCConf :=
          if decide (caCert f ≠ EmptyString ∨ caPath f ≠ EmptyString
                     ∨ clientCert f ≠ EmptyString ∨ clientKey f ≠ EmptyString
                     ∨ insecure f = true) then
            set_TLSConfig apiCConf
              {| CACert := caCert f; CAPath := caPath f;
                 ClientCert := clientCert f; ClientKey := clientKey f;
                 Insecure := insecure f |}
          else apiCConf in
        Ok apiCConf
  end.

(** Http initializes and returns a new API client capable of calling Nomad
    APIs; [NewClient] is [api.NewClient]. *)
Definition Http {Client : Type} (NewClient : Config → result Client)
    (DefaultConfig : Config) (env : gmap string string)
    (m : nomadUtil) (f : clientFields) : result Client :=
  match clientConfig DefaultConfig env m f with
  | Err e => Err e
  | Panic p => Panic p
  | Ok apiCConf => NewClient apiCConf
  end.

(** readNomadConfig reads an instance of NomadConfig from config reader;
    [ReadInto] is [gcfg.ReadInto] on a configuration that starts empty. *)
Definition readNomadConfig {Reader : Type} (ReadInto : Reader → result NomadConfig)
    (config : option Reader) : result NomadConfig :=
  match config with
  | None => Ok {| Datacenter := None |}
  | Some r =>
      match ReadInto r with
      | Err e => Err e
      | Panic p => Panic p
      | Ok nCfg => Ok nCfg
      end
  end.

End nomad_util.

(** ** The contract of the topology builder, in the words of the specification *)
Module Contract.
Section contract.
Context `{K : LabelTable}.

(** The required properties in the order in which the builder looks for
    them, each with the error that names it. *)
Definition requiredProperties : list (string * string) :=
  [ (OrchRegionLbl, "Missing region in pvc");
    (OrchDCLbl, "Missing datacenter in pvc");
    (PVPControllerImageLbl, "Missing controller image in pvc");
    (PVPControllerIPsLbl, "Missing controller IP(s) in pvc");
    (PVPReplicaIPsLbl, "Missing replica IPs in pvc");
    (CNTypeLbl, "Missing CN type in pvc");
    (CNSubnetLbl, "Missing CN subnet in pvc");
    (CNInterfaceLbl, "Missing CN interface in pvc");
    (PVPPersistenceLocationLbl, "Missing persistent location in pvc");
    (PVPStorageSizeLbl, "Missing storage size in pvc") ].

(** Every required property has a non-empty value. *)
Definition complete (labels : gmap string string) : Prop :=
  Forall (λ c, get labels c.1 ≠ EmptyString) requiredProperties.

(** The placement rule that keeps replicas on distinct hosts. *)
Definition distinctHosts : Constraint :=
  NewConstraint EmptyString "distinct_hosts" "true".

(** The metadata key of the backend with ordinal index [i]. *)
Definition backendIPKey (i : Z) : string := JivaBackEndIPPrefixLbl +:+ Itoa i.

(** The keys that the resolver of [util.go] reads and writes are pairwise
    different constants. *)
Definition resolverKeysDistinct : Prop :=
  NoDup [ JivaFrontEndImageLbl; RegionLbl; DatacenterLbl; CNNetworkCIDRAddrLbl;
          CNSubnetLbl; JivaFrontEndIPLbl; JivaBackEndAllIPsLbl; CSReplicaCountLbl ].

(** Every default on offer is settled on the claim: the claim has a value
    for the key, or it holds the default itself (which is then empty). *)
Definition settled (props labels : gmap string string) : Prop :=
  ∀ k v, props !! k = Some v → get labels k ≠ EmptyString ∨ labels !! k = Some v.

(** [pvc.Spec.Resources.Requests[k]]: the quantity requested under a key,
    the zero quantity when there is none. *)
Definition request (pvc : PersistentVolumeClaim) (k : string) : Quantity :=
  match pvc_Requests pvc with
  | Some r => default 0%Z (r !! k)
  | None => 0%Z
  end.

End contract.
End Contract.

(** ** Sample data: one table of label keys, one datacenter, a few claims *)
Module Samples.
Import nethelper jiva nomad_util nomad Contract.

(** One admissible choice of the label constants. *)
#[export] Instance sampleLabels : LabelTable := {|
  RegionLbl := "region.openebs.io";
  DatacenterLbl := "datacenter.openebs.io";
  OrchRegionLbl := "orchprovider.mapi.openebs.io/region";
  OrchDCLbl := "orchprovider.mapi.openebs.io/dc";
  CNTypeLbl := "cn.openebs.io/type";
  CNNetworkCIDRAddrLbl := "cn.openebs.io/network-cidr-addr";
  CNSubnetLbl := "cn.openebs.io/subnet";
  CNInterfaceLbl := "cn.openebs.io/interface";
  CSReplicaCountLbl := "cs.openebs.io/replica-count";
  PVPControllerImageLbl := "volumeprovisioner.mapi.openebs.io/controller-image";
  PVPControllerIPsLbl := "volumeprovisioner.mapi.openebs.io/controller-ips";
  PVPReplicaIPsLbl := "volumeprovisioner.mapi.openebs.io/replica-ips";
  PVPReplicaCountLbl := "volumeprovisioner.mapi.openebs.io/replica-count";
  PVPPersistenceLocationLbl := "volumeprovisioner.mapi.openebs.io/persistence-location";
  PVPStorageSizeLbl := "volumeprovisioner.mapi.openebs.io/storage-size";
  JivaISCSIPortDef := "3260";
  JivaIqnFormatPrefix := "iqn.2016-09.com.openebs.jiva";
  JivaFrontEndImageLbl := "fe.jiva.volume.openebs.io/image";
  JivaFrontEndIPLbl := "fe.jiva.volume.openebs.io/ip";
  JivaBackEndAllIPsLbl := "be.jiva.volume.openebs.io/all-ips";
  JivaBackEndIPPrefixLbl := "JIVA_REP_IP_";
  JivaFrontEndVolSizeLbl := "fe.jiva.volume.openebs.io/vol-size";
  JivaBackEndVolSizeLbl := "be.jiva.volume.openebs.io/vol-size";
  JivaTargetPortalLbl := "targetportal.jiva.volume.openebs.io";
  JivaIqnLbl := "iqn.jiva.volume.openebs.io";
  DefaultNomadCNType := "host";
  DefaultNomadCNNetworkCIDR := "172.28.128.1/24";
  DefaultNomadCNInterface := "enp0s8";
  DefaultNomadCSPersistenceLocation := "/tmp/";
  DefaultNomadCSReplicaCount := "2";
|}.

(** The datacenter of the sample configuration in [util.go]. *)
Definition dc1 : DatacenterConf :=
  {| Address := "http://20.0.0.2:4646";
     CNType := "host";
     CNNetworkCIDR := "10.0.0.0/24";
     CNInterface := "enp0s8";
     CSPersistenceLocation := "/tmp/";
     CSReplicaCount := "2" |}.

Definition sampleNomad : nomadUtil :=
  {| nomadConf := Some {| Datacenter := Some {[ "dc1" := dc1 ]} |} |}.

(** Modelled from the spec: the Nomad implementation of the orchestrator
    interface is not among the files under study. As the default-property
    source it answers a lookup for a datacenter with the configuration's
    values for that datacenter, and fails if the datacenter is unknown;
    submission answers with a volume named after the claim. *)
Definition sampleOrchestrator : OrchestratorInterface :=
  {| orch_Name := "nomad";
     orch_Region := "global";
     orch_NetworkPlacements := Some {| NetworkPropsReq := CN sampleNomad |};
     orch_StoragePlacements :=
       Some {| StoragePropsReq := CS sampleNomad;
               StoragePlacementReq := λ pvc,
                 Ok {| pv_Name := pvc_Name pvc;
                       pv_Annotations := None;
                       pv_Status := {| Message := EmptyString; Reason := EmptyString |} |} |} |}.

Definition sampleJiva : jivaUtil :=
  {| aspect := Some {| GetOrchProvider := Ok (Some sampleOrchestrator);
                       DefaultDatacenter := Ok "dc1" |} |}.

(** What that datacenter offers as network and as storage defaults. *)
Definition dc1NetworkProps : gmap string string :=
  list_to_map
    [ (CNTypeLbl, "host"); (CNNetworkCIDRAddrLbl, "10.0.0.0/24");
      (CNInterfaceLbl, "enp0s8") ].

Definition dc1StorageProps : gmap string string :=
  list_to_map
    [ (PVPPersistenceLocationLbl, "/tmp/"); (PVPReplicaCountLbl, "2") ].

Definition sampleRequests : gmap string Quantity :=
  list_to_map [ ("storage", 5368709120%Z) ].

Definition mkClaim (name : string) (labels : gmap string string)
  : PersistentVolumeClaim :=
  {| pvc_Name := name; pvc_Labels := Some labels; pvc_Requests := Some sampleRequests |}.

(** *** Claims for the resolver *)

(** A claim that names its network and its replica count and has no
    address yet. *)
Definition freshLabels : gmap string string :=
  list_to_map
    [ (CNNetworkCIDRAddrLbl, "10.0.0.0/24"); (CSReplicaCountLbl, "2") ].
Definition freshClaim : PersistentVolumeClaim := mkClaim "vol1" freshLabels.

(** The same claim with a frontend address only, and with a backend
    address list only. *)
Definition frontendOnlyLabels : gmap string string :=
  list_to_map
    [ (CNNetworkCIDRAddrLbl, "10.0.0.0/24"); (CSReplicaCountLbl, "2");
      (JivaFrontEndIPLbl, "10.0.0.9") ].
Definition frontendOnlyClaim : PersistentVolumeClaim :=
  mkClaim "vol1" frontendOnlyLabels.

Definition backendOnlyLabels : gmap string string :=
  list_to_map
    [ (CNNetworkCIDRAddrLbl, "10.0.0.0/24"); (CSReplicaCountLbl, "2");
      (JivaBackEndAllIPsLbl, "10.0.0.5,10.0.0.6") ].
Definition backendOnlyClaim : PersistentVolumeClaim :=
  mkClaim "vol1" backendOnlyLabels.

(** A claim whose frontend address is the first host of its network. *)
Definition firstHostClaim : PersistentVolumeClaim :=
  mkClaim "vol1" (list_to_map
    [ (CNNetworkCIDRAddrLbl, "10.0.0.0/24"); (CSReplicaCountLbl, "2");
      (JivaFrontEndIPLbl, "10.0.0.1") ]).

(** A claim that brings a subnet of its own. *)
Definition ownSubnetClaim : PersistentVolumeClaim :=
  mkClaim "vol1" (list_to_map
    [ (CNNetworkCIDRAddrLbl, "10.0.0.0/24"); (CNSubnetLbl, "192.168.0.0/16");
      (CSReplicaCountLbl, "2") ]).

(** A claim with one replica address for two replicas, under the keys of
    the resolver and under the keys of the builder. *)
Definition oneAddressForTwoClaim : PersistentVolumeClaim :=
  mkClaim "vol1" (list_to_map
    [ (CNNetworkCIDRAddrLbl, "10.0.0.0/24");
      (CSReplicaCountLbl, "2"); (PVPReplicaCountLbl, "2");
      (JivaBackEndAllIPsLbl, "10.0.0.5"); (PVPReplicaIPsLbl, "10.0.0.5") ]).

Definition resolvedRequests : gmap string Quantity :=
  list_to_map
    [ ("storage", 5368709120%Z);
      (JivaFrontEndVolSizeLbl, 5368709120%Z);
      (JivaBackEndVolSizeLbl, 5368709120%Z) ].

(** A claim with every property of the property set, and without the
    network CIDR from which the resolver derives the subnet. *)
Definition noNetworkCIDRClaim : PersistentVolumeClaim :=
  {| pvc_Name := "vol1";
     pvc_Labels := Some (list_to_map
       [ (RegionLbl, "global"); (DatacenterLbl, "dc1");
         (JivaFrontEndImageLbl, "openebs/jiva:latest");
         (JivaFrontEndIPLbl, "10.0.0.4");
         (JivaBackEndAllIPsLbl, "10.0.0.5,10.0.0.6");
         (CSReplicaCountLbl, "2"); (PVPReplicaCountLbl, "2");
         (CNTypeLbl, "host"); (CNSubnetLbl, "10.0.0.0/24");
         (CNInterfaceLbl, "enp0s8");
         (PVPPersistenceLocationLbl, "/tmp/") ]);
     pvc_Requests := Some resolvedRequests |}.

(** The same claim with the network CIDR and a subnet that is not the
    one derived from it. *)
Definition foreignSubnetClaim : PersistentVolumeClaim :=
  {| pvc_Name := "vol1";
     pvc_Labels := Some (list_to_map
       [ (RegionLbl, "global"); (DatacenterLbl, "dc1");
         (JivaFrontEndImageLbl, "openebs/jiva:latest");
         (JivaFrontEndIPLbl, "10.0.0.4");
         (JivaBackEndAllIPsLbl, "10.0.0.5,10.0.0.6");
         (CSReplicaCountLbl, "2"); (PVPReplicaCountLbl, "2");
         (CNTypeLbl, "host"); (CNNetworkCIDRAddrLbl, "10.0.0.0/24");
         (CNSubnetLbl, "10.0.0.0/16");
         (CNInterfaceLbl, "enp0s8");
         (PVPPersistenceLocationLbl, "/tmp/") ]);
     pvc_Requests := Some resolvedRequests |}.

(** A claim as resolution leaves it: every property set, the subnet the
    one derived from the network CIDR. *)
Definition resolvedLabels : gmap string string :=
  list_to_map
    [ (RegionLbl, "global"); (DatacenterLbl, "dc1");
      (JivaFrontEndImageLbl, "openebs/jiva:latest");
      (JivaFrontEndIPLbl, "10.0.0.1");
      (JivaBackEndAllIPsLbl, "10.0.0.2,10.0.0.3");
      (CSReplicaCountLbl, "2"); (PVPReplicaCountLbl, "2");
      (CNTypeLbl, "host"); (CNNetworkCIDRAddrLbl, "10.0.0.0/24");
      (CNSubnetLbl, "10.0.0.0/24");
      (CNInterfaceLbl, "enp0s8");
      (PVPPersistenceLocationLbl, "/tmp/") ].
Definition resolvedClaim : PersistentVolumeClaim :=
  {| pvc_Name := "vol1";
     pvc_Labels := Some resolvedLabels;
     pvc_Requests := Some resolvedRequests |}.

(** *** Claims for the builder *)

Definition builderPairs : list (string * string) :=
  [ (OrchRegionLbl, "global"); (OrchDCLbl, "dc1");
    (PVPControllerImageLbl, "openebs/jiva:latest");
    (PVPControllerIPsLbl, "10.0.0.4");
    (PVPReplicaIPsLbl, "10.0.0.5,10.0.0.6");
    (PVPReplicaCountLbl, "2");
    (CNTypeLbl, "host"); (CNSubnetLbl, "10.0.0.0/24"); (CNInterfaceLbl, "enp0s8");
    (PVPPersistenceLocationLbl, "/tmp/"); (PVPStorageSizeLbl, "5Gi") ].

(** The claim of the example: two replicas, two replica addresses. *)
Definition vol1Labels : gmap string string := list_to_map builderPairs.
Definition vol1 : PersistentVolumeClaim := mkClaim "vol1" vol1Labels.

(** The same claim without a controller image. *)
Definition vol1NoImageLabels : gmap string string :=
  delete PVPControllerImageLbl vol1Labels.
Definition vol1NoImage : PersistentVolumeClaim := mkClaim "vol1" vol1NoImageLabels.

(** The same claim without a replica count. *)
Definition vol1NoCount : PersistentVolumeClaim :=
  mkClaim "vol1" (delete PVPReplicaCountLbl vol1Labels).

(** The same claim with one replica address for its two replicas. *)
Definition vol1OneAddressLabels : gmap string string :=
  <[PVPReplicaIPsLbl := "10.0.0.5"]> vol1Labels.
Definition vol1OneAddress : PersistentVolumeClaim :=
  mkClaim "vol1" vol1OneAddressLabels.

(** *** Records for the status reconciler *)

Definition completeEval : Evaluation :=
  {| eval_Priority := 50;
     eval_Type := "service";
     TriggeredBy := "job-register";
     JobID := "vol1";
     eval_Status := "complete";
     eval_StatusDescription := "ok";
     BlockedEval := EmptyString |}.

Definition jobWithStatus (status : option string) : Job :=
  {| Region := Some "global";
     job_Name := Some "vol1";
     ID := Some "vol1";
     Datacenters := ["dc1"];
     Type_ := Some JobTypeService;
     Priority := Some 50%Z;
     job_Constraints := [];
     Meta := Some {[ "JIVA_REP_IP_0" := "10.0.0.5" ]};
     TaskGroups := [];
     Status := status;
     StatusDescription := Some EmptyString |}.

(** *** Data for the builder, the reconciler and the client *)

(** The job that the builder makes of the claim of the example. *)
Definition vol1Job : Job :=
  match PvcToJob (Some vol1) with
  | Ok job => job
  | _ => jobWithStatus None
  end.

(** The volume of a running job, of a complete evaluation, and of a claim
    that the sample orchestrator has accepted. *)
Definition runningVolume : PersistentVolume :=
  {| pv_Name := "vol1";
     pv_Annotations := Some {[ "JIVA_REP_IP_0" := "10.0.0.5" ]};
     pv_Status := {| Message := EmptyString; Reason := "running" |} |}.

Definition evalVolume : PersistentVolume :=
  match JobEvalToPv "vol1" (Some completeEval) with
  | Ok pv => pv
  | _ => runningVolume
  end.

Definition submittedVolume : PersistentVolume :=
  {| pv_Name := "vol1";
     pv_Annotations := None;
     pv_Status := {| Message := EmptyString; Reason := EmptyString |} |}.

(** A claim that brings no label at all. *)
Definition bareClaim : PersistentVolumeClaim := mkClaim "vol1" ∅.

(** A configuration whose only datacenter is not dc1. *)
Definition dc2Nomad : nomadUtil :=
  {| nomadConf := Some {| Datacenter := Some {[ "dc2" := dc1 ]} |} |}.

(** The default configuration of the api package, an environment that
    names an address, the fields of a utility as [newNomadUtil] leaves
    them, and the fields of a utility with a region and TLS settings. *)
Definition sampleDefaultConfig : Config :=
  {| cfg_Address := "http://127.0.0.1:4646";
     cfg_Region := EmptyString;
     cfg_TLSConfig := None |}.

Definition sampleEnv : gmap string string :=
  {[ "NOMAD_ADDR" := "http://10.0.0.9:4646" ]}.

Definition plainFields : clientFields :=
  {| region := EmptyString; datacenter := EmptyString;
     caCert := EmptyString; caPath := EmptyString;
     clientCert := EmptyString; clientKey := EmptyString;
     insecure := false |}.

Definition secureFields : clientFields :=
  {| region := "eu"; datacenter := EmptyString;
     caCert := "/etc/nomad/ca.pem"; caPath := EmptyString;
     clientCert := EmptyString; clientKey := EmptyString;
     insecure := false |}.

Definition secureClientConfig : Config :=
  {| cfg_Address := "http://20.0.0.2:4646";
     cfg_Region := "eu";
     cfg_TLSConfig :=
       Some {| CACert := "/etc/nomad/ca.pem"; CAPath := EmptyString;
               ClientCert := EmptyString; ClientKey := EmptyString;
               Insecure := false |} |}.

End Samples.

(** * Properties *)

(** ** Decimal numbers: [strconv.Itoa] and [strconv.Atoi] *)
Section decimal.

Lemma digit_val_pretty_N_char (d : N) :
  (d < 10)%N → digit_val (pretty_N_char d) = Some (Z.of_N d).
Proof.
  intros Hd.
  assert (d = 0 ∨ d = 1 ∨ d = 2 ∨ d = 3 ∨ d = 4 ∨ d = 5 ∨ d = 6 ∨ d = 7
          ∨ d = 8 ∨ d = 9)%N as Hcases by lia.
  repeat (destruct Hcases as [-> | Hcases]; [reflexivity|]). by subst.
Qed.

Lemma digit_val_bounds c d : digit_val c = Some d → (0 ≤ d ≤ 9)%Z.
Proof. unfold digit_val. case_decide; [|done]. intros [= <-]. lia. Qed.

(** Reading the digits that [pretty_N_go] puts in front of [s] multiplies
    the accumulator by a power of ten and adds the number printed. *)
Lemma parse_digits_pretty_N_go (x : N) :
  ∃ m : Z, ∀ s acc,
    parse_digits acc (pretty_N_go x s) = parse_digits (acc * m + Z.of_N x) s.
Proof.
  induction (N.lt_wf_0 x) as [x _ IH].
  destruct (decide (x = 0%N)) as [-> | Hx].
  - exists 1%Z. intros s acc. rewrite pretty_N_go_0. f_equal. lia.
  - destruct (IH (x `div` 10)%N) as [m Hm]; [apply N.div_lt; lia|].
    exists (10 * m)%Z. intros s acc.
    rewrite pretty_N_go_step by lia. rewrite Hm. simpl.
    rewrite digit_val_pretty_N_char by (apply N.mod_lt; lia).
    f_equal. rewrite (N.div_mod x 10) at 3 by lia.
    rewrite N2Z.inj_add, N2Z.inj_mul. simpl Z.of_N. lia.
Qed.

Lemma pretty_N_go_nonempty (x : N) : ∀ s, s ≠ EmptyString → pretty_N_go x s ≠ EmptyString.
Proof.
  induction (N.lt_wf_0 x) as [x _ IH]. intros s Hs.
  destruct (decide (x = 0%N)) as [-> | Hx]; [by rewrite pretty_N_go_0|].
  rewrite pretty_N_go_step by lia. apply IH; [apply N.div_lt; lia | done].
Qed.

Lemma pretty_N_nonempty (x : N) : pretty x ≠ EmptyString.
Proof.
  unfold pretty, pretty_N. case_decide; [done|].
  rewrite pretty_N_go_step by lia. by apply pretty_N_go_nonempty.
Qed.

Lemma parse_digits_pretty_N (x : N) : parse_digits 0 (pretty x) = Some (Z.of_N x).
Proof.
  unfold pretty, pretty_N. case_decide as Hx; [by subst|].
  destruct (parse_digits_pretty_N_go x) as [m Hm]. rewrite Hm. simpl. done.
Qed.

Lemma Itoa_of_N (z : Z) : (0 ≤ z)%Z → Itoa z = pretty (Z.to_N z).
Proof. intros Hz. by destruct z. Qed.

Lemma Itoa_nonempty (z : Z) : (0 ≤ z)%Z → Itoa z ≠ EmptyString.
Proof. intros Hz. rewrite Itoa_of_N by done. apply pretty_N_nonempty. Qed.

Lemma parse_digits_Itoa (z : Z) : (0 ≤ z)%Z → parse_digits 0 (Itoa z) = Some z.
Proof.
  intros Hz. rewrite Itoa_of_N by done. rewrite parse_digits_pretty_N. f_equal. lia.
Qed.

Lemma parse_digits_nonneg s : ∀ acc v,
  parse_digits acc s = Some v → (0 ≤ acc)%Z → (0 ≤ v)%Z.
Proof.
  induction s as [|c s IH]; intros acc v; simpl.
  - intros [= <-]. done.
  - destruct (digit_val c) as [d|] eqn:Hd; [|done].
    intros Hp Hacc. apply (IH _ _ Hp). apply digit_val_bounds in Hd. lia.
Qed.

Lemma parse_digits_allBytes s : ∀ acc,
  is_Some (parse_digits acc s) → allBytes isDigit s = true.
Proof.
  induction s as [|c s IH]; intros acc; simpl; [done|].
  unfold isDigit. destruct (digit_val c); [|by intros [? ?]].
  intros Hs. simpl. by eapply IH.
Qed.

Lemma Itoa_digits (z : Z) : (0 ≤ z)%Z → allBytes isDigit (Itoa z) = true.
Proof.
  intros Hz. apply (parse_digits_allBytes _ 0). rewrite parse_digits_Itoa by done. eauto.
Qed.

(** [Atoi] reads back what [Itoa] prints. *)
Lemma Atoi_Itoa (z : Z) : (0 ≤ z ≤ max_int)%Z → Atoi (Itoa z) = Ok z.
Proof.
  intros Hz. unfold Atoi.
  assert (Hd : allBytes isDigit (Itoa z) = true) by (apply Itoa_digits; lia).
  pose proof (Itoa_nonempty z ltac:(lia)) as Hne.
  pose proof (parse_digits_Itoa z ltac:(lia)) as Hp.
  destruct (Itoa z) as [|c s] eqn:Hs; [done|].
  assert (c ≠ "-"%char ∧ c ≠ "+"%char) as [Hm Hpl].
  { simpl in Hd. apply andb_prop in Hd as [Hc _]. split; intros ->; done. }
  destruct (decide (c = "-"%char)); [done|].
  destruct (decide (c = "+"%char)); [done|].
  assert ((match c with
           | "-"%char => (true, s)
           | "+"%char => (false, s)
           | _ => (false, String c s)
           end) = (false, String c s)) as ->.
  { destruct c as [[] [] [] [] [] [] [] []]; try reflexivity; done. }
  rewrite Hp. rewrite decide_True; [done|]. unfold min_int. lia.
Qed.

End decimal.

(** ** Reading and writing Go maps *)
Section maps.
Implicit Types (m : gmap string string) (k : string).

Lemma get_insert_eq m k v : get (<[k := v]> m) k = v.
Proof. unfold get. by rewrite lookup_insert_eq. Qed.

Lemma get_insert_ne m k k' v : k ≠ k' → get (<[k := v]> m) k' = get m k'.
Proof. intros. unfold get. by rewrite lookup_insert_ne. Qed.

Lemma get_nonempty_lookup m k : get m k ≠ EmptyString → m !! k = Some (get m k).
Proof. unfold get. destruct (m !! k); [done | simpl; congruence]. Qed.

Lemma get_lookup m k v : m !! k = Some v → get m k = v.
Proof. unfold get. by intros ->. Qed.
End maps.


(** ** Strings: [strings.Split], [strings.TrimSuffix], concatenation *)
Section strings.
Implicit Types (s t : string) (c sep : ascii).

Lemma app_nil_string t : EmptyString +:+ t = t.
Proof. reflexivity. Qed.

Lemma app_cons_string c s t : String c s +:+ t = String c (s +:+ t).
Proof. reflexivity. Qed.

Ltac string_simpl := rewrite ?app_cons_string, ?app_nil_string; simpl.

Lemma app_assoc_string s t u : (s +:+ t) +:+ u = s +:+ t +:+ u.
Proof. induction s as [|c s IH]; string_simpl; [done | by f_equal]. Qed.

Lemma app_length_string s t :
  String.length (s +:+ t) = (String.length s + String.length t)%nat.
Proof. induction s as [|c s IH]; string_simpl; [done | by f_equal]. Qed.

Lemma allBytes_app P s t : allBytes P (s +:+ t) = allBytes P s && allBytes P t.
Proof. induction s as [|c s IH]; string_simpl; [done | by rewrite IH, andb_assoc]. Qed.

Lemma allBytes_mono (P Q : ascii → bool) s :
  (∀ c, P c = true → Q c = true) → allBytes P s = true → allBytes Q s = true.
Proof.
  intros HPQ. induction s as [|c s IH]; simpl; [done|].
  intros [Hc Hs]%andb_prop. rewrite (HPQ _ Hc). by apply IH.
Qed.

(** A string in which the separator does not occur is a single field. *)
Lemma Split_single s sep : lacks sep s → Split s sep = [s].
Proof.
  unfold lacks. induction s as [|c s IH]; simpl; [done|].
  intros [Hc Hs]%andb_prop. apply bool_decide_eq_true in Hc.
  rewrite decide_False by done. by rewrite IH.
Qed.

(** The first field ends at the first separator. *)
Lemma Split_app s t sep :
  lacks sep s → Split (s +:+ String sep t) sep = s :: Split t sep.
Proof.
  unfold lacks. induction s as [|c s IH]; string_simpl.
  - intros _. by rewrite decide_True.
  - intros [Hc Hs]%andb_prop. apply bool_decide_eq_true in Hc.
    rewrite decide_False by done. by rewrite IH.
Qed.

Lemma Split_nonempty s sep : Split s sep ≠ [].
Proof.
  induction s as [|c s IH]; simpl; [done|].
  case_decide; [done|]. by destruct (Split s sep).
Qed.

Lemma TrimSuffix_app s suffix : TrimSuffix (s +:+ suffix) suffix = s.
Proof.
  induction s as [|c s IH]; string_simpl.
  - destruct suffix; simpl; [done | by rewrite decide_True].
  - rewrite decide_False; [by rewrite IH|].
    intros Heq. apply (f_equal String.length) in Heq.
    simpl in Heq. rewrite app_length_string in Heq. lia.
Qed.

Lemma TrimSuffix_empty suffix : TrimSuffix EmptyString suffix = EmptyString.
Proof. simpl. by case_decide. Qed.

(** The accumulator of the concatenation loop can be taken out. *)
Lemma concat_loop_acc (ips : list string) : ∀ acc,
  fold_left (λ acc ip, acc +:+ ip +:+ ",") ips acc
  = acc +:+ fold_left (λ acc ip, acc +:+ ip +:+ ",") ips EmptyString.
Proof.
  induction ips as [|ip ips IH]; intros acc; simpl.
  - induction acc as [|c acc IHacc]; string_simpl; [done | by rewrite <- IHacc].
  - rewrite (IH (acc +:+ _)), (IH (EmptyString +:+ _)).
    by rewrite app_nil_string, !app_assoc_string.
Qed.

(** The loop of [setBackendIPsAsString] followed by the removal of the
    trailing comma joins the addresses with commas. *)
Lemma concat_loop_Join (ips : list string) :
  TrimSuffix (fold_left (λ acc ip, acc +:+ ip +:+ ",") ips EmptyString) ","
  = Join ips ",".
Proof.
  destruct ips as [|ip ips]; [apply TrimSuffix_empty|].
  assert (fold_left (λ acc ip, acc +:+ ip +:+ ",") (ip :: ips) EmptyString
          = Join (ip :: ips) "," +:+ ",") as ->; [|apply TrimSuffix_app].
  revert ip. induction ips as [|ip' ips IH]; intros ip; [done|].
  change (fold_left _ (ip :: ip' :: ips) EmptyString)
    with (fold_left (λ acc ip, acc +:+ ip +:+ ",") (ip' :: ips) (ip +:+ ",")).
  rewrite concat_loop_acc, IH.
  change (Join (ip :: ip' :: ips) ",") with (ip +:+ "," +:+ Join (ip' :: ips) ",").
  by rewrite !app_assoc_string.
Qed.

Lemma Join_nonempty (ips : list string) ip :
  ip ∈ ips → ip ≠ EmptyString → Join ips "," ≠ EmptyString.
Proof.
  destruct ips as [|x ips]; [by intros ?%elem_of_nil|].
  intros Hin Hne. destruct ips as [|y ips].
  - apply list_elem_of_singleton in Hin. by subst.
  - change (Join (x :: y :: ips) ",") with (x +:+ "," +:+ Join (y :: ips) ",").
    destruct x; string_simpl; done.
Qed.

End strings.

(** ** The CIDR utility *)
Section cidr.
Import nethelper.

Lemma lacks_app sep s t : lacks sep s → lacks sep t → lacks sep (s +:+ t).
Proof. unfold lacks. rewrite allBytes_app. by intros -> ->. Qed.

Lemma lacks_Itoa sep z : digit_val sep = None → (0 ≤ z)%Z → lacks sep (Itoa z).
Proof.
  intros Hsep Hz. eapply allBytes_mono; [|by apply Itoa_digits].
  intros c Hc. apply bool_decide_eq_true. intros ->.
  unfold isDigit in Hc. by rewrite Hsep in Hc.
Qed.

Lemma lacks_sep_cons c sep s : c ≠ sep → lacks sep s → lacks sep (String c s).
Proof. unfold lacks. simpl. intros Hc ->. by rewrite bool_decide_eq_true_2. Qed.

Lemma octets (a : Z) :
  (0 ≤ a < 2 ^ 32)%Z →
  (0 ≤ a / 2 ^ 24 ≤ 255)%Z ∧ (0 ≤ a / 2 ^ 16 mod 256 ≤ 255)%Z
  ∧ (0 ≤ a / 2 ^ 8 mod 256 ≤ 255)%Z ∧ (0 ≤ a mod 256 ≤ 255)%Z
  ∧ (((a / 2 ^ 24 * 256 + a / 2 ^ 16 mod 256) * 256 + a / 2 ^ 8 mod 256) * 256
     + a mod 256 = a)%Z.
Proof.
  intros Ha.
  change (2 ^ 24)%Z with (256 * 256 * 256)%Z.
  change (2 ^ 16)%Z with (256 * 256)%Z. change (2 ^ 8)%Z with 256%Z.
  change (2 ^ 32)%Z with (256 * 256 * 256 * 256)%Z in Ha.
  rewrite <- !Z.div_div by lia.
  pose proof (Z.div_mod a 256 ltac:(lia)) as H1.
  pose proof (Z.div_mod (a / 256) 256 ltac:(lia)) as H2.
  pose proof (Z.div_mod (a / 256 / 256) 256 ltac:(lia)) as H3.
  pose proof (Z.mod_pos_bound a 256 ltac:(lia)).
  pose proof (Z.mod_pos_bound (a / 256) 256 ltac:(lia)).
  pose proof (Z.mod_pos_bound (a / 256 / 256) 256 ltac:(lia)).
  assert (0 ≤ a / 256 / 256 / 256 ≤ 255)%Z.
  { split; [repeat apply Z.div_pos; lia|].
    assert (a / 256 / 256 / 256 < 256)%Z; [|lia].
    repeat (apply Z.div_lt_upper_bound; [lia|]). lia. }
  lia.
Qed.

Lemma parseOctet_Itoa (o : Z) : (0 ≤ o ≤ 255)%Z → parseOctet (Itoa o) = Some o.
Proof.
  intros Ho. unfold parseOctet.
  pose proof (Itoa_nonempty o ltac:(lia)). rewrite parse_digits_Itoa by lia.
  rewrite decide_True by lia. by destruct (Itoa o).
Qed.

Lemma parsePrefixLen_Itoa (p : Z) : (0 ≤ p ≤ 32)%Z → parsePrefixLen (Itoa p) = Some p.
Proof.
  intros Hp. unfold parsePrefixLen.
  pose proof (Itoa_nonempty p ltac:(lia)). rewrite parse_digits_Itoa by lia.
  rewrite decide_True by lia. by destruct (Itoa p).
Qed.

Lemma formatIP_lacks sep a :
  digit_val sep = None → sep ≠ "."%char → (0 ≤ a < 2 ^ 32)%Z → lacks sep (formatIP a).
Proof.
  intros Hsep Hdot Ha. destruct (octets a Ha) as (? & ? & ? & ? & _).
  unfold formatIP. change ("." +:+ ?t) with (String "." t).
  repeat first [ apply lacks_Itoa; [done | lia]
               | apply lacks_sep_cons; [congruence|]
               | apply lacks_app ].
Qed.

(** An address is read back from its dotted-quad form. *)
Lemma parseIP_formatIP (a : Z) : (0 ≤ a < 2 ^ 32)%Z → parseIP (formatIP a) = Some a.
Proof.
  intros Ha. destruct (octets a Ha) as (H1 & H2 & H3 & H4 & Hsum).
  unfold parseIP.
  change (formatIP a) with
    (Itoa (a / 2 ^ 24) +:+ String "." (Itoa (a / 2 ^ 16 mod 256) +:+
       String "." (Itoa (a / 2 ^ 8 mod 256) +:+ String "." (Itoa (a mod 256))))).
  rewrite (Split_app (Itoa (a / 2 ^ 24))) by (apply lacks_Itoa; [done | lia]).
  rewrite (Split_app (Itoa (a / 2 ^ 16 mod 256))) by (apply lacks_Itoa; [done | lia]).
  rewrite (Split_app (Itoa (a / 2 ^ 8 mod 256))) by (apply lacks_Itoa; [done | lia]).
  rewrite Split_single by (apply lacks_Itoa; [done | lia]).
  rewrite !parseOctet_Itoa by lia. by rewrite Hsum.
Qed.

Lemma formatIP_inj (a b : Z) :
  (0 ≤ a < 2 ^ 32)%Z → (0 ≤ b < 2 ^ 32)%Z → formatIP a = formatIP b → a = b.
Proof.
  intros Ha Hb Heq. apply (f_equal parseIP) in Heq.
  rewrite !parseIP_formatIP in Heq by done. by injection Heq.
Qed.

Lemma formatIP_nonempty (a : Z) : (0 ≤ a < 2 ^ 32)%Z → formatIP a ≠ EmptyString.
Proof.
  intros Ha Heq. apply (f_equal parseIP) in Heq.
  by rewrite parseIP_formatIP in Heq.
Qed.

Lemma parseOctet_bounds s o : parseOctet s = Some o → (0 ≤ o ≤ 255)%Z.
Proof.
  unfold parseOctet. destruct s; [done|].
  destruct (parse_digits 0 _) as [n|] eqn:Hp; [|done].
  case_decide; [|done]. intros [= <-].
  split; [by eapply parse_digits_nonneg | done].
Qed.

Lemma parseIP_bounds s a : parseIP s = Some a → (0 ≤ a < 2 ^ 32)%Z.
Proof.
  unfold parseIP. destruct (Split s ".") as [|s1 [|s2 [|s3 [|s4 [|]]]]]; try done.
  destruct (parseOctet s1) as [o1|] eqn:H1; [|done].
  destruct (parseOctet s2) as [o2|] eqn:H2; [|done].
  destruct (parseOctet s3) as [o3|] eqn:H3; [|done].
  destruct (parseOctet s4) as [o4|] eqn:H4; [|done].
  intros [= <-].
  apply parseOctet_bounds in H1, H2, H3, H4.
  change (2 ^ 32)%Z with (256 * 256 * 256 * 256)%Z. nia.
Qed.

Lemma parsePrefixLen_bounds s p : parsePrefixLen s = Some p → (0 ≤ p ≤ 32)%Z.
Proof.
  unfold parsePrefixLen. destruct s; [done|].
  destruct (parse_digits 0 _) as [n|] eqn:Hp; [|done].
  case_decide; [|done]. intros [= <-].
  split; [by eapply parse_digits_nonneg | done].
Qed.

Lemma parseCIDR_bounds s a p :
  parseCIDR s = Some (a, p) → (0 ≤ a < 2 ^ 32)%Z ∧ (0 ≤ p ≤ 32)%Z.
Proof.
  unfold parseCIDR. destruct (Split s "/") as [|s1 [|s2 [|]]]; try done.
  destruct (parseIP s1) as [a'|] eqn:Ha; [|done].
  destruct (parsePrefixLen s2) as [p'|] eqn:Hp; [|done].
  intros [= <- <-]. split; [by eapply parseIP_bounds | by eapply parsePrefixLen_bounds].
Qed.

Lemma hostBits_pos p : (0 ≤ p ≤ 32)%Z → (0 < hostBits p)%Z.
Proof. intros Hp. unfold hostBits. apply Z.pow_pos_nonneg; lia. Qed.

(** The network address and the broadcast address of an address are
    addresses, and the address lies between them. *)
Lemma network_bounds a p :
  (0 ≤ a < 2 ^ 32)%Z → (0 ≤ p ≤ 32)%Z →
  (0 ≤ networkOf a p ≤ a)%Z ∧ (a ≤ broadcastOf a p < 2 ^ 32)%Z.
Proof.
  intros Ha Hp. unfold broadcastOf, networkOf.
  pose proof (hostBits_pos p Hp) as Hh.
  pose proof (Z.mod_pos_bound a (hostBits p) Hh) as Hm.
  pose proof (Z.div_mod a (hostBits p) ltac:(lia)) as Hd.
  assert (2 ^ 32 = hostBits p * 2 ^ p)%Z as Hpow.
  { unfold hostBits. rewrite <- Z.pow_add_r by lia. f_equal. lia. }
  assert (a / hostBits p < 2 ^ p)%Z as Hq.
  { apply Z.div_lt_upper_bound; [done|]. lia. }
  assert (0 ≤ a / hostBits p)%Z as Hq0 by (apply Z.div_pos; lia).
  pose proof (Z.mul_nonneg_nonneg _ _ (Z.lt_le_incl _ _ Hh) Hq0) as Hmul.
  assert (hostBits p * (a / hostBits p + 1) ≤ hostBits p * 2 ^ p)%Z as Hup.
  { apply Z.mul_le_mono_nonneg_l; lia. }
  lia.
Qed.

Lemma networkOf_idem a p :
  (0 ≤ p ≤ 32)%Z → networkOf (networkOf a p) p = networkOf a p.
Proof.
  intros Hp. unfold networkOf. pose proof (hostBits_pos p Hp) as Hh.
  assert ((a - a mod hostBits p) mod hostBits p = 0)%Z as ->; [|lia].
  rewrite Zminus_mod_idemp_r. rewrite Z.sub_diag. by apply Z.mod_0_l, Z.neq_sym, Z.lt_neq.
Qed.

(** The text of a network and a prefix length is read back as written. *)
Lemma parseCIDR_format a p :
  (0 ≤ a < 2 ^ 32)%Z → (0 ≤ p ≤ 32)%Z →
  parseCIDR (formatIP a +:+ "/" +:+ Itoa p) = Some (a, p).
Proof.
  intros Ha Hp. unfold parseCIDR.
  change (formatIP a +:+ "/" +:+ Itoa p) with (formatIP a +:+ String "/" (Itoa p)).
  rewrite (Split_app (formatIP a)) by (by apply formatIP_lacks).
  rewrite Split_single by (apply lacks_Itoa; [done | lia]).
  by rewrite parseIP_formatIP, parsePrefixLen_Itoa.
Qed.

End cidr.

(** ** The allocator *)
Section allocator.
Import nethelper.

Lemma CIDRSubnet_ok cidr a p :
  parseCIDR cidr = Some (a, p) →
  CIDRSubnet cidr = Ok (formatIP (networkOf a p) +:+ "/" +:+ Itoa p).
Proof. intros H. unfold CIDRSubnet. by rewrite H. Qed.

Lemma CIDRSubnet_inv cidr subnet :
  CIDRSubnet cidr = Ok subnet →
  ∃ a p, parseCIDR cidr = Some (a, p)
         ∧ subnet = formatIP (networkOf a p) +:+ "/" +:+ Itoa p.
Proof.
  unfold CIDRSubnet. destruct (parseCIDR cidr) as [[a p]|]; [|done].
  intros [= <-]. by exists a, p.
Qed.

(** The derived subnet is the text of the network of the CIDR. *)
Lemma parseCIDR_subnet cidr a p :
  parseCIDR cidr = Some (a, p) →
  parseCIDR (formatIP (networkOf a p) +:+ "/" +:+ Itoa p) = Some (networkOf a p, p).
Proof.
  intros [Ha Hp]%parseCIDR_bounds. apply parseCIDR_format; [|done].
  pose proof (network_bounds a p Ha Hp). lia.
Qed.

Lemma subnet_nonempty a p : formatIP a +:+ "/" +:+ Itoa p ≠ EmptyString.
Proof.
  intros Heq. apply (f_equal String.length) in Heq.
  rewrite app_length_string in Heq. simpl in Heq. lia.
Qed.

Lemma parseCIDR_nonempty cidr a p : parseCIDR cidr = Some (a, p) → cidr ≠ EmptyString.
Proof. by intros H ->. Qed.

(** The contract of the allocator: as many addresses as asked for, in
    ascending order, pairwise different, each a usable host address of
    the subnet derived from the CIDR. *)
Lemma GetAvailableIPs_spec cidr a p count :
  parseCIDR cidr = Some (a, p) → (count ≤ usableCount p)%Z →
  ∃ ips,
    GetAvailableIPs cidr count = Ok ips
    ∧ ips = formatIP <$> seqZ (networkOf a p + 1) count
    ∧ length ips = Z.to_nat count
    ∧ NoDup ips
    ∧ Forall (λ ip, usableIn ip (formatIP (networkOf a p) +:+ "/" +:+ Itoa p) = true
                    ∧ inSubnet ip (formatIP (networkOf a p) +:+ "/" +:+ Itoa p) = true
                    ∧ ip ≠ EmptyString ∧ lacks "," ip) ips.
Proof.
  intros Hparse Hcount. pose proof (parseCIDR_bounds _ _ _ Hparse) as [Ha Hp].
  pose proof (network_bounds a p Ha Hp) as [Hn Hb].
  pose proof (hostBits_pos p Hp) as Hh.
  assert (∀ x, x ∈ seqZ (networkOf a p + 1) count →
               (networkOf a p < x < broadcastOf a p)%Z) as Hrange.
  { intros x Hx%elem_of_seqZ. unfold broadcastOf, usableCount in *. lia. }
  exists (formatIP <$> seqZ (networkOf a p + 1) count).
  unfold GetAvailableIPs. rewrite Hparse. rewrite decide_False by lia.
  split_and!; [done | done | by rewrite length_fmap, length_seqZ | |].
  - apply NoDup_fmap_2_strong; [|apply NoDup_seqZ].
    intros x y Hx%Hrange Hy%Hrange. apply formatIP_inj; lia.
  - apply Forall_fmap, Forall_forall. intros x Hx%Hrange. simpl.
    assert (0 ≤ x < 2 ^ 32)%Z as Hx32 by lia.
    unfold usableIn, inSubnet.
    rewrite parseIP_formatIP by done. rewrite (parseCIDR_subnet _ _ _ Hparse).
    unfold broadcastOf in *. rewrite networkOf_idem by done.
    split_and!.
    + apply bool_decide_eq_true. lia.
    + apply bool_decide_eq_true. lia.
    + by apply formatIP_nonempty.
    + by apply formatIP_lacks.
Qed.

Lemma GetAvailableIPs_exhausted cidr a p count :
  parseCIDR cidr = Some (a, p) → (usableCount p < count)%Z →
  GetAvailableIPs cidr count = Err (AddressPoolExhausted cidr count).
Proof.
  intros Hparse Hcount. unfold GetAvailableIPs. rewrite Hparse. by rewrite decide_True.
Qed.

(** Splitting the comma-separated list of addresses gives the addresses. *)
Lemma Split_Join (ips : list string) :
  ips ≠ [] → Forall (lacks ",") ips → Split (Join ips ",") "," = ips.
Proof.
  intros Hne Hall. induction Hall as [|ip ips Hip Hall IH]; [done|].
  destruct ips as [|ip' ips]; [by apply Split_single|].
  change (Join (ip :: ip' :: ips) ",") with (ip +:+ String "," (Join (ip' :: ips) ",")).
  rewrite Split_app by done. by rewrite IH.
Qed.

End allocator.

(** ** The topology builder *)
Section builder.
Context `{K : LabelTable}.
Import nomad Contract.

Lemma backendIPKey_inj : Inj (=) (=) backendIPKey.
Proof.
  intros i j Heq. unfold backendIPKey, Itoa in Heq.
  apply (inj (String.app _)) in Heq. by apply (inj pretty) in Heq.
Qed.

(** The loop of [setBEIPs] runs to its end when the array is long enough,
    writes the entry of every index it visits into both maps and leaves
    every other key alone. *)
Lemma setBEIPs_loop_spec n : ∀ i arr beEnv jobMeta,
  (0 ≤ i)%Z → (Z.to_nat i + n ≤ length arr)%nat →
  ∃ beEnv' jobMeta',
    setBEIPs_loop n i arr beEnv jobMeta = Ok (beEnv', jobMeta')
    ∧ (∀ j, (i ≤ j < i + Z.of_nat n)%Z →
         jobMeta' !! backendIPKey j = arr !! Z.to_nat j
         ∧ beEnv' !! backendIPKey j = arr !! Z.to_nat j)
    ∧ (∀ k, (∀ j, (i ≤ j < i + Z.of_nat n)%Z → k ≠ backendIPKey j) →
         jobMeta' !! k = jobMeta !! k ∧ beEnv' !! k = beEnv !! k).
Proof.
  induction n as [|n IH]; intros i arr beEnv jobMeta Hi Hlen.
  - exists beEnv, jobMeta. split_and!; [done | intros; lia | done].
  - simpl. destruct (lookup_lt_is_Some_2 arr (Z.to_nat i)) as [v Hv]; [lia|].
    rewrite Hv.
    destruct (IH (i + 1)%Z arr (<[backendIPKey i := v]> beEnv)
                (<[backendIPKey i := v]> jobMeta)) as (e' & m' & Hrun & Hin & Hout);
      [lia | lia |].
    exists e', m'. split; [exact Hrun|]. split.
    + intros j Hj. destruct (decide (j = i)) as [->|Hne].
      * destruct (Hout (backendIPKey i)) as [-> ->].
        { intros j Hj' Heq. apply backendIPKey_inj in Heq. lia. }
        by rewrite !lookup_insert_eq.
      * apply Hin. lia.
    + intros k Hk. destruct (Hout k) as [-> ->].
      { intros j Hj. apply Hk. lia. }
      rewrite !lookup_insert_ne; [done | |]; apply not_eq_sym, Hk; lia.
Qed.

Lemma setBEIPs_spec beEnv jobMeta arr r :
  r ≠ 0%Z → Z.of_nat (length arr) = r →
  ∃ beEnv' jobMeta',
    setBEIPs beEnv jobMeta arr r = Ok (beEnv', jobMeta')
    ∧ ∀ j, (0 ≤ j < r)%Z → jobMeta' !! backendIPKey j = arr !! Z.to_nat j.
Proof.
  intros Hr Hlen. unfold setBEIPs.
  rewrite decide_False by done. rewrite decide_False by (intros ?; done).
  destruct (setBEIPs_loop_spec (Z.to_nat r) 0 arr beEnv
              (<[PVPReplicaCountLbl := Itoa r]> jobMeta)) as (e' & m' & Hrun & Hin & _);
    [lia | lia |].
  exists e', m'. split; [exact Hrun|]. intros j Hj. apply Hin. lia.
Qed.

Lemma setBEIPs_mismatch beEnv jobMeta arr r :
  r ≠ 0%Z → Z.of_nat (length arr) ≠ r →
  setBEIPs beEnv jobMeta arr r =
    Err (Errorf ("Replica IP count '" +:+ Itoa (Z.of_nat (length arr))
                 +:+ "' does not match replica count '" +:+ Itoa r +:+ "'")).
Proof.
  intros Hr Hlen. unfold setBEIPs.
  rewrite decide_False by done. by rewrite decide_True.
Qed.

(** A complete claim passes the ten emptiness tests of the builder. *)
Lemma complete_elim labels :
  complete labels →
  get labels OrchRegionLbl ≠ EmptyString ∧ get labels OrchDCLbl ≠ EmptyString
  ∧ get labels PVPControllerImageLbl ≠ EmptyString
  ∧ get labels PVPControllerIPsLbl ≠ EmptyString
  ∧ get labels PVPReplicaIPsLbl ≠ EmptyString
  ∧ get labels CNTypeLbl ≠ EmptyString ∧ get labels CNSubnetLbl ≠ EmptyString
  ∧ get labels CNInterfaceLbl ≠ EmptyString
  ∧ get labels PVPPersistenceLocationLbl ≠ EmptyString
  ∧ get labels PVPStorageSizeLbl ≠ EmptyString.
Proof.
  unfold complete, requiredProperties. intros H.
  repeat (apply Forall_cons_1 in H as [? H]). simpl in *. by split_and!.
Qed.

Ltac pass_required_checks Hname Hlabels Hcomplete :=
  unfold PvcToJob; cbv zeta;
  rewrite (decide_False (P := _ = EmptyString)) by exact Hname;
  rewrite Hlabels;
  destruct (complete_elim _ Hcomplete)
    as (? & ? & ? & ? & ? & ? & ? & ? & ? & ?);
  rewrite !(decide_False (P := get _ _ = EmptyString)) by assumption.

(** The builder on a complete claim: the job it returns has the frontend
    group of one instance, the backend group of [r] instances kept on
    distinct hosts, and a metadata entry for each backend index. *)
Lemma PvcToJob_complete pvc labels r :
  pvc_Name pvc ≠ EmptyString → pvc_Labels pvc = Some labels → complete labels →
  Atoi (get labels PVPReplicaCountLbl) = Ok r → r ≠ 0%Z →
  Z.of_nat (length (Split (get labels PVPReplicaIPsLbl) ",")) = r →
  ∃ job fe be meta,
    PvcToJob (Some pvc) = Ok job
    ∧ TaskGroups job = [fe; be]
    ∧ Count fe = Some 1%Z ∧ tg_Constraints fe = []
    ∧ Count be = Some r ∧ tg_Constraints be = [distinctHosts]
    ∧ Meta job = Some meta
    ∧ ∀ i, (0 ≤ i < r)%Z →
        meta !! backendIPKey i = Split (get labels PVPReplicaIPsLbl) "," !! Z.to_nat i.
Proof.
  intros Hname Hlabels Hcomplete Hcount Hr Hlen.
  pass_required_checks Hname Hlabels Hcomplete.
  rewrite Hcount.
  match goal with
  | |- context [setBEIPs ?e ?m ?a r] =>
      destruct (setBEIPs_spec e m a r Hr Hlen) as (beEnv' & jobMeta' & Hrun & Hmeta)
  end.
  rewrite Hrun.
  eexists _, _, _, jobMeta'. split; [reflexivity|]. simpl. by split_and!.
Qed.

(** C2, as the code has it. The comparison of the number of replica
    addresses with the replica count belongs to the topology builder: on
    a claim that passes the emptiness tests and whose replica count is a
    non-zero integer different from the number of comma-separated replica
    addresses, the builder fails with the error that reports the two
    numbers, and no job is built. *)
Theorem PvcToJob_replica_ip_count_mismatch pvc labels r :
  pvc_Name pvc ≠ EmptyString → pvc_Labels pvc = Some labels → complete labels →
  Atoi (get labels PVPReplicaCountLbl) = Ok r → r ≠ 0%Z →
  Z.of_nat (length (Split (get labels PVPReplicaIPsLbl) ",")) ≠ r →
  PvcToJob (Some pvc) =
    Err (Errorf ("Replica IP count '"
                 +:+ Itoa (Z.of_nat (length (Split (get labels PVPReplicaIPsLbl) ",")))
                 +:+ "' does not match replica count '" +:+ Itoa r +:+ "'")).
Proof.
  intros Hname Hlabels Hcomplete Hcount Hr Hlen.
  pass_required_checks Hname Hlabels Hcomplete.
  rewrite Hcount. by rewrite setBEIPs_mismatch.
Qed.

(** C5. On a complete claim with replica count 2 and two comma-separated
    replica addresses the builder succeeds: the job has the frontend
    group with count 1 and no constraint, the backend group with count 2
    and the distinct-hosts constraint, and its metadata has the entry of
    backend index 0 and the entry of backend index 1. *)
Theorem PvcToJob_two_replicas pvc labels :
  pvc_Name pvc ≠ EmptyString → pvc_Labels pvc = Some labels → complete labels →
  Atoi (get labels PVPReplicaCountLbl) = Ok 2%Z →
  length (Split (get labels PVPReplicaIPsLbl) ",") = 2%nat →
  ∃ job fe be meta ip0 ip1,
    PvcToJob (Some pvc) = Ok job
    ∧ TaskGroups job = [fe; be]
    ∧ Count fe = Some 1%Z ∧ tg_Constraints fe = []
    ∧ Count be = Some 2%Z ∧ tg_Constraints be = [distinctHosts]
    ∧ Split (get labels PVPReplicaIPsLbl) "," = [ip0; ip1]
    ∧ Meta job = Some meta
    ∧ meta !! backendIPKey 0 = Some ip0
    ∧ meta !! backendIPKey 1 = Some ip1.
Proof.
  intros Hname Hlabels Hcomplete Hcount Hlen.
  destruct (PvcToJob_complete pvc labels 2 Hname Hlabels Hcomplete Hcount)
    as (job & fe & be & meta & Hjob & Hgroups & Hfe & Hfec & Hbe & Hbec & Hmeta & Hips);
    [done | by rewrite Hlen |].
  destruct (Split (get labels PVPReplicaIPsLbl) ",") as [|ip0 [|ip1 [|]]] eqn:Hsplit;
    try done.
  exists job, fe, be, meta, ip0, ip1. split_and!; try done.
  - by rewrite (Hips 0%Z) by lia.
  - by rewrite (Hips 1%Z) by lia.
Qed.

(** C6. The builder tests the required properties in a fixed order. On
    a claim in which one of them is absent or empty it fails, builds no
    job, and the error is the one that names the first such property in
    that order. *)
Theorem PvcToJob_names_first_missing_property pvc labels pre k msg post :
  pvc_Name pvc ≠ EmptyString → pvc_Labels pvc = Some labels →
  requiredProperties = pre ++ (k, msg) :: post →
  Forall (λ c, get labels c.1 ≠ EmptyString) pre →
  get labels k = EmptyString →
  PvcToJob (Some pvc) = Err (Errorf msg).
Proof.
  intros Hname Hlabels Hsplit Hpre Hk.
  unfold PvcToJob; cbv zeta.
  rewrite (decide_False (P := _ = EmptyString)) by exact Hname.
  rewrite Hlabels. unfold requiredProperties in Hsplit.
  repeat (destruct pre as [|? pre];
          [ simpl in Hsplit; injection Hsplit as <- <- _;
            rewrite ?(decide_False (P := get _ _ = EmptyString)) by assumption;
            by rewrite decide_True
          | simpl in Hsplit; injection Hsplit as <- Hsplit;
            apply Forall_cons_1 in Hpre as [? Hpre]; simpl in * ]).
  by destruct pre.
Qed.

End builder.

(** ** The status reconciler *)
Section reconciler.
Context `{K : LabelTable}.
Import nomad.

(** C7. For every evaluation record the status reconciler answers with a
    volume whose message is the evaluation's status description, whose
    reason is the evaluation's status, and whose annotations hold the
    priority (as a decimal string), type, trigger, job id, status, status
    description and blocked-evaluation reference. In particular priority
    50 is recorded as the string 50. *)
Theorem JobEvalToPv_status (jobName : string) (eval : Evaluation) :
  ∃ pv ann,
    JobEvalToPv jobName (Some eval) = Ok pv
    ∧ pv_Name pv = jobName
    ∧ Message (pv_Status pv) = eval_StatusDescription eval
    ∧ Reason (pv_Status pv) = eval_Status eval
    ∧ pv_Annotations pv = Some ann
    ∧ ann !! "evalpriority" = Some (Itoa (eval_Priority eval))
    ∧ ann !! "evaltype" = Some (eval_Type eval)
    ∧ ann !! "evaltrigger" = Some (TriggeredBy eval)
    ∧ ann !! "evaljob" = Some (JobID eval)
    ∧ ann !! "evalstatus" = Some (eval_Status eval)
    ∧ ann !! "evalstatusdesc" = Some (eval_StatusDescription eval)
    ∧ ann !! "evalblockedeval" = Some (BlockedEval eval)
    ∧ (eval_Priority eval = 50%Z → ann !! "evalpriority" = Some "50").
Proof.
  eexists _, _. split; [reflexivity|]. simpl.
  split_and!; try reflexivity. by intros ->.
Qed.

(** C8. For a job whose name and status fields are set, the volume built
    from the job takes its message and reason from the job's status
    description and status; its annotations are the job's metadata map
    when the status is the running state, and are left unset for every
    other status. *)
Theorem JobToPv_annotations (job : Job) (name desc status : string) :
  job_Name job = Some name →
  StatusDescription job = Some desc →
  Status job = Some status →
  ∃ pv,
    JobToPv (Some job) = Ok pv
    ∧ pv_Name pv = name
    ∧ Message (pv_Status pv) = desc
    ∧ Reason (pv_Status pv) = status
    ∧ (status = JobStatusRunning → pv_Annotations pv = Meta job)
    ∧ (status ≠ JobStatusRunning → pv_Annotations pv = None)
    ∧ (∀ meta, Meta job = Some meta →
         (pv_Annotations pv = Some meta ↔ status = JobStatusRunning)).
Proof.
  intros Hname Hdesc Hstatus. unfold JobToPv. rewrite Hname, Hdesc, Hstatus. simpl.
  eexists. split; [reflexivity|]. simpl. split_and!; try done.
  - intros ->. by rewrite decide_True.
  - intros Hne. by rewrite decide_False.
  - intros meta Hmeta. rewrite Hmeta. case_decide; naive_solver.
Qed.

(** C10. The transformation of a job into a volume tests the job pointer
    only. It answers a nil job with an error; on a job whose status or
    status-description pointer is nil it panics with a nil dereference;
    and it returns a volume only if both pointers are set. *)
Theorem JobToPv_nil_status_panics (job : Job) :
  Status job = None ∨ StatusDescription job = None →
  JobToPv (Some job) = Panic NilDereference
  ∧ JobToPv None = Err (Errorf "Nil job provided")
  ∧ (∀ job' pv, JobToPv (Some job') = Ok pv →
       is_Some (Status job') ∧ is_Some (StatusDescription job'))
  ∧ (∀ job' e, JobToPv (Some job') ≠ Err e)
  ∧ (∀ pv job', PvToJob (Some pv) = Ok job' → JobToPv (Some job') = Panic NilDereference).
Proof.
  intros Hnil. split_and!.
  - unfold JobToPv.
    destruct (job_Name job), (StatusDescription job), (Status job); simpl;
      try reflexivity; by destruct Hnil.
  - reflexivity.
  - intros job' pv. unfold JobToPv.
    destruct (job_Name job'), (StatusDescription job'), (Status job'); simpl;
      try discriminate; eauto.
  - intros job' e. unfold JobToPv.
    destruct (job_Name job'), (StatusDescription job'), (Status job'); simpl;
      discriminate.
  - intros pv job' [= <-]. reflexivity.
Qed.

End reconciler.

(** ** The resolver *)
Section resolver.
Context `{K : LabelTable}.
Import nethelper jiva Contract.

(** *** The loop that copies the orchestrator's defaults *)
Lemma fillLabels_lookup (props labels : gmap string string) (k : string) :
  fillLabels props labels !! k =
    match props !! k with
    | Some v => if decide (get labels k = EmptyString) then Some v else labels !! k
    | None => labels !! k
    end.
Proof.
  unfold fillLabels. revert k.
  apply (map_fold_weak_ind (λ (r : gmap string string) (m : gmap string string),
    ∀ k, r !! k = match m !! k with
                  | Some v => if decide (get labels k = EmptyString) then Some v
                              else labels !! k
                  | None => labels !! k
                  end)).
  - intros k. by rewrite lookup_empty.
  - intros i x m r Hi IH k.
    assert (get r i = get labels i) as Hri.
    { unfold get at 1. rewrite IH, Hi. done. }
    rewrite Hri. destruct (decide (i = k)) as [->|Hne].
    + rewrite lookup_insert_eq. case_decide.
      * by rewrite lookup_insert_eq.
      * by rewrite IH, Hi.
    + rewrite (lookup_insert_ne m) by done. case_decide.
      * by rewrite lookup_insert_ne.
      * done.
Qed.

Lemma fillLabels_get_nonempty props labels k :
  get labels k ≠ EmptyString → fillLabels props labels !! k = labels !! k.
Proof.
  intros Hk. rewrite fillLabels_lookup. destruct (props !! k); [|done].
  by rewrite decide_False.
Qed.

Lemma fillLabels_notin props labels k :
  props !! k = None → fillLabels props labels !! k = labels !! k.
Proof. intros Hk. by rewrite fillLabels_lookup, Hk. Qed.

(** A claim that has a value for every key on offer is left as it is. *)
Lemma fillLabels_id props labels :
  map_Forall (λ k _, get labels k ≠ EmptyString) props → fillLabels props labels = labels.
Proof.
  intros Hall. apply map_eq. intros k. rewrite fillLabels_lookup.
  destruct (props !! k) as [v|] eqn:Hk; [|done].
  rewrite decide_False; [done|]. by eapply (Hall k v).
Qed.

Lemma get_fillLabels_nonempty props labels k :
  get labels k ≠ EmptyString → get (fillLabels props labels) k = get labels k.
Proof. intros Hk. unfold get at 1 2. by rewrite fillLabels_get_nonempty. Qed.

Lemma get_fillLabels_notin props labels k :
  props !! k = None → get (fillLabels props labels) k = get labels k.
Proof. intros Hk. unfold get. by rewrite fillLabels_notin. Qed.

Lemma resolverKeys_elim :
  resolverKeysDistinct →
  CNSubnetLbl ≠ JivaFrontEndIPLbl ∧ CNSubnetLbl ≠ JivaBackEndAllIPsLbl
  ∧ CNSubnetLbl ≠ CSReplicaCountLbl ∧ CNSubnetLbl ≠ CNNetworkCIDRAddrLbl
  ∧ JivaFrontEndIPLbl ≠ JivaBackEndAllIPsLbl
  ∧ CNSubnetLbl ≠ JivaFrontEndImageLbl ∧ CNSubnetLbl ≠ RegionLbl
  ∧ CNSubnetLbl ≠ DatacenterLbl.
Proof.
  unfold resolverKeysDistinct. intros H.
  repeat (apply NoDup_cons in H as [? H]).
  repeat match goal with
         | H : _ ∉ _ :: _ |- _ => apply not_elem_of_cons in H as [? H]
         end.
  split_and!; congruence.
Qed.

Lemma Atoi_nonempty s r : Atoi s = Ok r → s ≠ EmptyString.
Proof. by intros H ->. Qed.

Lemma set_Labels_set_Labels pvc m m' : set_Labels (set_Labels pvc m) m' = set_Labels pvc m'.
Proof. done. Qed.

Lemma set_Labels_id pvc m : pvc_Labels pvc = Some m → set_Labels pvc m = pvc.
Proof. destruct pvc. simpl. by intros ->. Qed.

Lemma label_set_Labels pvc m k : label (set_Labels pvc m) k = get m k.
Proof. done. Qed.

(** The first half of [setCN]: the defaults are copied, the subnet is
    derived from the network CIDR and written, and the three-way branch
    on the two address labels runs on the claim so updated. *)
Lemma setCN_prelude j dc pvc labels cn subnet :
  pvc_Labels pvc = Some labels → dc ≠ EmptyString →
  NetworkProps j dc = Ok cn →
  let m1 := fillLabels cn labels in
  let cidr := get m1 CNNetworkCIDRAddrLbl in
  cidr ≠ EmptyString → CIDRSubnet cidr = Ok subnet →
  let m2 := <[CNSubnetLbl := subnet]> m1 in
  setCN j dc pvc =
    (if decide (get m2 JivaFrontEndIPLbl = EmptyString
                ∧ get m2 JivaBackEndAllIPsLbl = EmptyString) then
       iBECount <~ getBackendCount ;;
       ips <~ lift (GetAvailableIPs cidr (1 + iBECount)) ;;
       match ips with
       | [] => crash IndexOutOfRange
       | ip0 :: rest => setLabel JivaFrontEndIPLbl ip0 ;;; setBackendIPsAsString rest
       end
     else if decide (get m2 JivaFrontEndIPLbl = EmptyString) then
       ips <~ lift (GetAvailableIPs cidr 1) ;;
       match ips with
       | [] => crash IndexOutOfRange
       | ip0 :: _ => setLabel JivaFrontEndIPLbl ip0
       end
     else if decide (get m2 JivaBackEndAllIPsLbl = EmptyString) then
       setBackendIPs cidr
     else ret tt) (set_Labels pvc m2).
Proof.
  intros Hlabels Hdc Hcn m1 cidr Hcidr Hsubnet m2.
  unfold setCN. unfold bind at 1. unfold labelsAreNil. rewrite Hlabels. simpl.
  rewrite decide_False by done.
  unfold bind at 1. unfold lift at 1. rewrite Hcn.
  unfold bind at 1. unfold fillDefaults. rewrite Hlabels.
  unfold bind at 1. unfold getLabel at 1. rewrite label_set_Labels.
  fold m1. fold cidr. rewrite decide_False by done.
  unfold bind at 1. unfold lift at 1. rewrite Hsubnet.
  unfold bind at 1. unfold setLabel at 1. simpl. fold m2.
  unfold bind at 1. unfold getLabel at 1.
  unfold bind at 1. unfold getLabel at 1.
  rewrite !set_Labels_set_Labels, !label_set_Labels. done.
Qed.

Lemma setBackendIPsAsString_run (ips : list string) pvc m :
  pvc_Labels pvc = Some m →
  setBackendIPsAsString ips pvc
  = (Ok tt, set_Labels pvc (<[JivaBackEndAllIPsLbl := Join ips ","]> m)).
Proof.
  intros Hm. unfold setBackendIPsAsString, setLabel. by rewrite Hm, concat_loop_Join.
Qed.

(** C3. On a claim with replica count [r] that has neither a frontend
    address nor a backend address list, [setCN] succeeds when the subnet
    has at least [r + 1] usable addresses: it draws exactly [r + 1]
    pairwise different addresses within the subnet it derives, makes the
    first one the frontend address and the remaining [r], in the order
    drawn, the comma-separated backend list. *)
Theorem setCN_allocates_frontend_and_backends
    (j : jivaUtil) (dc : string) (pvc : PersistentVolumeClaim)
    (labels cn : gmap string string) (cidr : string) (a p r : Z) :
  resolverKeysDistinct →
  pvc_Labels pvc = Some labels → dc ≠ EmptyString →
  NetworkProps j dc = Ok cn →
  cn !! JivaFrontEndIPLbl = None → cn !! JivaBackEndAllIPsLbl = None →
  get labels JivaFrontEndIPLbl = EmptyString →
  get labels JivaBackEndAllIPsLbl = EmptyString →
  get labels CNNetworkCIDRAddrLbl = cidr → parseCIDR cidr = Some (a, p) →
  Atoi (get labels CSReplicaCountLbl) = Ok r →
  (0 ≤ r)%Z → (1 + r ≤ usableCount p)%Z →
  ∃ subnet ip0 rest pvc',
    setCN j dc pvc = (Ok tt, pvc')
    ∧ CIDRSubnet cidr = Ok subnet
    ∧ label pvc' CNSubnetLbl = subnet
    ∧ length (ip0 :: rest) = S (Z.to_nat r)
    ∧ NoDup (ip0 :: rest)
    ∧ Forall (λ ip, inSubnet ip subnet = true) (ip0 :: rest)
    ∧ label pvc' JivaFrontEndIPLbl = ip0
    ∧ label pvc' JivaBackEndAllIPsLbl = Join rest ","
    ∧ (rest ≠ [] → Split (label pvc' JivaBackEndAllIPsLbl) "," = rest).
Proof.
  intros Hkeys Hlabels Hdc Hcn HcnFE HcnBE HFE HBE Hcidr Hparse Hr Hr0 Hpool.
  destruct (resolverKeys_elim Hkeys) as (HsFE & HsBE & HsRC & HsCIDR & HFEBE & _).
  destruct (GetAvailableIPs_spec cidr a p (1 + r) Hparse Hpool)
    as (ips & Hips & _ & Hlen & Hnodup & Hall).
  destruct ips as [|ip0 rest]; [simpl in Hlen; lia|].
  pose proof (parseCIDR_nonempty _ _ _ Hparse) as Hne.
  pose proof (Atoi_nonempty _ _ Hr) as Hrne.
  assert (get (fillLabels cn labels) CNNetworkCIDRAddrLbl = cidr) as Hcidr1.
  { rewrite get_fillLabels_nonempty; congruence. }
  exists (formatIP (networkOf a p) +:+ "/" +:+ Itoa p), ip0, rest. eexists.
  split.
  { erewrite setCN_prelude; [| done | done | done | |];
      rewrite Hcidr1; [| done | by apply CIDRSubnet_ok].
    rewrite !get_insert_ne, !get_fillLabels_notin by done.
    rewrite decide_True by done.
    unfold bind at 1. unfold getBackendCount, bind at 1, getLabel at 1, lift at 1.
    rewrite label_set_Labels, get_insert_ne, get_fillLabels_nonempty by done.
    rewrite Hr. unfold bind at 1. unfold lift at 1. rewrite Hips.
    unfold bind at 1. unfold setLabel at 1. simpl.
    erewrite setBackendIPsAsString_run by done.
    rewrite set_Labels_set_Labels. reflexivity. }
  rewrite !label_set_Labels.
  split; [by apply CIDRSubnet_ok|].
  split; [by rewrite !get_insert_ne, get_insert_eq by done|].
  split; [rewrite Hlen; f_equal; lia|].
  split; [done|].
  split; [eapply Forall_impl; [exact Hall | by intros ? (_ & ? & _)]|].
  split; [by rewrite get_insert_ne, get_insert_eq by done|].
  rewrite get_insert_eq. split; [done|].
  intros Hrest. apply Split_Join; [done|].
  apply Forall_cons_1 in Hall as [_ Hall].
  eapply Forall_impl; [exact Hall | by intros ? (_ & _ & _ & ?)].
Qed.

(** C4. A claim that has a frontend address and no backend list keeps
    its frontend address and gets [r] addresses drawn for the backends;
    a claim that has a backend list and no frontend address keeps the
    list and gets one address drawn for the frontend. *)
Theorem setCN_allocates_missing_piece
    (j : jivaUtil) (dc : string) (cn : gmap string string) :
  resolverKeysDistinct → dc ≠ EmptyString →
  NetworkProps j dc = Ok cn →
  cn !! JivaFrontEndIPLbl = None → cn !! JivaBackEndAllIPsLbl = None →
  (∀ pvc labels cidr a p fe r,
     pvc_Labels pvc = Some labels →
     get labels CNNetworkCIDRAddrLbl = cidr → parseCIDR cidr = Some (a, p) →
     get labels JivaFrontEndIPLbl = fe → fe ≠ EmptyString →
     get labels JivaBackEndAllIPsLbl = EmptyString →
     Atoi (get labels CSReplicaCountLbl) = Ok r →
     (0 ≤ r ≤ usableCount p)%Z →
     ∃ subnet ips pvc',
       setCN j dc pvc = (Ok tt, pvc')
       ∧ CIDRSubnet cidr = Ok subnet
       ∧ length ips = Z.to_nat r ∧ NoDup ips
       ∧ Forall (λ ip, inSubnet ip subnet = true) ips
       ∧ label pvc' JivaFrontEndIPLbl = fe
       ∧ label pvc' JivaBackEndAllIPsLbl = Join ips ",")
  ∧ (∀ pvc labels cidr a p be,
       pvc_Labels pvc = Some labels →
       get labels CNNetworkCIDRAddrLbl = cidr → parseCIDR cidr = Some (a, p) →
       get labels JivaFrontEndIPLbl = EmptyString →
       get labels JivaBackEndAllIPsLbl = be → be ≠ EmptyString →
       (1 ≤ usableCount p)%Z →
       ∃ subnet ip pvc',
         setCN j dc pvc = (Ok tt, pvc')
         ∧ CIDRSubnet cidr = Ok subnet
         ∧ inSubnet ip subnet = true ∧ ip ≠ EmptyString
         ∧ label pvc' JivaFrontEndIPLbl = ip
         ∧ label pvc' JivaBackEndAllIPsLbl = be).
Proof.
  intros Hkeys Hdc Hcn HcnFE HcnBE.
  destruct (resolverKeys_elim Hkeys) as (HsFE & HsBE & HsRC & HsCIDR & HFEBE & _).
  split.
  - intros pvc labels cidr a p fe r Hlabels Hcidr Hparse HFE Hfe HBE Hr Hpool.
    destruct (GetAvailableIPs_spec cidr a p r Hparse ltac:(lia))
      as (ips & Hips & _ & Hlen & Hnodup & Hall).
    pose proof (parseCIDR_nonempty _ _ _ Hparse) as Hne.
    pose proof (Atoi_nonempty _ _ Hr) as Hrne.
    assert (get (fillLabels cn labels) CNNetworkCIDRAddrLbl = cidr) as Hcidr1.
    { rewrite get_fillLabels_nonempty; congruence. }
    exists (formatIP (networkOf a p) +:+ "/" +:+ Itoa p), ips. eexists.
    split.
    { erewrite setCN_prelude; [| done | done | done | |];
        rewrite Hcidr1; [| done | by apply CIDRSubnet_ok].
      rewrite !get_insert_ne by done.
      rewrite (get_fillLabels_notin cn labels JivaBackEndAllIPsLbl) by done.
      rewrite (get_fillLabels_nonempty cn labels JivaFrontEndIPLbl) by congruence.
      rewrite decide_False by (intros [? _]; congruence).
      rewrite decide_False by congruence.
      rewrite decide_True by done.
      unfold setBackendIPs. unfold bind at 1.
      unfold getBackendCount, bind at 1, getLabel at 1, lift at 1.
      rewrite label_set_Labels, get_insert_ne, get_fillLabels_nonempty by done.
      rewrite Hr. unfold bind at 1. unfold lift at 1. rewrite Hips.
      erewrite setBackendIPsAsString_run by done.
      rewrite set_Labels_set_Labels. reflexivity. }
    rewrite !label_set_Labels.
    split; [by apply CIDRSubnet_ok|].
    split; [done|]. split; [done|].
    split; [eapply Forall_impl; [exact Hall | by intros ? (_ & ? & _)]|].
    split; [|by rewrite get_insert_eq].
    rewrite !get_insert_ne by done. rewrite get_fillLabels_nonempty; congruence.
  - intros pvc labels cidr a p be Hlabels Hcidr Hparse HFE HBE Hbe Hpool.
    destruct (GetAvailableIPs_spec cidr a p 1 Hparse ltac:(lia))
      as (ips & Hips & _ & Hlen & Hnodup & Hall).
    destruct ips as [|ip ips]; [simpl in Hlen; lia|].
    apply Forall_cons_1 in Hall as [(_ & Hin & Hipne & _) _].
    pose proof (parseCIDR_nonempty _ _ _ Hparse) as Hne.
    assert (get (fillLabels cn labels) CNNetworkCIDRAddrLbl = cidr) as Hcidr1.
    { rewrite get_fillLabels_nonempty; congruence. }
    exists (formatIP (networkOf a p) +:+ "/" +:+ Itoa p), ip. eexists.
    split.
    { erewrite setCN_prelude; [| done | done | done | |];
        rewrite Hcidr1; [| done | by apply CIDRSubnet_ok].
      rewrite !get_insert_ne by done.
      rewrite (get_fillLabels_notin cn labels JivaFrontEndIPLbl) by done.
      rewrite (get_fillLabels_nonempty cn labels JivaBackEndAllIPsLbl) by congruence.
      rewrite decide_False by (intros [_ ?]; congruence).
      rewrite decide_True by done.
      unfold bind at 1. unfold lift at 1. rewrite Hips.
      unfold setLabel. simpl. reflexivity. }
    rewrite !label_set_Labels.
    split; [by apply CIDRSubnet_ok|].
    split; [done|]. split; [done|].
    split; [by rewrite get_insert_eq|].
    rewrite !get_insert_ne by done. rewrite get_fillLabels_nonempty; congruence.
Qed.

End resolver.

(** ** Values already on the claim *)
Section frame.
Context `{K : LabelTable}.
Import nethelper jiva Contract.

Lemma bind_snd {A B} (I : PersistentVolumeClaim → Prop) (m : M A) (f : A → M B) :
  (∀ pvc, I pvc → I (m pvc).2) →
  (∀ a pvc, I pvc → I (f a pvc).2) →
  ∀ pvc, I pvc → I (bind m f pvc).2.
Proof.
  intros Hm Hf pvc HI. unfold bind. specialize (Hm pvc HI).
  destruct (m pvc) as [[a|e|p] pvc']; simpl in *; auto.
Qed.

Lemma guarded_key (m : gmap string string) k k' v :
  get m k = v → v ≠ EmptyString → get m k' = EmptyString → k' ≠ k.
Proof. congruence. Qed.

Lemma setCN_frame j dc pvc k v :
  k ≠ CNSubnetLbl → v ≠ EmptyString →
  label pvc k = v → label (setCN j dc pvc).2 k = v.
Proof.
  intros Hk Hv HI.
  unfold setCN, setBackendIPs, getBackendCount, setBackendIPsAsString, fillDefaults.
  unfold bind, labelsAreNil, fail, crash, lift, getLabel, setLabel, ret.
  unfold label in *.
  destruct (pvc_Labels pvc) as [labels|] eqn:Hl; simpl; [|by rewrite Hl].
  case_decide; simpl; [by rewrite Hl|].
  destruct (NetworkProps j dc) as [cn| |]; simpl; rewrite ?Hl; try done.
  assert (get (fillLabels cn labels) k = v) as H1.
  { rewrite get_fillLabels_nonempty; congruence. }
  case_decide; simpl; [done|].
  destruct (CIDRSubnet _) as [subnet| |]; simpl; try done.
  assert (get (<[CNSubnetLbl := subnet]> (fillLabels cn labels)) k = v) as H2.
  { by rewrite get_insert_ne. }
  case_decide as Hboth; simpl.
  { destruct Hboth as [HFE HBE].
    pose proof (guarded_key _ _ _ _ H2 Hv HFE).
    pose proof (guarded_key _ _ _ _ H2 Hv HBE).
    destruct (Atoi _); simpl; try done.
    destruct (GetAvailableIPs _ _) as [[|ip0 rest]| |]; simpl; try done.
    by rewrite !get_insert_ne. }
  case_decide as HFE; simpl.
  { pose proof (guarded_key _ _ _ _ H2 Hv HFE).
    destruct (GetAvailableIPs _ _) as [[|ip0 rest]| |]; simpl; try done.
    by rewrite !get_insert_ne. }
  case_decide as HBE; simpl; [|done].
  pose proof (guarded_key _ _ _ _ H2 Hv HBE).
  destruct (Atoi _); simpl; try done.
  destruct (GetAvailableIPs _ _) as [ips| |]; simpl; try done.
  by rewrite !get_insert_ne.
Qed.

Lemma setJivaLblProps_frame pvc k v :
  v ≠ EmptyString → label pvc k = v → label (setJivaLblProps pvc).2 k = v.
Proof.
  intros Hv HI. unfold setJivaLblProps, bind, labelsAreNil, fail, lift, getLabel, setLabel, ret.
  unfold label in *.
  destruct (pvc_Labels pvc) as [labels|] eqn:Hl; simpl; [|by rewrite Hl].
  case_decide as Himg; simpl; rewrite ?Hl in *; simpl; [|done].
  rewrite get_insert_ne; [done|]. by eapply guarded_key.
Qed.

Lemma setJivaSpecProps_labels pvc : pvc_Labels (setJivaSpecProps pvc).2 = pvc_Labels pvc.
Proof.
  unfold setJivaSpecProps, getStorageSize, bind, fail, lift, getRequest, setRequest, ret.
  destruct (pvc_Requests pvc) as [requests|] eqn:Hr; simpl;
    repeat (case_decide; simpl; rewrite ?Hr; simpl); done.
Qed.

Lemma setJivaSpecProps_frame pvc k v :
  label pvc k = v → label (setJivaSpecProps pvc).2 k = v.
Proof. unfold label. by rewrite setJivaSpecProps_labels. Qed.

Lemma setRegion_frame j pvc k v :
  v ≠ EmptyString → label pvc k = v → label (setRegion j pvc).2 k = v.
Proof.
  intros Hv HI. unfold setRegion, bind, labelsAreNil, fail, lift, getLabel, setLabel, ret.
  unfold label in *.
  destruct (pvc_Labels pvc) as [labels|] eqn:Hl; simpl; [|by rewrite Hl].
  case_decide as Hcur; simpl; rewrite ?Hl in *; [done|].
  destruct (aspect j) as [a|]; simpl; [|by rewrite Hl].
  destruct (GetOrchProvider a) as [[o|]| |]; simpl; rewrite ?Hl; try done.
  case_decide; simpl; rewrite ?Hl in *; simpl; [done|].
  rewrite get_insert_ne; [done|]. by eapply guarded_key.
Qed.

Lemma setDC_frame j pvc k v :
  v ≠ EmptyString → label pvc k = v → label (setDC j pvc).2 k = v.
Proof.
  intros Hv HI. unfold setDC, bind, labelsAreNil, fail, crash, lift, getLabel, setLabel, ret.
  unfold label in *.
  destruct (pvc_Labels pvc) as [labels|] eqn:Hl; simpl; [|by rewrite Hl].
  case_decide as Hcur; simpl; rewrite ?Hl in *; [done|].
  destruct (aspect j) as [a|]; simpl; [|by rewrite Hl].
  destruct (DefaultDatacenter a) as [dc| |]; simpl; rewrite ?Hl; try done.
  case_decide; simpl; rewrite ?Hl in *; simpl; [done|].
  rewrite get_insert_ne; [done|]. by eapply guarded_key.
Qed.

Lemma setCS_frame j dc pvc k v :
  v ≠ EmptyString → label pvc k = v → label (setCS j dc pvc).2 k = v.
Proof.
  intros Hv HI. unfold setCS, fillDefaults, bind, labelsAreNil, fail, lift, ret.
  unfold label in *.
  destruct (pvc_Labels pvc) as [labels|] eqn:Hl; simpl; [|by rewrite Hl].
  case_decide; simpl; [by rewrite Hl|].
  destruct (StorageProps j dc) as [cs| |]; simpl; rewrite ?Hl; try done.
  simpl. rewrite get_fillLabels_nonempty; congruence.
Qed.

Lemma initLabels_frame pvc k v :
  v ≠ EmptyString → label pvc k = v → label (initLabels pvc).2 k = v.
Proof.
  intros Hv. unfold initLabels, label.
  destruct (pvc_Labels pvc) as [labels|] eqn:Hl; simpl; [by rewrite Hl | congruence].
Qed.

Lemma verifySpecs_frame pvc k v : label pvc k = v → label (verifySpecs pvc).2 k = v.
Proof. unfold verifySpecs. by destruct (pvc_Requests pvc). Qed.

(** X1. Whatever the outcome of resolution, a non-empty value that the
    claim had for a key other than the subnet key is still there
    afterwards. *)
Lemma resolveAndAllocate_frame j pvc k v :
  k ≠ CNSubnetLbl → v ≠ EmptyString →
  label pvc k = v → label (resolveAndAllocate j pvc).2 k = v.
Proof.
  intros Hk Hv. revert pvc. unfold resolveAndAllocate.
  apply (bind_snd (λ pvc, label pvc k = v)); [intros ?; by apply initLabels_frame | intros _].
  apply (bind_snd (λ pvc, label pvc k = v)); [intros ?; by apply verifySpecs_frame | intros _].
  apply (bind_snd (λ pvc, label pvc k = v)); [intros ?; by apply setJivaLblProps_frame | intros _].
  apply (bind_snd (λ pvc, label pvc k = v)); [intros ?; by apply setJivaSpecProps_frame | intros _].
  apply (bind_snd (λ pvc, label pvc k = v)); [intros ?; by apply setRegion_frame | intros _].
  apply (bind_snd (λ pvc, label pvc k = v)); [intros ?; by apply setDC_frame | intros dc].
  apply (bind_snd (λ pvc, label pvc k = v)); [intros ?; by apply setCS_frame | intros _].
  intros ?. by apply setCN_frame.
Qed.

End frame.

(** ** Resolving a resolved claim *)
Section idempotence.
Context `{K : LabelTable}.
Import nethelper jiva Contract.

Lemma bind_ok {A B} (m : M A) (f : A → M B) pvc a pvc' :
  m pvc = (Ok a, pvc') → bind m f pvc = f a pvc'.
Proof. intros H. unfold bind. by rewrite H. Qed.

Lemma initLabels_noop pvc labels :
  pvc_Labels pvc = Some labels → initLabels pvc = (Ok tt, pvc).
Proof. intros H. unfold initLabels. by rewrite H. Qed.

Lemma verifySpecs_ok pvc requests :
  pvc_Requests pvc = Some requests → verifySpecs pvc = (Ok tt, pvc).
Proof. intros H. unfold verifySpecs. by rewrite H. Qed.

Lemma setJivaLblProps_noop pvc labels :
  pvc_Labels pvc = Some labels → get labels JivaFrontEndImageLbl ≠ EmptyString →
  setJivaLblProps pvc = (Ok tt, pvc).
Proof.
  intros Hl Himg. unfold setJivaLblProps, bind, labelsAreNil, getLabel, label, ret.
  rewrite Hl. simpl. rewrite Hl. by rewrite decide_False by done.
Qed.

Lemma setJivaSpecProps_noop pvc requests :
  pvc_Requests pvc = Some requests →
  (0 < Sign (default 0 (requests !! JivaFrontEndVolSizeLbl)))%Z →
  (0 < Sign (default 0 (requests !! JivaBackEndVolSizeLbl)))%Z →
  setJivaSpecProps pvc = (Ok tt, pvc).
Proof.
  intros Hr Hfe Hbe. unfold setJivaSpecProps, bind, getRequest, ret.
  rewrite Hr. rewrite decide_False by lia. rewrite Hr. by rewrite decide_False by lia.
Qed.

Lemma setRegion_noop j pvc labels :
  pvc_Labels pvc = Some labels → get labels RegionLbl ≠ EmptyString →
  setRegion j pvc = (Ok tt, pvc).
Proof.
  intros Hl Hreg. unfold setRegion, bind, labelsAreNil, getLabel, label, ret.
  rewrite Hl. simpl. rewrite Hl. by rewrite decide_True by done.
Qed.

Lemma setDC_noop j pvc labels :
  pvc_Labels pvc = Some labels → get labels DatacenterLbl ≠ EmptyString →
  setDC j pvc = (Ok (get labels DatacenterLbl), pvc).
Proof.
  intros Hl Hdc. unfold setDC, bind, labelsAreNil, getLabel, label, ret.
  rewrite Hl. simpl. rewrite Hl. by rewrite decide_True by done.
Qed.

Lemma setCS_noop j dc pvc labels cs :
  pvc_Labels pvc = Some labels → dc ≠ EmptyString →
  StorageProps j dc = Ok cs →
  map_Forall (λ k _, get labels k ≠ EmptyString) cs →
  setCS j dc pvc = (Ok tt, pvc).
Proof.
  intros Hl Hdc Hcs Hall. unfold setCS, bind, labelsAreNil, lift, fillDefaults.
  rewrite Hl. simpl. rewrite decide_False by done. rewrite Hcs, Hl.
  by rewrite fillLabels_id, set_Labels_id.
Qed.

Lemma setCN_noop j dc pvc labels cn subnet :
  pvc_Labels pvc = Some labels → dc ≠ EmptyString →
  NetworkProps j dc = Ok cn →
  map_Forall (λ k _, get labels k ≠ EmptyString) cn →
  get labels CNNetworkCIDRAddrLbl ≠ EmptyString →
  CIDRSubnet (get labels CNNetworkCIDRAddrLbl) = Ok subnet →
  labels !! CNSubnetLbl = Some subnet →
  get labels JivaFrontEndIPLbl ≠ EmptyString →
  get labels JivaBackEndAllIPsLbl ≠ EmptyString →
  setCN j dc pvc = (Ok tt, pvc).
Proof.
  intros Hl Hdc Hcn Hall Hcidr Hsubnet Hs HFE HBE.
  erewrite setCN_prelude; [| done | done | done | |];
    rewrite fillLabels_id by done; [| done | done].
  rewrite insert_id by done.
  rewrite decide_False by (intros [? _]; done).
  rewrite decide_False by done. rewrite decide_False by done.
  unfold ret. by rewrite set_Labels_id.
Qed.

(** C9, as the code has it. Resolution leaves a claim as it is, and
    succeeds, when the claim has a value for the frontend image, the
    region, the datacenter, every key that the datacenter's storage and
    network defaults offer, a network CIDR, the frontend address and the
    backend address list, when its subnet is the one derived from its
    network CIDR, and when its volume sizes are positive. *)
Theorem resolveAndAllocate_resolved_noop
    (j : jivaUtil) (pvc : PersistentVolumeClaim)
    (labels : gmap string string) (requests : gmap string Quantity)
    (cs cn : gmap string string) (subnet : string) :
  pvc_Labels pvc = Some labels → pvc_Requests pvc = Some requests →
  (0 < Sign (default 0 (requests !! JivaFrontEndVolSizeLbl)))%Z →
  (0 < Sign (default 0 (requests !! JivaBackEndVolSizeLbl)))%Z →
  get labels JivaFrontEndImageLbl ≠ EmptyString →
  get labels RegionLbl ≠ EmptyString →
  get labels DatacenterLbl ≠ EmptyString →
  StorageProps j (get labels DatacenterLbl) = Ok cs →
  map_Forall (λ k _, get labels k ≠ EmptyString) cs →
  NetworkProps j (get labels DatacenterLbl) = Ok cn →
  map_Forall (λ k _, get labels k ≠ EmptyString) cn →
  get labels CNNetworkCIDRAddrLbl ≠ EmptyString →
  CIDRSubnet (get labels CNNetworkCIDRAddrLbl) = Ok subnet →
  labels !! CNSubnetLbl = Some subnet →
  get labels JivaFrontEndIPLbl ≠ EmptyString →
  get labels JivaBackEndAllIPsLbl ≠ EmptyString →
  resolveAndAllocate j pvc = (Ok tt, pvc).
Proof.
  intros Hl Hr Hfe Hbe Himg Hreg Hdc Hcs Hcsall Hcn Hcnall Hcidr Hsubnet Hs HFE HBE.
  unfold resolveAndAllocate.
  rewrite (bind_ok _ _ _ _ _ (initLabels_noop _ _ Hl)).
  rewrite (bind_ok _ _ _ _ _ (verifySpecs_ok _ _ Hr)).
  rewrite (bind_ok _ _ _ _ _ (setJivaLblProps_noop _ _ Hl Himg)).
  rewrite (bind_ok _ _ _ _ _ (setJivaSpecProps_noop _ _ Hr Hfe Hbe)).
  rewrite (bind_ok _ _ _ _ _ (setRegion_noop j _ _ Hl Hreg)).
  rewrite (bind_ok _ _ _ _ _ (setDC_noop j _ _ Hl Hdc)).
  rewrite (bind_ok _ _ _ _ _ (setCS_noop j _ _ _ _ Hl Hdc Hcs Hcsall)).
  by eapply setCN_noop.
Qed.

End idempotence.

(** ** Resolving what resolution produced *)
Section rerun.
Context `{K : LabelTable}.
Import nethelper jiva Contract.

Lemma bind_inv {A B} (m : M A) (f : A → M B) pvc b pvc' :
  bind m f pvc = (Ok b, pvc') →
  ∃ a p1, m pvc = (Ok a, p1) ∧ f a p1 = (Ok b, pvc').
Proof. unfold bind. destruct (m pvc) as [[a|e|p] p1]; try done. eauto. Qed.

(** *** Defaults that are settled stay settled *)
Lemma settled_fillLabels_self props m : settled props (fillLabels props m).
Proof.
  intros k v Hk. unfold get. rewrite fillLabels_lookup, Hk.
  case_decide as Hget; [by right|]. left. unfold get in Hget. done.
Qed.

Lemma settled_insert props m k w :
  settled props m → w ≠ EmptyString ∨ get m k = EmptyString →
  settled props (<[k := w]> m).
Proof.
  intros Hs Hw k' v Hk'. destruct (decide (k = k')) as [<-|Hne].
  - rewrite get_insert_eq, lookup_insert_eq.
    destruct (decide (w = EmptyString)) as [->|]; [|by left]. right.
    destruct Hw as [|Hget]; [done|].
    destruct (Hs k v Hk') as [|Hv]; [done|].
    unfold get in Hget. rewrite Hv in Hget. simpl in Hget. by subst.
  - rewrite get_insert_ne, lookup_insert_ne by done. by apply Hs.
Qed.

Lemma settled_fillLabels props props' m :
  settled props m → settled props (fillLabels props' m).
Proof.
  intros Hs k v Hk. unfold get. rewrite fillLabels_lookup.
  destruct (props' !! k) as [w|] eqn:Hw; [|by apply Hs].
  case_decide as Hget; [|by apply Hs].
  destruct (decide (w = EmptyString)) as [->|]; [|by left]. right.
  destruct (Hs k v Hk) as [|Hv]; [done|].
  unfold get in Hget. rewrite Hv in Hget. simpl in Hget. by subst.
Qed.

Lemma fillLabels_settled props m : settled props m → fillLabels props m = m.
Proof.
  intros Hs. apply map_eq. intros k. rewrite fillLabels_lookup.
  destruct (props !! k) as [v|] eqn:Hk; [|done].
  case_decide as Hget; [|done]. by destruct (Hs k v Hk).
Qed.

(** *** What a successful step leaves behind *)
Lemma setJivaLblProps_post pvc pvc' :
  setJivaLblProps pvc = (Ok tt, pvc') → label pvc' JivaFrontEndImageLbl ≠ EmptyString.
Proof.
  unfold setJivaLblProps, bind, labelsAreNil, fail, lift, getLabel, setLabel, ret, label.
  destruct (pvc_Labels pvc) as [labels|] eqn:Hl; simpl; [|done].
  case_decide as Himg; simpl; rewrite ?Hl in *; simpl.
  - intros [= <-]. simpl. by rewrite get_insert_eq.
  - intros [= <-]. by rewrite Hl.
Qed.

Lemma setJivaSpecProps_post pvc pvc' :
  setJivaSpecProps pvc = (Ok tt, pvc') →
  ∃ requests,
    pvc_Requests pvc' = Some requests
    ∧ (0 < Sign (default 0 (requests !! JivaFrontEndVolSizeLbl)))%Z
    ∧ (0 < Sign (default 0 (requests !! JivaBackEndVolSizeLbl)))%Z.
Proof.
  unfold setJivaSpecProps, getStorageSize, bind, fail, lift, getRequest, setRequest, ret.
  unfold Sign.
  destruct (pvc_Requests pvc) as [rq|] eqn:Hr; simpl.
  - repeat (case_decide; simpl; rewrite ?Hr; simpl); try done;
      intros [= <-]; simpl; eexists; (split; [first [reflexivity | exact Hr]|]);
      rewrite ?lookup_insert in *; repeat case_decide; simplify_eq/=;
      unfold Quantity in *; lia.
  - repeat (case_decide; simpl; rewrite ?Hr; simpl); done.
Qed.

Lemma setRegion_post j pvc pvc' :
  setRegion j pvc = (Ok tt, pvc') → label pvc' RegionLbl ≠ EmptyString.
Proof.
  unfold setRegion, bind, labelsAreNil, fail, lift, getLabel, setLabel, ret, label.
  destruct (pvc_Labels pvc) as [labels|] eqn:Hl; simpl; [|done].
  case_decide as Hcur; simpl; rewrite ?Hl in *.
  { intros [= <-]. by rewrite Hl. }
  destruct (aspect j) as [a|]; simpl; [|done].
  destruct (GetOrchProvider a) as [[o|]| |]; simpl; try done.
  case_decide; simpl; rewrite ?Hl; [done|].
  intros [= <-]. simpl. by rewrite get_insert_eq.
Qed.

Lemma setDC_post j pvc dc pvc' :
  setDC j pvc = (Ok dc, pvc') → label pvc' DatacenterLbl = dc ∧ dc ≠ EmptyString.
Proof.
  unfold setDC, bind, labelsAreNil, fail, crash, lift, getLabel, setLabel, ret, label.
  destruct (pvc_Labels pvc) as [labels|] eqn:Hl; simpl; [|done].
  case_decide as Hcur; simpl; rewrite ?Hl in *.
  { intros [= <- <-]. by rewrite Hl. }
  destruct (aspect j) as [a|]; simpl; [|done].
  destruct (DefaultDatacenter a) as [d| |]; simpl; try done.
  case_decide; simpl; rewrite ?Hl; [done|].
  intros [= <- <-]. simpl. by rewrite get_insert_eq.
Qed.

Lemma setCS_inv j dc pvc pvc' :
  setCS j dc pvc = (Ok tt, pvc') →
  ∃ labels cs,
    pvc_Labels pvc = Some labels ∧ StorageProps j dc = Ok cs
    ∧ pvc' = set_Labels pvc (fillLabels cs labels).
Proof.
  unfold setCS, fillDefaults, bind, labelsAreNil, fail, lift, ret.
  destruct (pvc_Labels pvc) as [labels|] eqn:Hl; simpl; [|done].
  case_decide; simpl; [done|].
  destruct (StorageProps j dc) as [cs| |]; simpl; rewrite ?Hl; try done.
  intros [= <-]. eauto.
Qed.

(** The four ways in which [setCN] succeeds. *)
Lemma setCN_inv j dc pvc pvc' :
  setCN j dc pvc = (Ok tt, pvc') →
  ∃ labels cn subnet,
    pvc_Labels pvc = Some labels ∧ dc ≠ EmptyString ∧ NetworkProps j dc = Ok cn
    ∧ let m1 := fillLabels cn labels in
      let cidr := get m1 CNNetworkCIDRAddrLbl in
      let m2 := <[CNSubnetLbl := subnet]> m1 in
      cidr ≠ EmptyString ∧ CIDRSubnet cidr = Ok subnet
      ∧ ((get m2 JivaFrontEndIPLbl = EmptyString ∧ get m2 JivaBackEndAllIPsLbl = EmptyString
          ∧ ∃ r ip0 rest,
              Atoi (get m2 CSReplicaCountLbl) = Ok r
              ∧ GetAvailableIPs cidr (1 + r) = Ok (ip0 :: rest)
              ∧ pvc' = set_Labels pvc
                         (<[JivaBackEndAllIPsLbl := Join rest ","]>
                            (<[JivaFrontEndIPLbl := ip0]> m2)))
         ∨ (get m2 JivaFrontEndIPLbl = EmptyString
            ∧ get m2 JivaBackEndAllIPsLbl ≠ EmptyString
            ∧ ∃ ip0 rest,
                GetAvailableIPs cidr 1 = Ok (ip0 :: rest)
                ∧ pvc' = set_Labels pvc (<[JivaFrontEndIPLbl := ip0]> m2))
         ∨ (get m2 JivaFrontEndIPLbl ≠ EmptyString
            ∧ get m2 JivaBackEndAllIPsLbl = EmptyString
            ∧ ∃ r ips,
                Atoi (get m2 CSReplicaCountLbl) = Ok r
                ∧ GetAvailableIPs cidr r = Ok ips
                ∧ pvc' = set_Labels pvc (<[JivaBackEndAllIPsLbl := Join ips ","]> m2))
         ∨ (get m2 JivaFrontEndIPLbl ≠ EmptyString
            ∧ get m2 JivaBackEndAllIPsLbl ≠ EmptyString
            ∧ pvc' = set_Labels pvc m2)).
Proof.
  intros Hrun.
  destruct (pvc_Labels pvc) as [labels|] eqn:Hl;
    [|by unfold setCN, bind, labelsAreNil in Hrun; rewrite Hl in Hrun].
  destruct (decide (dc = EmptyString)) as [->|Hdc].
  { unfold setCN, bind, labelsAreNil in Hrun. rewrite Hl in Hrun. done. }
  destruct (NetworkProps j dc) as [cn| |] eqn:Hcn;
    [| unfold setCN, bind, labelsAreNil, lift in Hrun; rewrite Hl in Hrun; simpl in Hrun;
       rewrite decide_False in Hrun by done; by rewrite Hcn in Hrun ..].
  destruct (decide (get (fillLabels cn labels) CNNetworkCIDRAddrLbl = EmptyString))
    as [Hcidr|Hcidr].
  { unfold setCN, bind, labelsAreNil, lift, fillDefaults, getLabel, label in Hrun.
    rewrite Hl in Hrun; simpl in Hrun. rewrite decide_False in Hrun by done.
    rewrite Hcn, Hl in Hrun. simpl in Hrun. by rewrite decide_True in Hrun. }
  destruct (CIDRSubnet (get (fillLabels cn labels) CNNetworkCIDRAddrLbl))
    as [subnet| |] eqn:Hsubnet;
    [| unfold setCN, bind, labelsAreNil, lift, fillDefaults, getLabel, label in Hrun;
       rewrite Hl in Hrun; simpl in Hrun; rewrite decide_False in Hrun by done;
       rewrite Hcn, Hl in Hrun; simpl in Hrun; rewrite decide_False in Hrun by done;
       by rewrite Hsubnet in Hrun ..].
  exists labels, cn, subnet. cbv zeta. split_and!; try done.
  rewrite (setCN_prelude j dc pvc labels cn subnet Hl Hdc Hcn Hcidr Hsubnet) in Hrun.
  set (m1 := fillLabels cn labels) in *.
  set (cidr := get m1 CNNetworkCIDRAddrLbl) in *.
  set (m2 := <[CNSubnetLbl := subnet]> m1) in *.
  destruct (decide (get m2 JivaFrontEndIPLbl = EmptyString)) as [HFE|HFE];
    destruct (decide (get m2 JivaBackEndAllIPsLbl = EmptyString)) as [HBE|HBE].
  - left. rewrite decide_True in Hrun by done. split_and!; try done.
    unfold bind, getBackendCount, bind, getLabel, lift in Hrun.
    rewrite label_set_Labels in Hrun.
    destruct (Atoi (get m2 CSReplicaCountLbl)) as [r| |] eqn:Hr; try done.
    destruct (GetAvailableIPs cidr (1 + r)) as [[|ip0 rest]| |] eqn:Hips; try done.
    unfold setLabel in Hrun at 1. simpl in Hrun.
    erewrite setBackendIPsAsString_run in Hrun by done.
    injection Hrun as <-. by exists r, ip0, rest.
  - right; left. rewrite decide_False in Hrun by (intros [_ ?]; done).
    cbv beta iota in Hrun. split_and!; try done.
    unfold bind, lift in Hrun.
    destruct (GetAvailableIPs cidr 1) as [[|ip0 rest]| |] eqn:Hips; try done.
    unfold setLabel in Hrun. simpl in Hrun. injection Hrun as <-. by exists ip0, rest.
  - right; right; left. rewrite decide_False in Hrun by (intros [? _]; done).
    cbv beta iota in Hrun. split_and!; try done.
    unfold setBackendIPs, bind, getBackendCount, bind, getLabel, lift in Hrun.
    rewrite label_set_Labels in Hrun.
    destruct (Atoi (get m2 CSReplicaCountLbl)) as [r| |] eqn:Hr; try done.
    destruct (GetAvailableIPs cidr r) as [ips| |] eqn:Hips; try done.
    erewrite setBackendIPsAsString_run in Hrun by done.
    injection Hrun as <-. by exists r, ips.
  - right; right; right. rewrite decide_False in Hrun by (intros [? _]; done).
    cbv beta iota in Hrun. unfold ret in Hrun.
    injection Hrun as <-. done.
Qed.

Lemma GetAvailableIPs_inv cidr count ips :
  GetAvailableIPs cidr count = Ok ips →
  ∃ a p, parseCIDR cidr = Some (a, p) ∧ (count ≤ usableCount p)%Z.
Proof.
  unfold GetAvailableIPs. destruct (parseCIDR cidr) as [[a p]|]; [|done].
  case_decide; [done|]. intros _. exists a, p. split; [done | lia].
Qed.

(** What the allocator returns has no empty address in it. *)
Lemma GetAvailableIPs_nonempty cidr count ips :
  GetAvailableIPs cidr count = Ok ips →
  length ips = Z.to_nat count ∧ Forall (λ ip, ip ≠ EmptyString) ips.
Proof.
  intros Hips. destruct (GetAvailableIPs_inv _ _ _ Hips) as (a & p & Hparse & Hcount).
  destruct (GetAvailableIPs_spec cidr a p count Hparse Hcount)
    as (ips' & Hips' & _ & Hlen & _ & Hall).
  rewrite Hips in Hips'. injection Hips' as <-. split; [done|].
  eapply Forall_impl; [exact Hall | by intros ? (_ & _ & ? & _)].
Qed.

Lemma GetAvailableIPs_none cidr count ips :
  GetAvailableIPs cidr count = Ok ips → GetAvailableIPs cidr 0 = Ok [].
Proof.
  intros Hips. destruct (GetAvailableIPs_inv _ _ _ Hips) as (a & p & Hparse & _).
  unfold GetAvailableIPs. rewrite Hparse.
  rewrite decide_False by (unfold usableCount; lia). done.
Qed.

Lemma Join_empty (ips : list string) :
  Forall (λ ip, ip ≠ EmptyString) ips → Join ips "," = EmptyString → ips = [].
Proof.
  intros Hall Hjoin. destruct ips as [|ip ips]; [done|]. exfalso.
  apply Forall_cons_1 in Hall as [Hip _].
  by apply (Join_nonempty (ip :: ips) ip); [left | |].
Qed.

Lemma setRegion_requests j pvc : pvc_Requests (setRegion j pvc).2 = pvc_Requests pvc.
Proof.
  unfold setRegion, bind, labelsAreNil, fail, lift, getLabel, setLabel, ret, label.
  destruct (pvc_Labels pvc) as [labels|] eqn:Hl; simpl; [|done].
  case_decide as Hcur; simpl; rewrite ?Hl in *; [done|].
  destruct (aspect j) as [a|]; simpl; [|done].
  destruct (GetOrchProvider a) as [[o|]| |]; simpl; try done.
  case_decide; simpl; rewrite ?Hl; done.
Qed.

Lemma setDC_requests j pvc : pvc_Requests (setDC j pvc).2 = pvc_Requests pvc.
Proof.
  unfold setDC, bind, labelsAreNil, fail, crash, lift, getLabel, setLabel, ret, label.
  destruct (pvc_Labels pvc) as [labels|] eqn:Hl; simpl; [|done].
  case_decide as Hcur; simpl; rewrite ?Hl in *; [done|].
  destruct (aspect j) as [a|]; simpl; [|done].
  destruct (DefaultDatacenter a) as [d| |]; simpl; try done.
  case_decide; simpl; rewrite ?Hl; done.
Qed.

Lemma resolverKeys_apart :
  resolverKeysDistinct →
  CNNetworkCIDRAddrLbl ≠ JivaFrontEndIPLbl ∧ CNNetworkCIDRAddrLbl ≠ JivaBackEndAllIPsLbl
  ∧ CSReplicaCountLbl ≠ JivaFrontEndIPLbl ∧ CSReplicaCountLbl ≠ JivaBackEndAllIPsLbl
  ∧ JivaFrontEndImageLbl ≠ CNSubnetLbl ∧ RegionLbl ≠ CNSubnetLbl
  ∧ DatacenterLbl ≠ CNSubnetLbl.
Proof.
  unfold resolverKeysDistinct. intros H.
  repeat (apply NoDup_cons in H as [? H]).
  repeat match goal with
         | H : _ ∉ _ :: _ |- _ => apply not_elem_of_cons in H as [? H]
         end.
  split_and!; congruence.
Qed.

(** [setCN] leaves a claim alone when the defaults are settled on it, its
    subnet is the derived one, it has a frontend address, and its backend
    list is either there or is the empty list that the allocator would
    draw again. *)
Lemma setCN_settled_noop j dc pvc labels cn subnet :
  pvc_Labels pvc = Some labels → dc ≠ EmptyString →
  NetworkProps j dc = Ok cn → settled cn labels →
  get labels CNNetworkCIDRAddrLbl ≠ EmptyString →
  CIDRSubnet (get labels CNNetworkCIDRAddrLbl) = Ok subnet →
  labels !! CNSubnetLbl = Some subnet →
  get labels JivaFrontEndIPLbl ≠ EmptyString →
  (get labels JivaBackEndAllIPsLbl ≠ EmptyString
   ∨ (labels !! JivaBackEndAllIPsLbl = Some EmptyString
      ∧ ∃ r ips, Atoi (get labels CSReplicaCountLbl) = Ok r
                 ∧ GetAvailableIPs (get labels CNNetworkCIDRAddrLbl) r = Ok ips
                 ∧ Join ips "," = EmptyString)) →
  setCN j dc pvc = (Ok tt, pvc).
Proof.
  intros Hl Hdc Hcn Hset Hcidr Hsubnet Hs HFE HBE.
  erewrite setCN_prelude; [| done | done | done | |];
    rewrite fillLabels_settled by done; [| done | done].
  rewrite insert_id by done.
  rewrite decide_False by (intros [? _]; done).
  rewrite decide_False by done.
  destruct HBE as [HBE | (HBE & r & ips & Hr & Hips & Hjoin)].
  - rewrite decide_False by done. unfold ret. by rewrite set_Labels_id.
  - rewrite decide_True by (by apply get_lookup).
    unfold setBackendIPs, bind, getBackendCount, bind, getLabel, lift.
    rewrite label_set_Labels, Hr, Hips.
    erewrite setBackendIPsAsString_run by done.
    rewrite Hjoin, set_Labels_set_Labels, insert_id by done.
    by rewrite set_Labels_id.
Qed.

(** Whatever subnet the claim had, a successful [setCN] leaves it with the
    subnet derived from its network CIDR. *)
Lemma setCN_derives_subnet j dc pvc pvc' :
  resolverKeysDistinct →
  setCN j dc pvc = (Ok tt, pvc') →
  CIDRSubnet (label pvc' CNNetworkCIDRAddrLbl) = Ok (label pvc' CNSubnetLbl).
Proof.
  intros Hkeys Hrun.
  destruct (resolverKeys_elim Hkeys) as (HsFE & HsBE & _ & HsCIDR & _).
  destruct (resolverKeys_apart Hkeys) as (HcFE & HcBE & _).
  destruct (setCN_inv _ _ _ _ Hrun)
    as (labels & cn & subnet & _ & _ & _ & _ & Hsubnet & Hbranch).
  destruct Hbranch as [(_ & _ & ? & ? & ? & _ & _ & ->)
                      |[(_ & _ & ? & ? & _ & ->)
                       |[(_ & _ & ? & ? & _ & _ & ->) | (_ & _ & ->)]]];
    rewrite !label_set_Labels, !get_insert_ne, get_insert_eq by done;
    rewrite ?get_insert_ne by done; exact Hsubnet.
Qed.

(** X2. Resolution is idempotent: run on the claim that a successful
    run produced, it succeeds again and changes nothing. *)
Theorem resolveAndAllocate_idempotent j pvc pvc' :
  resolverKeysDistinct →
  resolveAndAllocate j pvc = (Ok tt, pvc') →
  resolveAndAllocate j pvc' = (Ok tt, pvc').
Proof.
  intros Hkeys Hrun.
  destruct (resolverKeys_elim Hkeys) as (HsFE & HsBE & HsRC & HsCIDR & HFEBE & _).
  destruct (resolverKeys_apart Hkeys)
    as (HcFE & HcBE & HrFE & HrBE & HimgS & HregS & HdcS).
  unfold resolveAndAllocate in Hrun.
  apply bind_inv in Hrun as ([] & p1 & H1 & Hrun).
  apply bind_inv in Hrun as ([] & p2 & H2 & Hrun).
  apply bind_inv in Hrun as ([] & p3 & H3 & Hrun).
  apply bind_inv in Hrun as ([] & p4 & H4 & Hrun).
  apply bind_inv in Hrun as ([] & p5 & H5 & Hrun).
  apply bind_inv in Hrun as (dc & p6 & H6 & Hrun).
  apply bind_inv in Hrun as ([] & p7 & H7 & H8).
  (* what the steps of the first run establish *)
  pose proof (setJivaLblProps_post _ _ H3) as Himg3.
  destruct (setJivaSpecProps_post _ _ H4) as (requests & Hreq4 & Hfe & Hbe).
  pose proof (setRegion_post _ _ _ H5) as Hreg5.
  destruct (setDC_post _ _ _ _ H6) as [Hdc6 Hdc].
  destruct (setCS_inv _ _ _ _ H7) as (labels6 & cs & Hl6 & Hcs & ->).
  destruct (setCN_inv _ _ _ _ H8)
    as (labels7 & cn & subnet & Hl7 & _ & Hcn & Hcidr & Hsubnet & Hbranch).
  simpl in Hl7. injection Hl7 as <-.
  set (m0 := fillLabels cs labels6) in *.
  set (m1 := fillLabels cn m0) in *.
  set (cidr := get m1 CNNetworkCIDRAddrLbl) in *.
  set (m2 := <[CNSubnetLbl := subnet]> m1) in *.
  (* values carried to the end *)
  assert (label pvc' JivaFrontEndImageLbl ≠ EmptyString
          ∧ label pvc' RegionLbl ≠ EmptyString
          ∧ label pvc' DatacenterLbl = dc) as (Himg & Hreg & Hdcl).
  { assert (label p4 JivaFrontEndImageLbl ≠ EmptyString) as Himg4.
    { replace p4 with (setJivaSpecProps p3).2 by (by rewrite H4).
      by rewrite (setJivaSpecProps_frame p3 _ _ eq_refl). }
    assert (label p5 JivaFrontEndImageLbl ≠ EmptyString) as Himg5.
    { replace p5 with (setRegion j p4).2 by (by rewrite H5).
      by rewrite (setRegion_frame j p4 _ _ Himg4 eq_refl). }
    assert (label p6 JivaFrontEndImageLbl ≠ EmptyString
            ∧ label p6 RegionLbl ≠ EmptyString) as [Himg6 Hreg6].
    { replace p6 with (setDC j p5).2 by (by rewrite H6).
      by rewrite (setDC_frame j p5 _ _ Himg5 eq_refl),
                 (setDC_frame j p5 _ _ Hreg5 eq_refl). }
    assert (∀ k, k ≠ CNSubnetLbl → label p6 k ≠ EmptyString →
                 label pvc' k = label p6 k) as Hcarry.
    { intros k Hk Hne.
      replace pvc' with (setCN j dc (set_Labels p6 m0)).2 by (by rewrite H8).
      apply setCN_frame; [done | done |].
      replace (set_Labels p6 m0) with (setCS j dc p6).2 by (by rewrite H7).
      by apply setCS_frame. }
    rewrite !Hcarry by congruence. done. }
  assert (pvc_Requests pvc' = Some requests) as Hreq.
  { assert (pvc_Requests p6 = Some requests) as Hreq6.
    { replace p6 with (setDC j (setRegion j p4).2).2 by (by rewrite H5; simpl; rewrite H6).
      by rewrite setDC_requests, setRegion_requests. }
    destruct Hbranch as [(_ & _ & ? & ? & ? & _ & _ & ->)
                        |[(_ & _ & ? & ? & _ & ->)
                         |[(_ & _ & ? & ? & _ & _ & ->) | (_ & _ & ->)]]]; done. }
  (* the labels of the resolved claim *)
  assert (subnet ≠ EmptyString) as Hsne.
  { destruct (CIDRSubnet_inv _ _ Hsubnet) as (a & p & _ & ->). apply subnet_nonempty. }
  assert (settled cs m2 ∧ settled cn m2) as [Hcs2 Hcn2].
  { split; apply settled_insert; try (by left).
    - apply settled_fillLabels, settled_fillLabels_self.
    - apply settled_fillLabels_self. }
  assert (get m2 CNNetworkCIDRAddrLbl = cidr) as Hcidr2.
  { unfold m2. by rewrite get_insert_ne. }
  assert (∃ mf,
    pvc_Labels pvc' = Some mf
    ∧ settled cs mf ∧ settled cn mf
    ∧ get mf CNNetworkCIDRAddrLbl = cidr
    ∧ mf !! CNSubnetLbl = Some subnet
    ∧ get mf JivaFrontEndIPLbl ≠ EmptyString
    ∧ (get mf JivaBackEndAllIPsLbl ≠ EmptyString
       ∨ (mf !! JivaBackEndAllIPsLbl = Some EmptyString
          ∧ ∃ r ips, Atoi (get mf CSReplicaCountLbl) = Ok r
                     ∧ GetAvailableIPs cidr r = Ok ips
                     ∧ Join ips "," = EmptyString)))
    as (mf & Hlf & Hcsf & Hcnf & Hcidrf & Hsf & HFEf & HBEf).
  { destruct Hbranch as [(HFE & HBE & r & ip0 & rest & Hr & Hips & ->)
                        |[(HFE & HBE & ip0 & rest & Hips & ->)
                         |[(HFE & HBE & r & ips & Hr & Hips & ->) | (HFE & HBE & ->)]]].
    - (* both addresses drawn *)
      destruct (GetAvailableIPs_nonempty _ _ _ Hips) as [Hlen Hall].
      apply Forall_cons_1 in Hall as [Hip0 Hall].
      eexists. split; [reflexivity|]. split_and!.
      + apply settled_insert; [apply settled_insert; [done | by right]|].
        right. by rewrite get_insert_ne.
      + apply settled_insert; [apply settled_insert; [done | by right]|].
        right. by rewrite get_insert_ne.
      + by rewrite !get_insert_ne.
      + rewrite !lookup_insert_ne by done. unfold m2. by rewrite lookup_insert_eq.
      + by rewrite get_insert_ne, get_insert_eq.
      + rewrite get_insert_eq, lookup_insert_eq.
        destruct (decide (Join rest "," = EmptyString)) as [Hjoin|]; [|by left]. right.
        rewrite Hjoin. split; [done|].
        pose proof (Join_empty _ Hall Hjoin) as ->. simpl in Hlen.
        assert (r = 0%Z) as -> by lia.
        exists 0%Z, []. rewrite !get_insert_ne by done.
        split_and!; [done | by eapply GetAvailableIPs_none | done].
    - (* the frontend address drawn *)
      destruct (GetAvailableIPs_nonempty _ _ _ Hips) as [_ Hall].
      apply Forall_cons_1 in Hall as [Hip0 _].
      eexists. split; [reflexivity|]. split_and!.
      + apply settled_insert; [done | by right].
      + apply settled_insert; [done | by right].
      + by rewrite get_insert_ne.
      + rewrite lookup_insert_ne by done. unfold m2. by rewrite lookup_insert_eq.
      + by rewrite get_insert_eq.
      + left. by rewrite get_insert_ne.
    - (* the backend addresses drawn *)
      eexists. split; [reflexivity|]. split_and!.
      + apply settled_insert; [done | by right].
      + apply settled_insert; [done | by right].
      + by rewrite get_insert_ne.
      + rewrite lookup_insert_ne by done. unfold m2. by rewrite lookup_insert_eq.
      + by rewrite get_insert_ne.
      + rewrite get_insert_eq, lookup_insert_eq.
        destruct (decide (Join ips "," = EmptyString)) as [Hjoin|]; [|by left]. right.
        rewrite Hjoin. split; [done|].
        exists r, ips. by rewrite get_insert_ne.
    - (* nothing drawn *)
      eexists. split; [reflexivity|]. split_and!; try done.
      + unfold m2. by rewrite lookup_insert_eq.
      + by left. }
  (* the second run *)
  unfold label in Himg, Hreg, Hdcl. rewrite Hlf in Himg, Hreg, Hdcl.
  unfold resolveAndAllocate.
  rewrite (bind_ok _ _ _ _ _ (initLabels_noop _ _ Hlf)).
  rewrite (bind_ok _ _ _ _ _ (verifySpecs_ok _ _ Hreq)).
  rewrite (bind_ok _ _ _ _ _ (setJivaLblProps_noop _ _ Hlf Himg)).
  rewrite (bind_ok _ _ _ _ _ (setJivaSpecProps_noop _ _ Hreq Hfe Hbe)).
  rewrite (bind_ok _ _ _ _ _ (setRegion_noop j _ _ Hlf Hreg)).
  assert (get mf DatacenterLbl ≠ EmptyString) as Hdcne by congruence.
  rewrite (bind_ok _ _ _ _ _ (setDC_noop j _ _ Hlf Hdcne)).
  rewrite Hdcl.
  assert (setCS j dc pvc' = (Ok tt, pvc')) as Hcs'.
  { unfold setCS, bind, labelsAreNil, lift, fillDefaults.
    rewrite Hlf. simpl. rewrite decide_False by done. rewrite Hcs, Hlf.
    by rewrite fillLabels_settled, set_Labels_id. }
  rewrite (bind_ok _ _ _ _ _ Hcs').
  eapply setCN_settled_noop; try done; rewrite ?Hcidrf; done.
Qed.

End rerun.

(** ** More on the topology builder *)
Section builder_more.
Context `{K : LabelTable}.
Import nomad Contract.

Lemma Atoi_no_panic s p : Atoi s ≠ Panic p.
Proof. unfold Atoi. repeat case_match; done. Qed.

Lemma Atoi_Itoa_int (z : Z) : (min_int ≤ z ≤ max_int)%Z → Atoi (Itoa z) = Ok z.
Proof.
  intros Hz. destruct (decide (0 ≤ z)%Z) as [Hpos|Hneg].
  { apply Atoi_Itoa. lia. }
  destruct z as [|q|q]; try lia.
  unfold Itoa, pretty, pretty_Z.
  change ("-" +:+ @pretty positive _ q) with (String "-" (pretty (N.pos q))).
  unfold Atoi.
  pose proof (pretty_N_nonempty (N.pos q)) as Hne.
  pose proof (parse_digits_pretty_N (N.pos q)) as Hp.
  destruct (pretty (N.pos q)) as [|c s] eqn:Hs; [done|].
  cbv beta iota zeta. rewrite Hp. simpl Z.of_N.
  rewrite decide_True by (change (- Z.pos q)%Z with (Z.neg q); lia). done.
Qed.

(** What [setBEIPs] answers, case by case. *)
Lemma setBEIPs_cases beEnv jobMeta arr n :
  (n = 0%Z ∧ setBEIPs beEnv jobMeta arr n = Err (Errorf "Invalid replica count '0'"))
  ∨ (n ≠ 0%Z ∧ Z.of_nat (length arr) ≠ n
     ∧ ∃ msg, setBEIPs beEnv jobMeta arr n = Err (Errorf msg))
  ∨ (n ≠ 0%Z ∧ Z.of_nat (length arr) = n
     ∧ ∃ beEnv' jobMeta',
         setBEIPs beEnv jobMeta arr n = Ok (beEnv', jobMeta')
         ∧ (∀ j, (0 ≤ j < n)%Z →
              jobMeta' !! backendIPKey j = arr !! Z.to_nat j
              ∧ beEnv' !! backendIPKey j = arr !! Z.to_nat j)
         ∧ (∀ k, (∀ j, (0 ≤ j < n)%Z → k ≠ backendIPKey j) →
              jobMeta' !! k = <[PVPReplicaCountLbl := Itoa n]> jobMeta !! k
              ∧ beEnv' !! k = beEnv !! k)).
Proof.
  unfold setBEIPs. destruct (decide (n = 0%Z)) as [->|Hn]; [by left|].
  right. destruct (decide (Z.of_nat (length arr) ≠ n)) as [Hlen|Hlen].
  - left. eauto.
  - right. apply dec_stable in Hlen. split_and!; [done..|].
    destruct (setBEIPs_loop_spec (Z.to_nat n) 0 arr beEnv
                (<[PVPReplicaCountLbl := Itoa n]> jobMeta))
      as (e' & m' & Hrun & Hin & Hout); [lia | lia |].
    exists e', m'. split; [exact Hrun|]. split.
    + intros j Hj. apply Hin. lia.
    + intros k Hk. apply Hout. intros j Hj. apply Hk. lia.
Qed.

(** On success [setBEIPs] has found as many addresses as the replica
    count, which is not zero; both maps bind the key of every index to the
    address at that index; outside those keys the environment is as it
    was, and the metadata is as it was but for the replica count, which is
    recorded as a decimal number. *)
Lemma setBEIPs_inv beEnv jobMeta arr n beEnv' jobMeta' :
  setBEIPs beEnv jobMeta arr n = Ok (beEnv', jobMeta') →
  n ≠ 0%Z ∧ Z.of_nat (length arr) = n
  ∧ (∀ i ip, arr !! i = Some ip →
       beEnv' !! backendIPKey (Z.of_nat i) = Some ip
       ∧ jobMeta' !! backendIPKey (Z.of_nat i) = Some ip)
  ∧ (∀ k, (∀ i, (0 ≤ i < n)%Z → k ≠ backendIPKey i) →
       beEnv' !! k = beEnv !! k
       ∧ jobMeta' !! k = <[PVPReplicaCountLbl := Itoa n]> jobMeta !! k).
Proof.
  intros Hrun.
  destruct (setBEIPs_cases beEnv jobMeta arr n)
    as [[_ H]|[(_ & _ & msg & H)|(Hn & Hlen & e' & m' & H & Hin & Hout)]];
    rewrite H in Hrun; try discriminate.
  injection Hrun as <- <-. split_and!; [done..| |].
  - intros i ip Hi. pose proof (lookup_lt_Some _ _ _ Hi) as Hlt.
    destruct (Hin (Z.of_nat i)) as [Hm He]; [lia|].
    rewrite Nat2Z.id in Hm, He. by rewrite Hm, He.
  - intros k Hk. destruct (Hout k Hk) as [Hm He]. done.
Qed.

(** X3. The builder never panics: whatever the claim, it answers with a
    job or with an error. *)
Theorem PvcToJob_never_panics pvc p : PvcToJob pvc ≠ Panic p.
Proof.
  unfold PvcToJob. destruct pvc as [pvc|]; [|done].
  destruct (decide (pvc_Name pvc = EmptyString)); [done|].
  destruct (pvc_Labels pvc) as [labels|]; [|done]. cbv zeta.
  repeat (case_decide; [done|]).
  destruct (Atoi (get labels PVPReplicaCountLbl)) as [r|e|q] eqn:Hr; [|done|].
  - match goal with
    | |- context [setBEIPs ?e ?m ?a r] =>
        destruct (setBEIPs_cases e m a r)
          as [[_ Hrun]|[(_ & _ & msg & Hrun)|(_ & _ & e' & m' & Hrun & _)]];
          rewrite Hrun; done
    end.
  - by apply Atoi_no_panic in Hr.
Qed.

(** A job that the builder returns, read back: the tests the claim has
    passed and the places where the job keeps what [setBEIPs] produced. *)
Lemma PvcToJob_inv pvc job :
  PvcToJob (Some pvc) = Ok job →
  ∃ labels r beEnv jobMeta beEnv' jobMeta' fe be task,
    pvc_Name pvc ≠ EmptyString ∧ pvc_Labels pvc = Some labels ∧ complete labels
    ∧ Atoi (get labels PVPReplicaCountLbl) = Ok r
    ∧ jobMeta
      = <[JivaIqnLbl := JivaIqnFormatPrefix +:+ ":" +:+ pvc_Name pvc]>
        (<[JivaTargetPortalLbl :=
             get labels PVPControllerIPsLbl +:+ ":" +:+ JivaISCSIPortDef]>
        (<[JivaFrontEndIPLbl := get labels PVPControllerIPsLbl]>
        (<[JivaBackEndVolSizeLbl := get labels PVPStorageSizeLbl]> ∅)))
    ∧ setBEIPs beEnv jobMeta (Split (get labels PVPReplicaIPsLbl) ",") r
      = Ok (beEnv', jobMeta')
    ∧ job_Name job = Some (pvc_Name pvc) ∧ ID job = Some (pvc_Name pvc)
    ∧ Region job = Some (get labels OrchRegionLbl)
    ∧ Datacenters job = [get labels OrchDCLbl]
    ∧ Status job = None ∧ StatusDescription job = None
    ∧ Meta job = Some jobMeta'
    ∧ TaskGroups job = [fe; be]
    ∧ Count fe = Some 1%Z ∧ Count be = Some r
    ∧ Tasks be = [task] ∧ Env task = beEnv'.
Proof.
  unfold PvcToJob.
  destruct (decide (pvc_Name pvc = EmptyString)) as [|Hname]; [done|].
  destruct (pvc_Labels pvc) as [labels|]; [|done]. cbv zeta.
  repeat (case_decide; [done|]).
  destruct (Atoi (get labels PVPReplicaCountLbl)) as [r|e|q] eqn:Hr; [|done..].
  match goal with
  | |- context [setBEIPs ?e ?m ?a r] =>
      destruct (setBEIPs e m a r) as [[beEnv' jobMeta']|?|?] eqn:Hrun; [|done..];
      intros [= <-]; exists labels, r, e, m, beEnv', jobMeta'
  end.
  eexists _, _, _. split_and!; try reflexivity; try done.
  unfold complete, requiredProperties. by repeat constructor.
Qed.

(** X4. The builder returns a job exactly for the claims that have a
    name, a value for each of the ten required properties, a replica count
    that reads as a non-zero integer, and as many comma-separated replica
    addresses as that count. *)
Theorem PvcToJob_ok_iff pvc :
  (∃ job, PvcToJob (Some pvc) = Ok job)
  ↔ pvc_Name pvc ≠ EmptyString
    ∧ ∃ labels r,
        pvc_Labels pvc = Some labels ∧ complete labels
        ∧ Atoi (get labels PVPReplicaCountLbl) = Ok r ∧ r ≠ 0%Z
        ∧ Z.of_nat (length (Split (get labels PVPReplicaIPsLbl) ",")) = r.
Proof.
  split.
  - intros [job Hjob].
    destruct (PvcToJob_inv _ _ Hjob)
      as (labels & r & e & m & e' & m' & _ & _ & _ & Hname & Hlabels & Hcomplete
          & Hr & _ & Hrun & _).
    split; [done|]. exists labels, r.
    destruct (setBEIPs_inv _ _ _ _ _ _ Hrun) as (? & ? & _). by split_and!.
  - intros (Hname & labels & r & Hlabels & Hcomplete & Hr & Hnz & Hlen).
    destruct (PvcToJob_complete pvc labels r Hname Hlabels Hcomplete Hr Hnz Hlen)
      as (job & _ & _ & _ & Hjob & _).
    by exists job.
Qed.

(** X5. In every job that the builder returns the replica group has one
    task, the count of the group is the number of comma-separated replica
    addresses of the claim, and the address at each position is bound to
    the key of that position both in the job's metadata and in the
    environment of the replica task. The metadata also records the count
    as a decimal number, unless the key of the count is the key of one of
    the positions. *)
Theorem PvcToJob_records_every_replica pvc labels job :
  pvc_Labels pvc = Some labels → PvcToJob (Some pvc) = Ok job →
  ∃ fe be task meta r,
    TaskGroups job = [fe; be] ∧ Tasks be = [task] ∧ Meta job = Some meta
    ∧ Atoi (get labels PVPReplicaCountLbl) = Ok r
    ∧ Count be = Some r
    ∧ Z.of_nat (length (Split (get labels PVPReplicaIPsLbl) ",")) = r
    ∧ (∀ i ip, Split (get labels PVPReplicaIPsLbl) "," !! i = Some ip →
         meta !! backendIPKey (Z.of_nat i) = Some ip
         ∧ Env task !! backendIPKey (Z.of_nat i) = Some ip)
    ∧ ((∀ i, (0 ≤ i < r)%Z → PVPReplicaCountLbl ≠ backendIPKey i) →
       meta !! PVPReplicaCountLbl = Some (Itoa r)).
Proof.
  intros Hlabels Hjob.
  destruct (PvcToJob_inv _ _ Hjob)
    as (labels' & r & e & m & e' & m' & fe & be & task & _ & Hlabels' & _
        & Hr & _ & Hrun & _ & _ & _ & _ & _ & _ & Hmeta & Hgroups & _ & Hcount
        & Htasks & Henv).
  assert (labels' = labels) as -> by congruence.
  destruct (setBEIPs_inv _ _ _ _ _ _ Hrun) as (Hnz & Hlen & Hin & Hout).
  exists fe, be, task, m', r. split_and!; try done.
  - intros i ip Hi. destruct (Hin i ip Hi) as [He Hm]. by rewrite Henv.
  - intros Hk. destruct (Hout _ Hk) as [_ ->]. by rewrite lookup_insert_eq.
Qed.

(** X6. The builder and [PvcToJobName] agree on the name: an error of
    [PvcToJobName] is the error of the builder, and a job that the builder
    returns has the name that [PvcToJobName] gives, as its name and as its
    ID. *)
Theorem PvcToJob_agrees_with_PvcToJobName pvc :
  (∀ e, PvcToJobName pvc = Err e → PvcToJob pvc = Err e)
  ∧ (∀ job, PvcToJob pvc = Ok job →
       ∃ name, PvcToJobName pvc = Ok name
               ∧ job_Name job = Some name ∧ ID job = Some name).
Proof.
  split.
  - intros e. destruct pvc as [pvc|]; [|by intros [= <-]].
    unfold PvcToJobName, PvcToJob. case_decide; [by intros [= <-]|discriminate].
  - intros job Hjob. destruct pvc as [pvc|]; [|done].
    destruct (PvcToJob_inv _ _ Hjob)
      as (labels & r & e & m & e' & m' & _ & _ & _ & Hname & _ & _ & _ & _ & _
          & Hn & Hid & _).
    exists (pvc_Name pvc). split_and!; [|done..].
    unfold PvcToJobName. by rewrite decide_False.
Qed.

(** X7. A job as the builder returns it has neither a status nor a
    status description: handed to [JobToPv] as it is, it makes [JobToPv]
    panic. *)
Theorem PvcToJob_job_has_no_status pvc job :
  PvcToJob pvc = Ok job →
  Status job = None ∧ StatusDescription job = None
  ∧ JobToPv (Some job) = Panic NilDereference.
Proof.
  intros Hjob. destruct pvc as [pvc|]; [|done].
  destruct (PvcToJob_inv _ _ Hjob)
    as (labels & r & e & m & e' & m' & _ & _ & _ & _ & _ & _ & _ & _ & _
        & Hn & _ & _ & _ & Hs & Hd & _).
  split_and!; [done..|]. unfold JobToPv. by rewrite Hn, Hd.
Qed.

(** X8. The metadata of a job that the builder returns names the
    volume: it has the size of the backend volume, the frontend address,
    the target portal (the frontend address and the iSCSI port) and the
    qualified name (the prefix and the name of the claim), provided the
    keys of these entries and of the replica count are pairwise different
    and none of them is the key of a replica position. *)
Theorem PvcToJob_metadata pvc labels job :
  NoDup [ JivaBackEndVolSizeLbl; JivaFrontEndIPLbl; JivaTargetPortalLbl;
          JivaIqnLbl; PVPReplicaCountLbl ] →
  (∀ k i, k ∈ [ JivaBackEndVolSizeLbl; JivaFrontEndIPLbl; JivaTargetPortalLbl;
                JivaIqnLbl ] → k ≠ backendIPKey i) →
  pvc_Labels pvc = Some labels → PvcToJob (Some pvc) = Ok job →
  ∃ meta,
    Meta job = Some meta
    ∧ meta !! JivaBackEndVolSizeLbl = Some (get labels PVPStorageSizeLbl)
    ∧ meta !! JivaFrontEndIPLbl = Some (get labels PVPControllerIPsLbl)
    ∧ meta !! JivaTargetPortalLbl
      = Some (get labels PVPControllerIPsLbl +:+ ":" +:+ JivaISCSIPortDef)
    ∧ meta !! JivaIqnLbl = Some (JivaIqnFormatPrefix +:+ ":" +:+ pvc_Name pvc).
Proof.
  intros Hkeys Hapart Hlabels Hjob.
  destruct (PvcToJob_inv _ _ Hjob)
    as (labels' & r & e & m & e' & m' & _ & _ & _ & _ & Hlabels' & _
        & _ & Hm & Hrun & _ & _ & _ & _ & _ & _ & Hmeta & _).
  assert (labels' = labels) as -> by congruence.
  destruct (setBEIPs_inv _ _ _ _ _ _ Hrun) as (_ & _ & _ & Hout).
  apply NoDup_cons in Hkeys as [Hn1 Hkeys]. apply NoDup_cons in Hkeys as [Hn2 Hkeys].
  apply NoDup_cons in Hkeys as [Hn3 Hkeys]. apply NoDup_cons in Hkeys as [Hn4 _].
  repeat match goal with
         | H : _ ∉ _ :: _ |- _ => apply not_elem_of_cons in H as [? H]
         end.
  assert (∀ k, k ∈ [ JivaBackEndVolSizeLbl; JivaFrontEndIPLbl; JivaTargetPortalLbl;
                     JivaIqnLbl ] →
               m' !! k = <[PVPReplicaCountLbl := Itoa r]> m !! k) as Hkeep.
  { intros k Hk. apply Hout. intros i _. by apply Hapart. }
  exists m'. split; [done|]. subst m.
  split_and!; (rewrite Hkeep by repeat constructor);
    rewrite ?lookup_insert_ne by done; by rewrite lookup_insert_eq.
Qed.

End builder_more.

(** ** More on the status reconciler *)
Section reconciler_more.
Context `{K : LabelTable}.
Import nomad.

(** X9. From a job to a volume and back: the job that [PvToJob] makes of
    the volume that [JobToPv] made of a job has the name of that job, as
    its name and as its ID; the metadata, the status and the task groups
    of the job are not carried over. *)
Theorem JobToPv_PvToJob_keeps_the_name job pv :
  JobToPv (Some job) = Ok pv →
  ∃ job',
    PvToJob (Some pv) = Ok job'
    ∧ job_Name job' = job_Name job ∧ ID job' = job_Name job
    ∧ Meta job' = None ∧ Status job' = None ∧ TaskGroups job' = [].
Proof.
  unfold JobToPv.
  destruct (job_Name job) as [name|], (StatusDescription job), (Status job);
    simpl; try discriminate.
  intros [= <-]. eexists. split; [reflexivity|]. by simpl.
Qed.

(** X10. The annotations of the volume built from an evaluation are seven
    in number; the status and the status description among them are the
    reason and the message of the volume's status; and the priority among
    them reads back, as a decimal number, as the priority of the
    evaluation. *)
Theorem JobEvalToPv_annotations_read_back jobName eval pv :
  (min_int ≤ eval_Priority eval ≤ max_int)%Z →
  JobEvalToPv jobName (Some eval) = Ok pv →
  ∃ ann,
    pv_Annotations pv = Some ann
    ∧ size ann = 7%nat
    ∧ get ann "evalstatus" = Reason (pv_Status pv)
    ∧ get ann "evalstatusdesc" = Message (pv_Status pv)
    ∧ Atoi (get ann "evalpriority") = Ok (eval_Priority eval).
Proof.
  intros Hp [= <-]. eexists. split; [reflexivity|].
  split_and!; try reflexivity.
  change (Atoi (Itoa (eval_Priority eval)) = Ok (eval_Priority eval)).
  by apply Atoi_Itoa_int.
Qed.

End reconciler_more.

(** ** More on the resolver *)
Section resolver_more.
Context `{K : LabelTable}.
Import nethelper jiva Contract.

(** A step that keeps non-empty values hands them on to the claim it
    returns. *)
Lemma step_carry {A} (m : M A) pvc a pvc' k :
  (∀ p v, v ≠ EmptyString → label p k = v → label (m p).2 k = v) →
  m pvc = (Ok a, pvc') → label pvc k ≠ EmptyString → label pvc' k = label pvc k.
Proof.
  intros Hframe Hrun Hne. replace pvc' with (m pvc).2 by (by rewrite Hrun).
  by apply Hframe.
Qed.

(** What a successful resolution leaves on the claim. *)
Lemma resolveAndAllocate_post j pvc pvc' :
  resolverKeysDistinct →
  resolveAndAllocate j pvc = (Ok tt, pvc') →
  label pvc' JivaFrontEndImageLbl ≠ EmptyString
  ∧ label pvc' RegionLbl ≠ EmptyString
  ∧ label pvc' DatacenterLbl ≠ EmptyString
  ∧ label pvc' CNNetworkCIDRAddrLbl ≠ EmptyString
  ∧ CIDRSubnet (label pvc' CNNetworkCIDRAddrLbl) = Ok (label pvc' CNSubnetLbl)
  ∧ (0 < request pvc' JivaFrontEndVolSizeLbl)%Z
  ∧ (0 < request pvc' JivaBackEndVolSizeLbl)%Z.
Proof.
  intros Hkeys Hrun.
  destruct (resolverKeys_elim Hkeys) as (HsFE & HsBE & HsRC & HsCIDR & HFEBE & _).
  destruct (resolverKeys_apart Hkeys)
    as (HcFE & HcBE & HrFE & HrBE & HimgS & HregS & HdcS).
  unfold resolveAndAllocate in Hrun.
  apply bind_inv in Hrun as ([] & p1 & H1 & Hrun).
  apply bind_inv in Hrun as ([] & p2 & H2 & Hrun).
  apply bind_inv in Hrun as ([] & p3 & H3 & Hrun).
  apply bind_inv in Hrun as ([] & p4 & H4 & Hrun).
  apply bind_inv in Hrun as ([] & p5 & H5 & Hrun).
  apply bind_inv in Hrun as (dc & p6 & H6 & Hrun).
  apply bind_inv in Hrun as ([] & p7 & H7 & H8).
  pose proof (setJivaLblProps_post _ _ H3) as Himg3.
  destruct (setJivaSpecProps_post _ _ H4) as (requests & Hreq4 & Hfe & Hbe).
  pose proof (setRegion_post _ _ _ H5) as Hreg5.
  destruct (setDC_post _ _ _ _ H6) as [Hdc6 Hdc].
  (* the labels written by the earlier steps reach the end *)
  assert (∀ k, k ≠ CNSubnetLbl → label p6 k ≠ EmptyString →
               label pvc' k = label p6 k) as Hcarry.
  { intros k Hk Hne.
    rewrite (step_carry (setCN j dc) p7 tt pvc' k); [| |exact H8|].
    - apply (step_carry (setCS j dc) p6 tt p7 k); [|exact H7|exact Hne].
      intros p v. apply setCS_frame.
    - intros p v. by apply setCN_frame.
    - rewrite (step_carry (setCS j dc) p6 tt p7 k); [exact Hne| |exact H7|exact Hne].
      intros p v. apply setCS_frame. }
  assert (label p4 JivaFrontEndImageLbl ≠ EmptyString) as Himg4.
  { replace p4 with (setJivaSpecProps p3).2 by (by rewrite H4).
    by rewrite (setJivaSpecProps_frame p3 _ _ eq_refl). }
  assert (label p5 JivaFrontEndImageLbl ≠ EmptyString) as Himg5.
  { rewrite (step_carry (setRegion j) p4 tt p5 _); [done| |exact H5|done].
    intros p v. apply setRegion_frame. }
  assert (label p6 JivaFrontEndImageLbl ≠ EmptyString
          ∧ label p6 RegionLbl ≠ EmptyString) as [Himg6 Hreg6].
  { split; (rewrite (step_carry (setDC j) p5 dc p6 _); [done| |exact H6|done]);
      intros p v; apply setDC_frame. }
  assert (pvc_Requests p6 = Some requests) as Hreq6.
  { replace p6 with (setDC j (setRegion j p4).2).2 by (by rewrite H5; simpl; rewrite H6).
    by rewrite setDC_requests, setRegion_requests. }
  destruct (setCS_inv _ _ _ _ H7) as (labels6 & cs & Hl6 & Hcs & ->).
  pose proof (setCN_derives_subnet _ _ _ _ Hkeys H8) as Hsub.
  destruct (setCN_inv _ _ _ _ H8)
    as (labels7 & cn & subnet & Hl7 & _ & Hcn & Hcidr & Hsubnet & Hbranch).
  split_and!.
  - rewrite Hcarry; done.
  - rewrite Hcarry; done.
  - rewrite Hcarry; [congruence|done|congruence].
  - destruct Hbranch as [(_ & _ & ? & ? & ? & _ & _ & ->)
                        |[(_ & _ & ? & ? & _ & ->)
                         |[(_ & _ & ? & ? & _ & _ & ->) | (_ & _ & ->)]]];
      rewrite label_set_Labels, ?get_insert_ne by done; exact Hcidr.
  - exact Hsub.
  - unfold request.
    destruct Hbranch as [(_ & _ & ? & ? & ? & _ & _ & ->)
                        |[(_ & _ & ? & ? & _ & ->)
                         |[(_ & _ & ? & ? & _ & _ & ->) | (_ & _ & ->)]]];
      simpl; rewrite Hreq6; unfold Sign in Hfe; lia.
  - unfold request.
    destruct Hbranch as [(_ & _ & ? & ? & ? & _ & _ & ->)
                        |[(_ & _ & ? & ? & _ & ->)
                         |[(_ & _ & ? & ? & _ & _ & ->) | (_ & _ & ->)]]];
      simpl; rewrite Hreq6; unfold Sign in Hbe; lia.
Qed.

(** X11. A volume comes back from [ProvisionStorage] only after the
    orchestrator has accepted the claim as resolution left it, and that
    claim has a frontend image, a region, a datacenter and a network
    CIDR, the subnet derived from that CIDR, and positive sizes for the
    frontend and the backend volume. *)
Theorem ProvisionStorage_submits_resolved_claim j pvc pv pvc' :
  resolverKeysDistinct →
  ProvisionStorage j pvc = (Ok pv, pvc') →
  resolveAndAllocate j pvc = (Ok tt, pvc')
  ∧ (∃ a o so,
       aspect j = Some a ∧ GetOrchProvider a = Ok (Some o)
       ∧ orch_StoragePlacements o = Some so
       ∧ StoragePlacementReq so pvc' = Ok pv)
  ∧ label pvc' JivaFrontEndImageLbl ≠ EmptyString
  ∧ label pvc' RegionLbl ≠ EmptyString
  ∧ label pvc' DatacenterLbl ≠ EmptyString
  ∧ label pvc' CNNetworkCIDRAddrLbl ≠ EmptyString
  ∧ CIDRSubnet (label pvc' CNNetworkCIDRAddrLbl) = Ok (label pvc' CNSubnetLbl)
  ∧ (0 < request pvc' JivaFrontEndVolSizeLbl)%Z
  ∧ (0 < request pvc' JivaBackEndVolSizeLbl)%Z.
Proof.
  intros Hkeys Hrun. unfold ProvisionStorage in Hrun.
  destruct (aspect j) as [a|] eqn:Ha; [|done].
  apply bind_inv in Hrun as (o & p0 & Ho & Hrun).
  unfold lift in Ho. injection Ho as Ho <-.
  destruct o as [o|]; [|done].
  destruct (orch_StoragePlacements o) as [so|] eqn:Hso; [|done].
  apply bind_inv in Hrun as ([] & p1 & Hres & Hreq).
  injection Hreq as Hreq <-.
  split; [exact Hres|]. split; [by exists a, o, so|].
  by apply (resolveAndAllocate_post j pvc).
Qed.

(** X12. [setCS] fills the gaps and nothing else: when it succeeds, a
    label that had a value keeps it, a label without a value takes the
    value that the orchestrator's storage defaults have for its key, and
    the name and the requests of the claim are as they were. When it does
    not succeed the claim is as it was. *)
Theorem setCS_fills_only_the_gaps j dc pvc :
  (∀ pvc', setCS j dc pvc = (Ok tt, pvc') →
     ∃ cs,
       StorageProps j dc = Ok cs
       ∧ pvc_Name pvc' = pvc_Name pvc ∧ pvc_Requests pvc' = pvc_Requests pvc
       ∧ ∀ k, label pvc' k =
              if decide (label pvc k = EmptyString) then get cs k else label pvc k)
  ∧ (∀ r pvc', setCS j dc pvc = (r, pvc') → r ≠ Ok tt → pvc' = pvc).
Proof.
  split.
  - intros pvc' Hrun.
    destruct (setCS_inv _ _ _ _ Hrun) as (labels & cs & Hl & Hcs & ->).
    exists cs. split_and!; [done..|]. intros k.
    rewrite label_set_Labels. unfold label. rewrite Hl.
    unfold get at 1. rewrite fillLabels_lookup.
    destruct (cs !! k) as [v|] eqn:Hk.
    + case_decide; [by rewrite (get_lookup _ _ _ Hk)|done].
    + case_decide as He; [|done]. unfold get in *. by rewrite Hk, He.
  - intros r pvc'. unfold setCS, bind, labelsAreNil, fail, lift, fillDefaults.
    destruct (pvc_Labels pvc) as [labels|] eqn:Hl; simpl.
    + case_decide; [by intros [= <- <-]|].
      destruct (StorageProps j dc) as [cs| |]; [|by intros [= <- <-]..].
      rewrite Hl. by intros [= <- <-].
    + by intros [= <- <-].
Qed.

(** X13. [setJivaSpecProps] never panics. It succeeds exactly when the
    claim requests a positive storage size or has positive sizes for the
    frontend and for the backend volume already; otherwise it reports an
    invalid storage size and leaves the claim as it was. When it
    succeeds, a size that was positive is kept and a size that was not is
    the storage size; the labels are never touched. *)
Theorem setJivaSpecProps_sizes pvc :
  (∀ p, (setJivaSpecProps pvc).1 ≠ Panic p)
  ∧ ((setJivaSpecProps pvc).1 = Ok tt
     ↔ (0 < request pvc "storage"
        ∨ 0 < request pvc JivaFrontEndVolSizeLbl ∧ 0 < request pvc JivaBackEndVolSizeLbl)%Z)
  ∧ ((setJivaSpecProps pvc).1 ≠ Ok tt →
     setJivaSpecProps pvc = (Err (Errorf "Invalid storage size in pvc"), pvc))
  ∧ ((setJivaSpecProps pvc).1 = Ok tt →
     request (setJivaSpecProps pvc).2 JivaFrontEndVolSizeLbl
     = (if decide (0 < request pvc JivaFrontEndVolSizeLbl)%Z
        then request pvc JivaFrontEndVolSizeLbl else request pvc "storage")
     ∧ request (setJivaSpecProps pvc).2 JivaBackEndVolSizeLbl
       = (if decide (0 < request pvc JivaBackEndVolSizeLbl)%Z
          then request pvc JivaBackEndVolSizeLbl else request pvc "storage"))
  ∧ pvc_Labels (setJivaSpecProps pvc).2 = pvc_Labels pvc.
Proof.
  split_and!; [| | | |apply setJivaSpecProps_labels];
    unfold setJivaSpecProps, getStorageSize, bind, getRequest, setRequest, fail, lift,
      ret, request, Sign, Quantity in *;
    destruct (pvc_Requests pvc) as [r|] eqn:Hr; simpl;
    repeat (first
      [ progress rewrite ?Hr
      | progress simpl
      | progress (rewrite ?lookup_insert in * )
      | case_decide; simplify_eq/= ]);
    try done; try lia; try (intros; lia); try (split; intros; try done; lia).
  all: intros _; exfalso;
    repeat match goal with
           | H : @eq string _ _ |- _ =>
               first [rewrite H in * | rewrite <- H in * ]; clear H
           end; (congruence || lia).
Qed.

(** X14. The utility that [newJivaProUtil] builds has no aspect:
    [ProvisionStorage], [NetworkProps] and [StorageProps] panic on the nil
    aspect, and so does [setDC] on a claim without a datacenter, while
    [setRegion] tests the aspect and reports it missing. A claim that
    names its region and its datacenter passes both without the aspect. *)
Theorem no_aspect_no_provisioning j :
  newJivaProUtil = Ok j →
  (∀ pvc, ProvisionStorage j pvc = (Panic NilDereference, pvc))
  ∧ (∀ dc, NetworkProps j dc = Panic NilDereference
           ∧ StorageProps j dc = Panic NilDereference)
  ∧ (∀ pvc labels, pvc_Labels pvc = Some labels →
       (get labels RegionLbl = EmptyString →
        setRegion j pvc
        = (Err (Errorf "Aspect missing while setting pvc region"), pvc))
       ∧ (get labels DatacenterLbl = EmptyString →
          setDC j pvc = (Panic NilDereference, pvc))
       ∧ (get labels RegionLbl ≠ EmptyString → setRegion j pvc = (Ok tt, pvc))
       ∧ (get labels DatacenterLbl ≠ EmptyString →
          setDC j pvc = (Ok (get labels DatacenterLbl), pvc))).
Proof.
  intros [= <-]. split_and!.
  - done.
  - done.
  - intros pvc labels Hl. split_and!.
    + intros He. unfold setRegion, bind, labelsAreNil, getLabel, label, fail, lift.
      rewrite Hl. simpl. rewrite Hl, He.
      by rewrite decide_False by (intros Hn; by apply Hn).
    + intros He. unfold setDC, bind, labelsAreNil, getLabel, label, crash, lift.
      rewrite Hl. simpl. rewrite Hl, He.
      by rewrite decide_False by (intros Hn; by apply Hn).
    + intros Hne. by apply (setRegion_noop _ pvc labels).
    + intros Hne. by apply (setDC_noop _ pvc labels).
Qed.

(** X15. The backend address list is written by [setBackendIPsAsString]
    in the form in which the builder reads it: the addresses joined by
    commas, which [strings.Split] at the comma takes apart into the same
    addresses, in the same order, when there is at least one address and
    none has a comma in it. No other label changes. An empty list of
    addresses is written as the empty string, which splits into one empty
    field. *)
Theorem setBackendIPsAsString_Split_back ips pvc labels :
  pvc_Labels pvc = Some labels →
  ∃ pvc',
    setBackendIPsAsString ips pvc = (Ok tt, pvc')
    ∧ label pvc' JivaBackEndAllIPsLbl = Join ips ","
    ∧ (ips ≠ [] → Forall (lacks ",") ips →
       Split (label pvc' JivaBackEndAllIPsLbl) "," = ips)
    ∧ (ips = [] → Split (label pvc' JivaBackEndAllIPsLbl) "," = [EmptyString])
    ∧ (∀ k, k ≠ JivaBackEndAllIPsLbl → label pvc' k = label pvc k).
Proof.
  intros Hl. eexists. split; [by apply setBackendIPsAsString_run|].
  rewrite label_set_Labels, get_insert_eq. split_and!.
  - done.
  - intros Hne Hlacks. by apply Split_Join.
  - by intros ->.
  - intros k Hk. rewrite label_set_Labels, get_insert_ne by done.
    unfold label. by rewrite Hl.
Qed.

(** X16. The region and the datacenter of the claim win over those of
    the orchestrator: [setRegion] and [setDC] leave a claim that names its
    region, or its datacenter, as it is, and only for a claim that does
    not they take the region of the orchestrator, or the default
    datacenter of the aspect. What they leave on the claim is never
    empty, and [setDC] returns the datacenter that it leaves there. *)
Theorem setRegion_setDC_prefer_the_claim j pvc :
  (∀ pvc', setRegion j pvc = (Ok tt, pvc') →
     label pvc' RegionLbl ≠ EmptyString
     ∧ (label pvc RegionLbl ≠ EmptyString → pvc' = pvc)
     ∧ (label pvc RegionLbl = EmptyString →
        ∃ a o, aspect j = Some a ∧ GetOrchProvider a = Ok (Some o)
               ∧ label pvc' RegionLbl = orch_Region o))
  ∧ (∀ dc pvc', setDC j pvc = (Ok dc, pvc') →
       label pvc' DatacenterLbl = dc ∧ dc ≠ EmptyString
       ∧ (label pvc DatacenterLbl ≠ EmptyString →
          pvc' = pvc ∧ dc = label pvc DatacenterLbl)
       ∧ (label pvc DatacenterLbl = EmptyString →
          ∃ a, aspect j = Some a ∧ DefaultDatacenter a = Ok dc)).
Proof.
  split.
  - intros pvc' Hrun. split; [by eapply setRegion_post|].
    unfold setRegion, bind, labelsAreNil, getLabel, fail, lift, ret, setLabel in Hrun.
    unfold label in *.
    destruct (pvc_Labels pvc) as [labels|] eqn:Hl; simpl in Hrun; [|done].
    rewrite ?Hl in Hrun. case_decide as Hcur.
    + injection Hrun as <-. split; [done|]. intros He. by rewrite He in Hcur.
    + split; [done|]. intros _.
      destruct (aspect j) as [a|] eqn:Ha; [|done].
      destruct (GetOrchProvider a) as [[o|]| |] eqn:Ho; simpl in Hrun; try done.
      case_decide; [done|]. rewrite Hl in Hrun. injection Hrun as <-.
      exists a, o. simpl. by rewrite get_insert_eq.
  - intros dc pvc' Hrun. destruct (setDC_post _ _ _ _ Hrun) as [Hdc Hne].
    split; [done|]. split; [done|].
    unfold setDC, bind, labelsAreNil, getLabel, fail, lift, ret, setLabel, crash in Hrun.
    unfold label in *.
    destruct (pvc_Labels pvc) as [labels|] eqn:Hl; simpl in Hrun; [|done].
    rewrite ?Hl in Hrun. case_decide as Hcur.
    + injection Hrun as <- <-. split; [done|]. intros He. by rewrite He in Hcur.
    + split; [done|]. intros _.
      destruct (aspect j) as [a|] eqn:Ha; [|done].
      destruct (DefaultDatacenter a) as [dc'| |] eqn:Hd; simpl in Hrun; try done.
      case_decide; [done|]. rewrite Hl in Hrun. simpl in Hrun.
      injection Hrun as <- <-. by exists a.
Qed.

End resolver_more.

(** ** The datacenter configuration *)
Section conf_more.
Context `{K : LabelTable}.
Import nomad_util.

Lemma validateConf_ok m dc :
  validateConf m dc = Ok tt
  ↔ dc ≠ EmptyString
    ∧ ∃ conf dcs d,
        nomadConf m = Some conf ∧ Datacenter conf = Some dcs ∧ dcs !! dc = Some d.
Proof.
  unfold validateConf. split.
  - intros H. case_decide; [done|].
    destruct (nomadConf m) as [conf|] eqn:Hc; [|done].
    destruct (Datacenter conf) as [dcs|] eqn:Hdcs; [|done].
    destruct (dcs !! dc) as [d|] eqn:Hd; [|done]. split; [done|].
    by exists conf, dcs, d.
  - intros (Hdc & conf & dcs & d & -> & -> & ->). by rewrite decide_False.
Qed.

Lemma validateConf_no_panic m dc p : validateConf m dc ≠ Panic p.
Proof. unfold validateConf. repeat case_match; done. Qed.

Lemma dcEntry_found m dc conf dcs d :
  nomadConf m = Some conf → Datacenter conf = Some dcs → dcs !! dc = Some d →
  dcEntry m dc = Ok (Some d).
Proof. intros Hc Hd He. unfold dcEntry. by rewrite Hc, Hd, He. Qed.

Lemma dcEntry_missing m dc :
  dc ≠ EmptyString → validateConf m dc ≠ Ok tt →
  dcEntry m dc = Panic NilDereference ∨ dcEntry m dc = Ok None.
Proof.
  intros Hdc. unfold validateConf, dcEntry. rewrite decide_False by done.
  destruct (nomadConf m) as [conf|]; [|by left].
  destruct (Datacenter conf) as [dcs|]; [|by right].
  destruct (dcs !! dc); [done|by right].
Qed.

Lemma getOrDefault_found m dc conf dcs d field dflt :
  nomadConf m = Some conf → Datacenter conf = Some dcs → dcs !! dc = Some d →
  getOrDefault m dc field dflt
  = Ok (if decide (field d = EmptyString) then dflt else field d).
Proof.
  intros Hc Hd He. unfold getOrDefault.
  rewrite (dcEntry_found _ _ _ _ _ Hc Hd He). by case_decide.
Qed.

Lemma getOrDefault_missing m dc field dflt :
  dc ≠ EmptyString → validateConf m dc ≠ Ok tt →
  getOrDefault m dc field dflt = Panic NilDereference.
Proof.
  intros Hdc Hv. unfold getOrDefault.
  by destruct (dcEntry_missing m dc Hdc Hv) as [-> | ->].
Qed.

(** X17. The getters read the entry of the datacenter without a test of
    their own. For a datacenter that [validateConf] accepts each of them
    returns without a panic; for a named datacenter that [validateConf]
    rejects each of them panics on the nil entry. *)
Theorem getters_rely_on_validateConf m dc :
  dc ≠ EmptyString →
  (validateConf m dc = Ok tt →
     is_ok (getCNType m dc) = true ∧ is_ok (getCNNetworkCIDR m dc) = true
     ∧ is_ok (getCNInterface m dc) = true
     ∧ is_ok (getCSPersistenceLocation m dc) = true
     ∧ ∀ p, getCSReplicaCount m dc ≠ Panic p)
  ∧ (validateConf m dc ≠ Ok tt →
     getCNType m dc = Panic NilDereference
     ∧ getCNNetworkCIDR m dc = Panic NilDereference
     ∧ getCNInterface m dc = Panic NilDereference
     ∧ getCSPersistenceLocation m dc = Panic NilDereference
     ∧ getCSReplicaCount m dc = Panic NilDereference).
Proof.
  intros Hdc. split.
  - intros (_ & conf & dcs & d & Hc & Hd & He)%validateConf_ok.
    unfold getCNType, getCNNetworkCIDR, getCNInterface, getCSPersistenceLocation.
    rewrite !(getOrDefault_found _ _ _ _ _ _ _ Hc Hd He). split_and!; [done..|].
    intros p. unfold getCSReplicaCount. rewrite (dcEntry_found _ _ _ _ _ Hc Hd He).
    case_decide; [done|].
    destruct (Atoi (CSReplicaCount d)) as [n|e|q] eqn:Hn; [by case_decide|done|].
    by apply Atoi_no_panic in Hn.
  - intros Hv.
    unfold getCNType, getCNNetworkCIDR, getCNInterface, getCSPersistenceLocation.
    rewrite !(getOrDefault_missing _ _ _ _ Hdc Hv). split_and!; [done..|].
    unfold getCSReplicaCount.
    by destruct (dcEntry_missing m dc Hdc Hv) as [-> | ->].
Qed.

(** X18. [CN] and [CS] never panic: both look the datacenter up through
    [validateConf] first and hand its error on, and once [validateConf]
    has accepted the datacenter [CN] always answers with its properties. *)
Theorem CN_CS_never_panic m dc :
  (∀ p, CN m dc ≠ Panic p) ∧ (∀ p, CS m dc ≠ Panic p)
  ∧ (∀ e, validateConf m dc = Err e → CN m dc = Err e ∧ CS m dc = Err e)
  ∧ (validateConf m dc = Ok tt ↔ ∃ cn, CN m dc = Ok cn).
Proof.
  unfold CN, CS.
  destruct (validateConf m dc) as [[]|e|q] eqn:Hv.
  - apply validateConf_ok in Hv as (Hdc & conf & dcs & d & Hc & Hd & He).
    unfold getCNType, getCNNetworkCIDR, getCNInterface, getCSPersistenceLocation.
    rewrite !(getOrDefault_found _ _ _ _ _ _ _ Hc Hd He).
    split_and!; [done| |done|split; [intros _; eexists; reflexivity|done]].
    intros p. unfold getCSReplicaCount. rewrite (dcEntry_found _ _ _ _ _ Hc Hd He).
    case_decide; [done|].
    destruct (Atoi (CSReplicaCount d)) as [n|e|q] eqn:Hn; [by case_decide|done|].
    by apply Atoi_no_panic in Hn.
  - split_and!; [done..| by intros ? [= <-] |]. split; [done|by intros [? ?]].
  - by apply validateConf_no_panic in Hv.
Qed.

(** X19. What [CN] offers for a datacenter: under each of the three
    networking keys the value configured for the datacenter, or the
    built-in default when the configured value is empty, and nothing
    under any other key. *)
Theorem CN_offers_configured_or_default m dc cn :
  NoDup [CNTypeLbl; CNNetworkCIDRAddrLbl; CNInterfaceLbl] →
  CN m dc = Ok cn →
  ∃ conf dcs d,
    nomadConf m = Some conf ∧ Datacenter conf = Some dcs ∧ dcs !! dc = Some d
    ∧ cn !! CNTypeLbl
      = Some (if decide (CNType d = EmptyString) then DefaultNomadCNType else CNType d)
    ∧ cn !! CNNetworkCIDRAddrLbl
      = Some (if decide (CNNetworkCIDR d = EmptyString) then DefaultNomadCNNetworkCIDR
              else CNNetworkCIDR d)
    ∧ cn !! CNInterfaceLbl
      = Some (if decide (CNInterface d = EmptyString) then DefaultNomadCNInterface
              else CNInterface d)
    ∧ ∀ k, k ∉ [CNTypeLbl; CNNetworkCIDRAddrLbl; CNInterfaceLbl] → cn !! k = None.
Proof.
  intros Hkeys Hcn. unfold CN in Hcn.
  destruct (validateConf m dc) as [[]|e|q] eqn:Hv; [|done..].
  apply validateConf_ok in Hv as (Hdc & conf & dcs & d & Hc & Hd & He).
  unfold getCNType, getCNNetworkCIDR, getCNInterface in Hcn.
  rewrite !(getOrDefault_found _ _ _ _ _ _ _ Hc Hd He) in Hcn.
  injection Hcn as <-. exists conf, dcs, d.
  apply NoDup_cons in Hkeys as [Hn1 Hkeys]. apply NoDup_cons in Hkeys as [Hn2 _].
  assert (CNInterfaceLbl ≠ CNTypeLbl ∧ CNNetworkCIDRAddrLbl ≠ CNTypeLbl
          ∧ CNInterfaceLbl ≠ CNNetworkCIDRAddrLbl) as (? & ? & ?).
  { split_and!; intros Heq; [apply Hn1|apply Hn1|apply Hn2]; rewrite <- Heq; set_solver. }
  split_and!; [done..| | | |].
  - by rewrite !lookup_insert_ne, lookup_insert_eq by done.
  - by rewrite lookup_insert_ne, lookup_insert_eq by done.
  - by rewrite lookup_insert_eq.
  - intros k Hk. rewrite !lookup_insert_ne, lookup_empty; [done|set_solver..].
Qed.

(** A replica count that [getCSReplicaCount] returns is the built-in
    default, or a configured text that reads as a non-zero integer. *)
Lemma getCSReplicaCount_inv m dc conf dcs d s :
  nomadConf m = Some conf → Datacenter conf = Some dcs → dcs !! dc = Some d →
  getCSReplicaCount m dc = Ok s →
  (CSReplicaCount d = EmptyString ∧ s = DefaultNomadCSReplicaCount)
  ∨ (CSReplicaCount d ≠ EmptyString ∧ s = CSReplicaCount d
     ∧ ∃ n, Atoi s = Ok n ∧ n ≠ 0%Z).
Proof.
  intros Hc Hd He. unfold getCSReplicaCount.
  rewrite (dcEntry_found _ _ _ _ _ Hc Hd He).
  case_decide as Hempty; [intros [= <-]; by left|].
  destruct (Atoi (CSReplicaCount d)) as [n|e|q] eqn:Hn; [|done..].
  case_decide as Hz; [done|]. intros [= <-]. right. eauto.
Qed.

(** X20. Which replica counts [getCSReplicaCount] lets through, for a
    datacenter that the configuration has: the built-in default when none
    is configured, and otherwise the configured text, as written, exactly
    when it reads as an integer other than zero. A count that reads as
    zero is refused by name; a negative count is let through like a
    positive one. *)
Theorem getCSReplicaCount_accepts m dc conf dcs d :
  nomadConf m = Some conf → Datacenter conf = Some dcs → dcs !! dc = Some d →
  (∀ s, getCSReplicaCount m dc = Ok s
        ↔ (CSReplicaCount d = EmptyString ∧ s = DefaultNomadCSReplicaCount)
          ∨ (CSReplicaCount d ≠ EmptyString ∧ s = CSReplicaCount d
             ∧ ∃ n, Atoi s = Ok n ∧ n ≠ 0%Z))
  ∧ (Atoi (CSReplicaCount d) = Ok 0%Z →
     getCSReplicaCount m dc = Err (Errorf "Replica count can not be '0'"))
  ∧ (∀ n, Atoi (CSReplicaCount d) = Ok n → (n < 0)%Z →
          getCSReplicaCount m dc = Ok (CSReplicaCount d)).
Proof.
  intros Hc Hd He. split_and!.
  - intros s. split; [by apply (getCSReplicaCount_inv m dc conf dcs d)|].
    unfold getCSReplicaCount. rewrite (dcEntry_found _ _ _ _ _ Hc Hd He).
    intros [[Hempty ->]|(Hne & -> & n & Hn & Hnz)].
    + by rewrite decide_True.
    + rewrite decide_False by done. rewrite Hn. by rewrite decide_False.
  - intros Hz. unfold getCSReplicaCount. rewrite (dcEntry_found _ _ _ _ _ Hc Hd He).
    rewrite decide_False by (intros Hs; by rewrite Hs in Hz).
    rewrite Hz. by rewrite decide_True.
  - intros n Hn Hneg. unfold getCSReplicaCount.
    rewrite (dcEntry_found _ _ _ _ _ Hc Hd He).
    rewrite decide_False by (intros Hs; by rewrite Hs in Hn).
    rewrite Hn. by rewrite decide_False by lia.
Qed.

(** X21. What [CS] offers for a datacenter: the configured persistence
    location or its built-in default under the location key, a replica
    count under the count key of the provisioner profile, and nothing
    under any other key. A configured count that it offers reads as an
    integer other than zero. *)
Theorem CS_offers_location_and_count m dc cs :
  PVPPersistenceLocationLbl ≠ PVPReplicaCountLbl →
  CS m dc = Ok cs →
  ∃ conf dcs d,
    nomadConf m = Some conf ∧ Datacenter conf = Some dcs ∧ dcs !! dc = Some d
    ∧ cs !! PVPPersistenceLocationLbl
      = Some (if decide (CSPersistenceLocation d = EmptyString)
              then DefaultNomadCSPersistenceLocation else CSPersistenceLocation d)
    ∧ cs !! PVPReplicaCountLbl
      = Some (if decide (CSReplicaCount d = EmptyString)
              then DefaultNomadCSReplicaCount else CSReplicaCount d)
    ∧ (CSReplicaCount d ≠ EmptyString →
       ∃ n, Atoi (get cs PVPReplicaCountLbl) = Ok n ∧ n ≠ 0%Z)
    ∧ ∀ k, k ≠ PVPPersistenceLocationLbl → k ≠ PVPReplicaCountLbl → cs !! k = None.
Proof.
  intros Hkeys Hcs. unfold CS in Hcs.
  destruct (validateConf m dc) as [[]|e|q] eqn:Hv; [|done..].
  apply validateConf_ok in Hv as (Hdc & conf & dcs & d & Hc & Hd & He).
  unfold getCSPersistenceLocation in Hcs.
  rewrite (getOrDefault_found _ _ _ _ _ _ _ Hc Hd He) in Hcs.
  destruct (getCSReplicaCount m dc) as [s| |] eqn:Hs; [|done..].
  injection Hcs as <-.
  apply (getCSReplicaCount_inv m dc conf dcs d s Hc Hd He) in Hs.
  exists conf, dcs, d. split_and!; [done..| | | |].
  - by rewrite lookup_insert_ne, lookup_insert_eq.
  - rewrite lookup_insert_eq. f_equal.
    destruct Hs as [[Hempty ->]|(Hne & -> & _)];
      [by rewrite decide_True|by rewrite decide_False].
  - intros Hne. unfold get. rewrite lookup_insert_eq. simpl.
    destruct Hs as [[Hempty _]|(_ & -> & n & Hn & Hnz)]; [done|]. by exists n.
  - intros k Hk1 Hk2. by rewrite !lookup_insert_ne, lookup_empty.
Qed.

End conf_more.

(** ** The defaults of the configuration on a claim *)
Section defaults_on_claims.
Context `{K : LabelTable}.
Import nethelper jiva nomad_util Contract.

(** X22. The storage defaults that [CS] builds carry the replica count
    under the count key of the provisioner profile, while
    [getBackendCount] reads the count key of the container storage. When
    the two keys differ, [setCS] with those defaults leaves a claim that
    had no count without a count that [getBackendCount] could read: it
    fails on the empty string. *)
Theorem CS_count_does_not_reach_getBackendCount m j dc cs pvc pvc' :
  CSReplicaCountLbl ≠ PVPPersistenceLocationLbl →
  CSReplicaCountLbl ≠ PVPReplicaCountLbl →
  CS m dc = Ok cs → StorageProps j dc = Ok cs →
  label pvc CSReplicaCountLbl = EmptyString →
  setCS j dc pvc = (Ok tt, pvc') →
  label pvc' CSReplicaCountLbl = EmptyString
  ∧ getBackendCount pvc' = (Err (ErrSyntax EmptyString), pvc').
Proof.
  intros Hk1 Hk2 Hcs Hprops Hempty Hrun.
  destruct (setCS_inv _ _ _ _ Hrun) as (labels & cs' & Hl & Hcs' & ->).
  assert (cs' = cs) as -> by congruence.
  assert (cs !! CSReplicaCountLbl = None) as Hnone.
  { unfold CS in Hcs.
    destruct (validateConf m dc) as [[]| |]; [|done..].
    destruct (getCSPersistenceLocation m dc); [|done..].
    destruct (getCSReplicaCount m dc); [|done..].
    injection Hcs as <-. by rewrite !lookup_insert_ne, lookup_empty. }
  assert (label (set_Labels pvc (fillLabels cs labels)) CSReplicaCountLbl = EmptyString)
    as Hafter.
  { rewrite label_set_Labels, get_fillLabels_notin by done.
    unfold label in Hempty. by rewrite Hl in Hempty. }
  split; [done|].
  unfold getBackendCount, bind, getLabel, lift. by rewrite Hafter.
Qed.

End defaults_on_claims.

(** ** The coordinates of the Nomad client *)
Section client.
Context `{K : LabelTable}.
Import nomad_util.

(** X23. When the configuration has datacenters, [Http] takes the address
    of the datacenter dc1 from it, whatever the environment and the
    default configuration say: a client is made for that address, and if
    that address is empty [Http] reports that no address is set, even
    when the environment names one. *)
Theorem Http_prefers_the_configured_address
    (DefaultConfig : Config) (env : gmap string string) m f conf dcs d :
  nomadConf m = Some conf → Datacenter conf = Some dcs → dcs !! "dc1" = Some d →
  (Address d = EmptyString →
   ∀ Client (NewClient : Config → result Client),
     Http NewClient DefaultConfig env m f = Err (Errorf "Nomad address is not set"))
  ∧ (Address d ≠ EmptyString →
     ∃ c, clientConfig DefaultConfig env m f = Ok c
          ∧ cfg_Address c = Address d
          ∧ ∀ Client (NewClient : Config → result Client),
              Http NewClient DefaultConfig env m f = NewClient c).
Proof.
  intros Hc Hd He. split.
  - intros Hempty Client NewClient. unfold Http, clientConfig. cbv zeta.
    rewrite Hc, Hd, He. simpl. by rewrite decide_True.
  - intros Hne.
    assert (∃ c, clientConfig DefaultConfig env m f = Ok c ∧ cfg_Address c = Address d)
      as (c & Hcfg & Haddr).
    { unfold clientConfig. cbv zeta. rewrite Hc, Hd, He. simpl.
      rewrite decide_False by done.
      eexists. split; [reflexivity|]. by repeat case_decide. }
    exists c. split_and!; [done..|].
    intros Client NewClient. unfold Http. by rewrite Hcfg.
Qed.

(** X24. When the configuration has datacenters and dc1 is not one of
    them, [Http] panics on the nil entry of dc1, whatever the environment
    provides. *)
Theorem Http_panics_without_dc1
    (DefaultConfig : Config) (env : gmap string string) m f conf dcs :
  nomadConf m = Some conf → Datacenter conf = Some dcs → dcs !! "dc1" = None →
  ∀ Client (NewClient : Config → result Client),
    Http NewClient DefaultConfig env m f = Panic NilDereference.
Proof.
  intros Hc Hd He Client NewClient. unfold Http, clientConfig. cbv zeta.
  by rewrite Hc, Hd, He.
Qed.

(** X25. The configuration that [Http] makes a client for has an address.
    Without datacenters in the configuration the address is the one of
    the environment, or the default one when the environment has none.
    The region is the one of the utility, else the one of the
    environment, else the default one. The TLS settings are those of the
    utility when it has any, and the default ones otherwise. *)
Theorem Http_coordinates (DefaultConfig : Config) (env : gmap string string) m f c :
  clientConfig DefaultConfig env m f = Ok c →
  cfg_Address c ≠ EmptyString
  ∧ ((nomadConf m = None ∨ ∃ conf, nomadConf m = Some conf ∧ Datacenter conf = None) →
     cfg_Address c
     = if decide (get env EnvNomadAddress = EmptyString) then cfg_Address DefaultConfig
       else get env EnvNomadAddress)
  ∧ cfg_Region c
    = (if decide (region f = EmptyString) then
         if decide (get env EnvNomadRegion = EmptyString) then cfg_Region DefaultConfig
         else get env EnvNomadRegion
       else region f)
  ∧ cfg_TLSConfig c
    = (if decide (caCert f = EmptyString ∧ caPath f = EmptyString
                  ∧ clientCert f = EmptyString ∧ clientKey f = EmptyString
                  ∧ insecure f = false) then cfg_TLSConfig DefaultConfig
       else Some {| CACert := caCert f; CAPath := caPath f;
                    ClientCert := clientCert f; ClientKey := clientKey f;
                    Insecure := insecure f |})
  ∧ ∀ Client (NewClient : Config → result Client),
      Http NewClient DefaultConfig env m f = NewClient c.
Proof.
  intros Hcfg.
  assert (∀ Client (NewClient : Config → result Client),
            Http NewClient DefaultConfig env m f = NewClient c) as Hhttp.
  { intros Client NewClient. unfold Http. by rewrite Hcfg. }
  unfold clientConfig in Hcfg. cbv zeta in Hcfg.
  destruct (nomadConf m) as [conf|] eqn:Hc;
    [destruct (Datacenter conf) as [dcs|] eqn:Hd;
       [destruct (dcs !! "dc1") as [d|] eqn:He; [|done]|]|];
    (case_decide as Haddr; [done|]);
    injection Hcfg as <-;
    (split_and!; [| | | |exact Hhttp]).
  all: try (intros [?|(? & ? & ?)]; simplify_eq).
  all: repeat case_decide; simpl in *; try done; try tauto.
  all: exfalso; destruct (insecure f); intuition congruence.
Qed.

(** X26. A configuration read without a reader has no datacenters, and
    the utility made of it knows none: [CN] and [CS] refuse every named
    datacenter, and [Http] takes the address of the environment, or the
    default one, and the default TLS settings. With a reader the
    configuration is the one that the reader yields. *)
Theorem readNomadConfig_without_reader {Reader : Type}
    (ReadInto : Reader → result NomadConfig) :
  ∃ conf m f,
    readNomadConfig ReadInto None = Ok conf
    ∧ newNomadUtil (Some conf) = Ok (m, f)
    ∧ (∀ dc, dc ≠ EmptyString →
         CN m dc = Err (Errorf "DC not available in nomad config")
         ∧ CS m dc = Err (Errorf "DC not available in nomad config"))
    ∧ (∀ DefaultConfig env c,
         clientConfig DefaultConfig env m f = Ok c →
         cfg_TLSConfig c = cfg_TLSConfig DefaultConfig
         ∧ cfg_Address c
           = if decide (get env EnvNomadAddress = EmptyString)
             then cfg_Address DefaultConfig else get env EnvNomadAddress)
    ∧ (∀ r, readNomadConfig ReadInto (Some r) = ReadInto r).
Proof.
  eexists _, _, _. split; [reflexivity|]. split; [reflexivity|]. split_and!.
  - intros dc Hdc. unfold CN, CS, validateConf. simpl. by rewrite decide_False.
  - intros DefaultConfig env c. unfold clientConfig. cbv zeta. simpl.
    repeat case_decide; try done; by intros [= <-].
  - intros r. unfold readNomadConfig. by destruct (ReadInto r).
Qed.

End client.

(** ** The properties on the sample data *)

Import nethelper jiva nomad Contract Samples.

(** Closed goals are settled by evaluation. *)
Ltac evaluate :=
  vm_compute; first [ reflexivity | exact I | discriminate | split; discriminate ].

Lemma sample_keys_distinct : resolverKeysDistinct.
Proof. apply (bool_decide_unpack _). evaluate. Qed.

Lemma vol1_complete : complete vol1Labels.
Proof. apply (bool_decide_unpack _). evaluate. Qed.

(** C1 at a claim that brings a subnet of its own: resolution succeeds and
    the subnet the claim had is replaced by the one derived from its
    network CIDR. *)
Theorem resolveAndAllocate_overwrites_subnet :
  label ownSubnetClaim CNSubnetLbl = "192.168.0.0/16"
  ∧ ∃ pvc',
      resolveAndAllocate sampleJiva ownSubnetClaim = (Ok tt, pvc')
      ∧ label pvc' CNSubnetLbl = "10.0.0.0/24".
Proof.
  split; [evaluate|].
  exists (resolveAndAllocate sampleJiva ownSubnetClaim).2. split; evaluate.
Qed.

(** C2 at a claim with one replica address for two replicas and no
    frontend address: resolution does not fail, and it assigns a frontend
    address to the claim. *)
Lemma resolveAndAllocate_allocates_despite_mismatch :
  Atoi (label oneAddressForTwoClaim CSReplicaCountLbl) = Ok 2%Z
  ∧ length (Split (label oneAddressForTwoClaim JivaBackEndAllIPsLbl) ",") = 1%nat
  ∧ label oneAddressForTwoClaim JivaFrontEndIPLbl = EmptyString
  ∧ ∃ pvc',
      resolveAndAllocate sampleJiva oneAddressForTwoClaim = (Ok tt, pvc')
      ∧ label pvc' JivaFrontEndIPLbl = "10.0.0.1".
Proof.
  split_and!; try (by evaluate).
  exists (resolveAndAllocate sampleJiva oneAddressForTwoClaim).2. split; evaluate.
Qed.

Lemma PvcToJob_replica_ip_count_mismatch_witness :
  PvcToJob (Some vol1OneAddress) =
    Err (Errorf ("Replica IP count '"
                 +:+ Itoa (Z.of_nat (length (Split (get vol1OneAddressLabels PVPReplicaIPsLbl) ",")))
                 +:+ "' does not match replica count '" +:+ Itoa 2 +:+ "'")).
Proof.
  apply (PvcToJob_replica_ip_count_mismatch vol1OneAddress vol1OneAddressLabels 2).
  - discriminate.
  - reflexivity.
  - apply (bool_decide_unpack _). evaluate.
  - evaluate.
  - discriminate.
  - evaluate.
Defined.

Lemma setCN_allocates_frontend_and_backends_witness :
  ∃ subnet ip0 rest pvc',
    setCN sampleJiva "dc1" freshClaim = (Ok tt, pvc')
    ∧ CIDRSubnet "10.0.0.0/24" = Ok subnet
    ∧ label pvc' CNSubnetLbl = subnet
    ∧ length (ip0 :: rest) = S (Z.to_nat 2)
    ∧ NoDup (ip0 :: rest)
    ∧ Forall (λ ip, inSubnet ip subnet = true) (ip0 :: rest)
    ∧ label pvc' JivaFrontEndIPLbl = ip0
    ∧ label pvc' JivaBackEndAllIPsLbl = Join rest ","
    ∧ (rest ≠ [] → Split (label pvc' JivaBackEndAllIPsLbl) "," = rest).
Proof.
  apply (setCN_allocates_frontend_and_backends sampleJiva "dc1" freshClaim freshLabels
           dc1NetworkProps "10.0.0.0/24" 167772160 24 2).
  - apply (bool_decide_unpack _). evaluate.
  - reflexivity.
  - discriminate.
  - evaluate.
  - evaluate.
  - evaluate.
  - evaluate.
  - evaluate.
  - evaluate.
  - evaluate.
  - evaluate.
  - lia.
  - evaluate.
Defined.

Lemma setCN_allocates_missing_piece_witness :
  (∃ subnet ips pvc',
     setCN sampleJiva "dc1" frontendOnlyClaim = (Ok tt, pvc')
     ∧ CIDRSubnet "10.0.0.0/24" = Ok subnet
     ∧ length ips = Z.to_nat 2 ∧ NoDup ips
     ∧ Forall (λ ip, inSubnet ip subnet = true) ips
     ∧ label pvc' JivaFrontEndIPLbl = "10.0.0.9"
     ∧ label pvc' JivaBackEndAllIPsLbl = Join ips ",")
  ∧ (∃ subnet ip pvc',
       setCN sampleJiva "dc1" backendOnlyClaim = (Ok tt, pvc')
       ∧ CIDRSubnet "10.0.0.0/24" = Ok subnet
       ∧ inSubnet ip subnet = true ∧ ip ≠ EmptyString
       ∧ label pvc' JivaFrontEndIPLbl = ip
       ∧ label pvc' JivaBackEndAllIPsLbl = "10.0.0.5,10.0.0.6").
Proof.
  destruct (setCN_allocates_missing_piece sampleJiva "dc1" dc1NetworkProps) as [Hfe Hbe].
  - apply (bool_decide_unpack _). evaluate.
  - discriminate.
  - evaluate.
  - evaluate.
  - evaluate.
  - split.
    + apply (Hfe frontendOnlyClaim frontendOnlyLabels "10.0.0.0/24" 167772160%Z 24%Z
               "10.0.0.9" 2%Z).
      * reflexivity.
      * evaluate.
      * evaluate.
      * evaluate.
      * discriminate.
      * evaluate.
      * evaluate.
      * evaluate.
    + apply (Hbe backendOnlyClaim backendOnlyLabels "10.0.0.0/24" 167772160%Z 24%Z
               "10.0.0.5,10.0.0.6").
      * reflexivity.
      * evaluate.
      * evaluate.
      * evaluate.
      * evaluate.
      * discriminate.
      * evaluate.
Defined.

(** The allocator is not told which address the claim keeps: the
    addresses drawn for the backends of a claim whose frontend address is
    the first host of the network start with that address. *)
Example backends_drawn_from_the_first_host :
  ∃ pvc',
    setCN sampleJiva "dc1" firstHostClaim = (Ok tt, pvc')
    ∧ label pvc' JivaFrontEndIPLbl = "10.0.0.1"
    ∧ label pvc' JivaBackEndAllIPsLbl = "10.0.0.1,10.0.0.2".
Proof. exists (setCN sampleJiva "dc1" firstHostClaim).2. split_and!; evaluate. Qed.

Lemma PvcToJob_two_replicas_witness :
  ∃ job fe be meta ip0 ip1,
    PvcToJob (Some vol1) = Ok job
    ∧ TaskGroups job = [fe; be]
    ∧ Count fe = Some 1%Z ∧ tg_Constraints fe = []
    ∧ Count be = Some 2%Z ∧ tg_Constraints be = [distinctHosts]
    ∧ Split (get vol1Labels PVPReplicaIPsLbl) "," = [ip0; ip1]
    ∧ Meta job = Some meta
    ∧ meta !! backendIPKey 0 = Some ip0
    ∧ meta !! backendIPKey 1 = Some ip1.
Proof.
  apply (PvcToJob_two_replicas vol1 vol1Labels).
  - discriminate.
  - reflexivity.
  - apply (bool_decide_unpack _). evaluate.
  - evaluate.
  - evaluate.
Defined.

(** The example of the specification, evaluated: the counts and the
    constraints of the two groups, and the metadata entries of the backend
    indices 0, 1 and 2. *)
Example PvcToJob_vol1 :
  match PvcToJob (Some vol1) with
  | Ok job =>
      Some (Count <$> TaskGroups job, tg_Constraints <$> TaskGroups job,
            (λ meta : gmap string string,
               (meta !! "JIVA_REP_IP_0", meta !! "JIVA_REP_IP_1", meta !! "JIVA_REP_IP_2"))
              <$> Meta job)
  | _ => None
  end
  = Some ([Some 1%Z; Some 2%Z], [[]; [distinctHosts]],
          Some (Some "10.0.0.5", Some "10.0.0.6", None)).
Proof. evaluate. Qed.

Lemma PvcToJob_names_first_missing_property_witness :
  PvcToJob (Some vol1NoImage) = Err (Errorf "Missing controller image in pvc").
Proof.
  apply (PvcToJob_names_first_missing_property vol1NoImage vol1NoImageLabels
           [ (OrchRegionLbl, "Missing region in pvc");
             (OrchDCLbl, "Missing datacenter in pvc") ]
           PVPControllerImageLbl "Missing controller image in pvc"
           [ (PVPControllerIPsLbl, "Missing controller IP(s) in pvc");
             (PVPReplicaIPsLbl, "Missing replica IPs in pvc");
             (CNTypeLbl, "Missing CN type in pvc");
             (CNSubnetLbl, "Missing CN subnet in pvc");
             (CNInterfaceLbl, "Missing CN interface in pvc");
             (PVPPersistenceLocationLbl, "Missing persistent location in pvc");
             (PVPStorageSizeLbl, "Missing storage size in pvc") ]).
  - discriminate.
  - reflexivity.
  - reflexivity.
  - apply (bool_decide_unpack _). evaluate.
  - evaluate.
Defined.

(** The replica count is not among the properties tested for emptiness:
    a claim without it is rejected by the integer parser. *)
Example PvcToJob_missing_replica_count :
  PvcToJob (Some vol1NoCount) = Err (ErrSyntax EmptyString).
Proof. evaluate. Qed.

(** The example of the specification for the status reconciler. *)
Example JobEvalToPv_complete :
  ∃ ann,
    JobEvalToPv "vol1" (Some completeEval)
    = Ok {| pv_Name := "vol1"; pv_Annotations := Some ann;
            pv_Status := {| Message := "ok"; Reason := "complete" |} |}
    ∧ ann !! "evalstatus" = Some "complete"
    ∧ ann !! "evalpriority" = Some "50".
Proof. eexists. split; [reflexivity|]. split; evaluate. Qed.

Lemma JobToPv_annotations_witness :
  ∃ pv,
    JobToPv (Some (jobWithStatus (Some "running"))) = Ok pv
    ∧ pv_Name pv = "vol1"
    ∧ Message (pv_Status pv) = EmptyString
    ∧ Reason (pv_Status pv) = "running"
    ∧ ("running" = JobStatusRunning →
       pv_Annotations pv = Meta (jobWithStatus (Some "running")))
    ∧ ("running" ≠ JobStatusRunning → pv_Annotations pv = None)
    ∧ (∀ meta, Meta (jobWithStatus (Some "running")) = Some meta →
         (pv_Annotations pv = Some meta ↔ "running" = JobStatusRunning)).
Proof.
  apply (JobToPv_annotations (jobWithStatus (Some "running")) "vol1" EmptyString "running");
    reflexivity.
Defined.

Lemma JobToPv_nil_status_panics_witness :
  JobToPv (Some (jobWithStatus None)) = Panic NilDereference.
Proof.
  apply (JobToPv_nil_status_panics (jobWithStatus None)). left. reflexivity.
Defined.

(** C9 at two claims on which every property of the property set is set:
    the first has no network CIDR, and resolution adds one; the second has
    a subnet that is not the one derived from its network CIDR, and
    resolution replaces it. *)
Lemma resolveAndAllocate_changes_set_claims :
  (label noNetworkCIDRClaim CNNetworkCIDRAddrLbl = EmptyString
   ∧ ∃ pvc',
       resolveAndAllocate sampleJiva noNetworkCIDRClaim = (Ok tt, pvc')
       ∧ label pvc' CNNetworkCIDRAddrLbl = "10.0.0.0/24"
       ∧ pvc' ≠ noNetworkCIDRClaim)
  ∧ (label foreignSubnetClaim CNSubnetLbl = "10.0.0.0/16"
     ∧ ∃ pvc',
         resolveAndAllocate sampleJiva foreignSubnetClaim = (Ok tt, pvc')
         ∧ label pvc' CNSubnetLbl = "10.0.0.0/24"
         ∧ pvc' ≠ foreignSubnetClaim).
Proof.
  split; (split; [evaluate|]).
  all: match goal with
       | |- ∃ _, resolveAndAllocate ?j ?c = _ ∧ _ => exists (resolveAndAllocate j c).2
       end.
  all: split; [evaluate|]; split; [evaluate|]; intros Heq.
  - apply (f_equal (λ c, label c CNNetworkCIDRAddrLbl)) in Heq.
    vm_compute in Heq. discriminate.
  - apply (f_equal (λ c, label c CNSubnetLbl)) in Heq.
    vm_compute in Heq. discriminate.
Qed.

Lemma resolveAndAllocate_resolved_noop_witness :
  resolveAndAllocate sampleJiva resolvedClaim = (Ok tt, resolvedClaim).
Proof.
  apply (resolveAndAllocate_resolved_noop sampleJiva resolvedClaim
           resolvedLabels resolvedRequests dc1StorageProps dc1NetworkProps "10.0.0.0/24").
  - reflexivity.
  - reflexivity.
  - evaluate.
  - evaluate.
  - evaluate.
  - evaluate.
  - evaluate.
  - evaluate.
  - apply (bool_decide_unpack _). evaluate.
  - evaluate.
  - apply (bool_decide_unpack _). evaluate.
  - evaluate.
  - evaluate.
  - evaluate.
  - evaluate.
  - evaluate.
Defined.

(** Resolution makes [resolvedClaim] of the fresh claim, and leaves it
    alone when run again. *)
Example resolveAndAllocate_twice :
  resolveAndAllocate sampleJiva freshClaim = (Ok tt, resolvedClaim)
  ∧ resolveAndAllocate sampleJiva resolvedClaim = (Ok tt, resolvedClaim).
Proof. split; evaluate. Qed.

(** *** The further properties on the sample data *)

Import nomad_util.

Lemma resolveAndAllocate_frame_witness :
  label (resolveAndAllocate sampleJiva ownSubnetClaim).2 CSReplicaCountLbl = "2".
Proof. apply resolveAndAllocate_frame; evaluate. Defined.

Lemma resolveAndAllocate_idempotent_witness :
  resolveAndAllocate sampleJiva resolvedClaim = (Ok tt, resolvedClaim).
Proof.
  apply (resolveAndAllocate_idempotent sampleJiva freshClaim resolvedClaim).
  - exact sample_keys_distinct.
  - evaluate.
Defined.

Lemma PvcToJob_records_every_replica_witness :
  ∃ fe be task meta r,
    TaskGroups vol1Job = [fe; be] ∧ Tasks be = [task] ∧ Meta vol1Job = Some meta
    ∧ Atoi (get vol1Labels PVPReplicaCountLbl) = Ok r
    ∧ Count be = Some r
    ∧ Z.of_nat (length (Split (get vol1Labels PVPReplicaIPsLbl) ",")) = r
    ∧ (∀ i ip, Split (get vol1Labels PVPReplicaIPsLbl) "," !! i = Some ip →
         meta !! backendIPKey (Z.of_nat i) = Some ip
         ∧ Env task !! backendIPKey (Z.of_nat i) = Some ip)
    ∧ ((∀ i, (0 ≤ i < r)%Z → PVPReplicaCountLbl ≠ backendIPKey i) →
       meta !! PVPReplicaCountLbl = Some (Itoa r)).
Proof.
  apply (PvcToJob_records_every_replica vol1 vol1Labels vol1Job).
  - reflexivity.
  - evaluate.
Defined.

Lemma PvcToJob_job_has_no_status_witness :
  Status vol1Job = None ∧ StatusDescription vol1Job = None
  ∧ JobToPv (Some vol1Job) = Panic NilDereference.
Proof. apply (PvcToJob_job_has_no_status (Some vol1) vol1Job). evaluate. Defined.

Lemma PvcToJob_metadata_witness :
  ∃ meta,
    Meta vol1Job = Some meta
    ∧ meta !! JivaBackEndVolSizeLbl = Some (get vol1Labels PVPStorageSizeLbl)
    ∧ meta !! JivaFrontEndIPLbl = Some (get vol1Labels PVPControllerIPsLbl)
    ∧ meta !! JivaTargetPortalLbl
      = Some (get vol1Labels PVPControllerIPsLbl +:+ ":" +:+ JivaISCSIPortDef)
    ∧ meta !! JivaIqnLbl = Some (JivaIqnFormatPrefix +:+ ":" +:+ pvc_Name vol1).
Proof.
  apply (PvcToJob_metadata vol1 vol1Labels vol1Job).
  - apply (bool_decide_unpack _). evaluate.
  - intros k i Hk Heq.
    repeat (apply elem_of_cons in Hk as [->|Hk]; [vm_compute in Heq; discriminate Heq|]).
    by apply elem_of_nil in Hk.
  - reflexivity.
  - evaluate.
Defined.

Lemma JobToPv_PvToJob_keeps_the_name_witness :
  ∃ job',
    PvToJob (Some runningVolume) = Ok job'
    ∧ job_Name job' = job_Name (jobWithStatus (Some "running"))
    ∧ ID job' = job_Name (jobWithStatus (Some "running"))
    ∧ Meta job' = None ∧ Status job' = None ∧ TaskGroups job' = [].
Proof.
  apply (JobToPv_PvToJob_keeps_the_name (jobWithStatus (Some "running")) runningVolume).
  evaluate.
Defined.

Lemma JobEvalToPv_annotations_read_back_witness :
  ∃ ann,
    pv_Annotations evalVolume = Some ann
    ∧ size ann = 7%nat
    ∧ get ann "evalstatus" = Reason (pv_Status evalVolume)
    ∧ get ann "evalstatusdesc" = Message (pv_Status evalVolume)
    ∧ Atoi (get ann "evalpriority") = Ok (eval_Priority completeEval).
Proof.
  apply (JobEvalToPv_annotations_read_back "vol1" completeEval evalVolume).
  - evaluate.
  - evaluate.
Defined.

Lemma ProvisionStorage_submits_resolved_claim_witness :
  resolveAndAllocate sampleJiva freshClaim = (Ok tt, resolvedClaim)
  ∧ (∃ a o so,
       aspect sampleJiva = Some a ∧ GetOrchProvider a = Ok (Some o)
       ∧ orch_StoragePlacements o = Some so
       ∧ StoragePlacementReq so resolvedClaim = Ok submittedVolume)
  ∧ label resolvedClaim JivaFrontEndImageLbl ≠ EmptyString
  ∧ label resolvedClaim RegionLbl ≠ EmptyString
  ∧ label resolvedClaim DatacenterLbl ≠ EmptyString
  ∧ label resolvedClaim CNNetworkCIDRAddrLbl ≠ EmptyString
  ∧ CIDRSubnet (label resolvedClaim CNNetworkCIDRAddrLbl)
    = Ok (label resolvedClaim CNSubnetLbl)
  ∧ (0 < request resolvedClaim JivaFrontEndVolSizeLbl)%Z
  ∧ (0 < request resolvedClaim JivaBackEndVolSizeLbl)%Z.
Proof.
  apply (ProvisionStorage_submits_resolved_claim sampleJiva freshClaim submittedVolume).
  - exact sample_keys_distinct.
  - evaluate.
Defined.

Lemma no_aspect_no_provisioning_witness :
  (∀ pvc, ProvisionStorage {| aspect := None |} pvc = (Panic NilDereference, pvc))
  ∧ (∀ dc, NetworkProps {| aspect := None |} dc = Panic NilDereference
           ∧ StorageProps {| aspect := None |} dc = Panic NilDereference)
  ∧ (∀ pvc labels, pvc_Labels pvc = Some labels →
       (get labels RegionLbl = EmptyString →
        setRegion {| aspect := None |} pvc
        = (Err (Errorf "Aspect missing while setting pvc region"), pvc))
       ∧ (get labels DatacenterLbl = EmptyString →
          setDC {| aspect := None |} pvc = (Panic NilDereference, pvc))
       ∧ (get labels RegionLbl ≠ EmptyString →
          setRegion {| aspect := None |} pvc = (Ok tt, pvc))
       ∧ (get labels DatacenterLbl ≠ EmptyString →
          setDC {| aspect := None |} pvc = (Ok (get labels DatacenterLbl), pvc))).
Proof. apply (no_aspect_no_provisioning {| aspect := None |}). reflexivity. Defined.

Lemma setBackendIPsAsString_Split_back_witness :
  ∃ pvc',
    setBackendIPsAsString ["10.0.0.2"; "10.0.0.3"] freshClaim = (Ok tt, pvc')
    ∧ label pvc' JivaBackEndAllIPsLbl = Join ["10.0.0.2"; "10.0.0.3"] ","
    ∧ (["10.0.0.2"; "10.0.0.3"] ≠ [] → Forall (lacks ",") ["10.0.0.2"; "10.0.0.3"] →
       Split (label pvc' JivaBackEndAllIPsLbl) "," = ["10.0.0.2"; "10.0.0.3"])
    ∧ (["10.0.0.2"; "10.0.0.3"] = [] →
       Split (label pvc' JivaBackEndAllIPsLbl) "," = [EmptyString])
    ∧ (∀ k, k ≠ JivaBackEndAllIPsLbl → label pvc' k = label freshClaim k).
Proof.
  apply (setBackendIPsAsString_Split_back ["10.0.0.2"; "10.0.0.3"] freshClaim freshLabels).
  reflexivity.
Defined.

Lemma getters_rely_on_validateConf_witness :
  (validateConf sampleNomad "dc1" = Ok tt →
     is_ok (getCNType sampleNomad "dc1") = true
     ∧ is_ok (getCNNetworkCIDR sampleNomad "dc1") = true
     ∧ is_ok (getCNInterface sampleNomad "dc1") = true
     ∧ is_ok (getCSPersistenceLocation sampleNomad "dc1") = true
     ∧ ∀ p, getCSReplicaCount sampleNomad "dc1" ≠ Panic p)
  ∧ (validateConf sampleNomad "dc1" ≠ Ok tt →
     getCNType sampleNomad "dc1" = Panic NilDereference
     ∧ getCNNetworkCIDR sampleNomad "dc1" = Panic NilDereference
     ∧ getCNInterface sampleNomad "dc1" = Panic NilDereference
     ∧ getCSPersistenceLocation sampleNomad "dc1" = Panic NilDereference
     ∧ getCSReplicaCount sampleNomad "dc1" = Panic NilDereference).
Proof. apply (getters_rely_on_validateConf sampleNomad "dc1"). discriminate. Defined.

Lemma CN_offers_configured_or_default_witness :
  ∃ conf dcs d,
    nomadConf sampleNomad = Some conf ∧ Datacenter conf = Some dcs
    ∧ dcs !! "dc1" = Some d
    ∧ dc1NetworkProps !! CNTypeLbl
      = Some (if decide (CNType d = EmptyString) then DefaultNomadCNType else CNType d)
    ∧ dc1NetworkProps !! CNNetworkCIDRAddrLbl
      = Some (if decide (CNNetworkCIDR d = EmptyString) then DefaultNomadCNNetworkCIDR
              else CNNetworkCIDR d)
    ∧ dc1NetworkProps !! CNInterfaceLbl
      = Some (if decide (CNInterface d = EmptyString) then DefaultNomadCNInterface
              else CNInterface d)
    ∧ ∀ k, k ∉ [CNTypeLbl; CNNetworkCIDRAddrLbl; CNInterfaceLbl] →
           dc1NetworkProps !! k = None.
Proof.
  apply (CN_offers_configured_or_default sampleNomad "dc1" dc1NetworkProps).
  - apply (bool_decide_unpack _). evaluate.
  - evaluate.
Defined.

Lemma getCSReplicaCount_accepts_witness :
  (∀ s, getCSReplicaCount sampleNomad "dc1" = Ok s
        ↔ (CSReplicaCount dc1 = EmptyString ∧ s = DefaultNomadCSReplicaCount)
          ∨ (CSReplicaCount dc1 ≠ EmptyString ∧ s = CSReplicaCount dc1
             ∧ ∃ n, Atoi s = Ok n ∧ n ≠ 0%Z))
  ∧ (Atoi (CSReplicaCount dc1) = Ok 0%Z →
     getCSReplicaCount sampleNomad "dc1" = Err (Errorf "Replica count can not be '0'"))
  ∧ (∀ n, Atoi (CSReplicaCount dc1) = Ok n → (n < 0)%Z →
          getCSReplicaCount sampleNomad "dc1" = Ok (CSReplicaCount dc1)).
Proof.
  apply (getCSReplicaCount_accepts sampleNomad "dc1"
           {| Datacenter := Some {[ "dc1" := dc1 ]} |} {[ "dc1" := dc1 ]} dc1);
    reflexivity.
Defined.

Lemma CS_offers_location_and_count_witness :
  ∃ conf dcs d,
    nomadConf sampleNomad = Some conf ∧ Datacenter conf = Some dcs
    ∧ dcs !! "dc1" = Some d
    ∧ dc1StorageProps !! PVPPersistenceLocationLbl
      = Some (if decide (CSPersistenceLocation d = EmptyString)
              then DefaultNomadCSPersistenceLocation else CSPersistenceLocation d)
    ∧ dc1StorageProps !! PVPReplicaCountLbl
      = Some (if decide (CSReplicaCount d = EmptyString)
              then DefaultNomadCSReplicaCount else CSReplicaCount d)
    ∧ (CSReplicaCount d ≠ EmptyString →
       ∃ n, Atoi (get dc1StorageProps PVPReplicaCountLbl) = Ok n ∧ n ≠ 0%Z)
    ∧ ∀ k, k ≠ PVPPersistenceLocationLbl → k ≠ PVPReplicaCountLbl →
           dc1StorageProps !! k = None.
Proof.
  apply (CS_offers_location_and_count sampleNomad "dc1" dc1StorageProps).
  - discriminate.
  - evaluate.
Defined.

Lemma CS_count_does_not_reach_getBackendCount_witness :
  label (setCS sampleJiva "dc1" bareClaim).2 CSReplicaCountLbl = EmptyString
  ∧ getBackendCount (setCS sampleJiva "dc1" bareClaim).2
    = (Err (ErrSyntax EmptyString), (setCS sampleJiva "dc1" bareClaim).2).
Proof.
  apply (CS_count_does_not_reach_getBackendCount sampleNomad sampleJiva "dc1"
           dc1StorageProps bareClaim).
  - discriminate.
  - discriminate.
  - evaluate.
  - evaluate.
  - reflexivity.
  - evaluate.
Defined.

Lemma Http_prefers_the_configured_address_witness :
  (Address dc1 = EmptyString →
   ∀ Client (NewClient : Config → result Client),
     Http NewClient sampleDefaultConfig sampleEnv sampleNomad plainFields
     = Err (Errorf "Nomad address is not set"))
  ∧ (Address dc1 ≠ EmptyString →
     ∃ c, clientConfig sampleDefaultConfig sampleEnv sampleNomad plainFields = Ok c
          ∧ cfg_Address c = Address dc1
          ∧ ∀ Client (NewClient : Config → result Client),
              Http NewClient sampleDefaultConfig sampleEnv sampleNomad plainFields
              = NewClient c).
Proof.
  apply (Http_prefers_the_configured_address sampleDefaultConfig sampleEnv sampleNomad
           plainFields {| Datacenter := Some {[ "dc1" := dc1 ]} |} {[ "dc1" := dc1 ]} dc1);
    reflexivity.
Defined.

Lemma Http_panics_without_dc1_witness :
  Http (λ c, Ok c) sampleDefaultConfig sampleEnv dc2Nomad plainFields
  = Panic NilDereference.
Proof.
  apply (Http_panics_without_dc1 sampleDefaultConfig sampleEnv dc2Nomad plainFields
           {| Datacenter := Some {[ "dc2" := dc1 ]} |} {[ "dc2" := dc1 ]});
    reflexivity.
Defined.

Lemma Http_coordinates_witness :
  cfg_Address secureClientConfig ≠ EmptyString
  ∧ ((nomadConf sampleNomad = None
      ∨ ∃ conf, nomadConf sampleNomad = Some conf ∧ Datacenter conf = None) →
     cfg_Address secureClientConfig
     = if decide (get sampleEnv EnvNomadAddress = EmptyString)
       then cfg_Address sampleDefaultConfig else get sampleEnv EnvNomadAddress)
  ∧ cfg_Region secureClientConfig
    = (if decide (region secureFields = EmptyString) then
         if decide (get sampleEnv EnvNomadRegion = EmptyString)
         then cfg_Region sampleDefaultConfig else get sampleEnv EnvNomadRegion
       else region secureFields)
  ∧ cfg_TLSConfig secureClientConfig
    = (if decide (caCert secureFields = EmptyString ∧ caPath secureFields = EmptyString
                  ∧ clientCert secureFields = EmptyString
                  ∧ clientKey secureFields = EmptyString
                  ∧ insecure secureFields = false)
       then cfg_TLSConfig sampleDefaultConfig
       else Some {| CACert := caCert secureFields; CAPath := caPath secureFields;
                    ClientCert := clientCert secureFields;
                    ClientKey := clientKey secureFields;
                    Insecure := insecure secureFields |})
  ∧ ∀ Client (NewClient : Config → result Client),
      Http NewClient sampleDefaultConfig sampleEnv sampleNomad secureFields
      = NewClient secureClientConfig.
Proof.
  apply (Http_coordinates sampleDefaultConfig sampleEnv sampleNomad secureFields
           secureClientConfig).
  evaluate.
Defined.
